(** * Pixel-level decorrelation: the model and optimisation core

    A shallow embedding of [zen_funcs.py] ([eclipse], [zen], [bindata],
    [get_params]) and of the bin-width sweep of [zen.py], with the
    properties of the specification stated and proved over it.

    Numbers.  A finite [float64] is idealised as a real number: rounding,
    overflow and signed zeros are not modelled.  The operations whose
    result can leave the reals ([np.arccos], [np.sqrt], a division by
    zero, the mean of an empty slice) return an [npfloat], which is
    either [Fin r], [NaN] or [DivZero].

    Exceptions.  What Python raises ([IndexError], [ValueError], ...) is
    a [result]: [Ok v] or [Raise e].  Warnings and what is printed are
    not part of the model.

    Arrays.  A one-dimensional array is a list and a loop that writes
    [a[i]] is a loop over a list that replaces its [i]-th entry; the
    arrays [x], [y] and [yerr] of [bindata] are indexed by a mask of
    the length of [x], and a shorter or longer one is an [IndexError]. *)

From Stdlib Require Import Reals Lra Lia List ZArith Bool Psatz.
Import ListNotations.
Open Scope R_scope.

(** ** The Python and NumPy run time *)

Inductive pyexn : Type :=
| IndexError
| ValueError
| ZeroDivisionError
| RuntimeError.

Inductive result (A : Type) : Type :=
| Ok (a : A)
| Raise (e : pyexn).

Arguments Ok {A} a.
Arguments Raise {A} e.

Definition bind {A B : Type} (m : result A) (k : A -> result B) : result B :=
  match m with
  | Ok a => k a
  | Raise e => Raise e
  end.

Notation "x <- m ;; k" := (bind m (fun x => k))
  (at level 61, m at next level, right associativity).

Definition is_ok {A : Type} (m : result A) : Prop :=
  match m with Ok _ => True | Raise _ => False end.

(** A float as NumPy computes it.  [NaN] is the result of an invalid
    operation (arccos or sqrt outside the domain, 0/0) and stays [NaN]
    through every later operation.  [DivZero] records that a non-zero
    number was divided by zero (IEEE gives an infinity there); the
    value is not followed further. *)
Inductive npfloat : Type :=
| Fin (r : R)
| NaN
| DivZero.

Definition fbind (a : npfloat) (k : R -> npfloat) : npfloat :=
  match a with
  | Fin r => k r
  | NaN => NaN
  | DivZero => DivZero
  end.

Notation "x <~ a ;; k" := (fbind a (fun x => k))
  (at level 61, a at next level, right associativity).

Definition is_fin (a : npfloat) : Prop :=
  match a with Fin _ => True | _ => False end.

Definition Rleb (x y : R) : bool := if Rle_dec x y then true else false.
Definition Rltb (x y : R) : bool := if Rlt_dec x y then true else false.
Definition Reqb (x y : R) : bool := if Req_dec_T x y then true else false.

(** [a / b] on float64 scalars and arrays: no exception, a warning only. *)
Definition np_div (a b : R) : npfloat :=
  if Reqb b 0 then (if Reqb a 0 then NaN else DivZero) else Fin (a / b).

(** [np.arccos]: NaN outside [-1, 1]. *)
Definition np_arccos (a : R) : npfloat :=
  if Rleb (-1) a && Rleb a 1 then Fin (acos a) else NaN.

(** [np.sqrt]: NaN below 0. *)
Definition np_sqrt (a : R) : npfloat :=
  if Rleb 0 a then Fin (sqrt a) else NaN.

(** Arithmetic on two floats either of which may already be non-finite. *)
Definition flift2 (op : R -> R -> R) (a b : npfloat) : npfloat :=
  match a, b with
  | Fin u, Fin v => Fin (op u v)
  | NaN, _ => NaN
  | _, NaN => NaN
  | _, _ => DivZero
  end.

(** [l[i]] for [0 <= i]. *)
Definition getitem {A : Type} (l : list A) (i : nat) : result A :=
  match nth_error l i with
  | Some a => Ok a
  | None => Raise IndexError
  end.

(** [l[-k]] for [1 <= k]. *)
Definition getitem_neg {A : Type} (l : list A) (k : nat) : result A :=
  if (k <=? length l)%nat then getitem l (length l - k) else Raise IndexError.

(** [l[k]] for an integer [k] of either sign. *)
Definition getitem_Z {A : Type} (l : list A) (k : Z) : result A :=
  if (0 <=? k)%Z then getitem l (Z.to_nat k)
  else getitem_neg l (Z.to_nat (- k)).

(** [l[start:-k]] for [0 <= start] and [1 <= k]. *)
Definition slice_to_neg {A : Type} (l : list A) (start k : nat) : list A :=
  skipn start (firstn (length l - k) l).

(** ** [eclipse] (zen_funcs.py, lines 72-140) *)

(** Lines 126-129 and, word for word, 133-136: the flux of a partly
    covered disk at separation [z]. *)
Definition overlap_flux (depth p z : R) : npfloat :=
  a0 <~ np_div (p ^ 2 + z ^ 2 - 1) (2 * p * z) ;;
  k0 <~ np_arccos a0 ;;
  a1 <~ np_div (1 - p ^ 2 + z ^ 2) (2 * z) ;;
  k1 <~ np_arccos a1 ;;
  s <~ np_sqrt ((4 * z ^ 2 - (1 + z ^ 2 - p ^ 2) ^ 2) / 4) ;;
  Fin (1 - depth / Rabs depth / PI * (p ^ 2 * k0 + k1 - s)).


(** Line 111: [np.sqrt(np.abs(depth)) * (depth/np.abs(depth))], reached
    with [depth != 0] only. *)
Definition signed_root (depth : R) : R :=
  sqrt (Rabs depth) * (depth / Rabs depth).

(** The contact times and the signed radius ratio (lines 95-111). *)
Record contacts : Type := mkContacts {
  c_t1 : R; c_t2 : R; c_t3 : R; c_t4 : R; c_p : R
}.

Definition eclipse_contacts (midpt width depth t12 t34 : R) : contacts :=
  let t1 := midpt - width / 2 in
  let t2 := if Rltb (t1 + t12) midpt then t1 + t12 else midpt in
  let t4 := midpt + width / 2 in
  let t3 := if Rltb midpt (t4 - t34) then t4 - t34 else midpt in
  mkContacts t1 t2 t3 t4 (signed_root depth).

(** One turn of the loop of lines 118-136: the value left in [y[i]]. *)
Definition eclipse_sample (c : contacts) (depth t12 t34 ti : R) : npfloat :=
  if Rleb (c_t2 c) ti && Rleb ti (c_t3 c) then Fin (1 - depth)
  else if negb (Reqb (c_p c) 0) then
    if Rleb (c_t1 c) ti && Rleb ti (c_t2 c) then
      q <~ np_div (-2 * c_p c * (ti - c_t1 c)) t12 ;;
      overlap_flux depth (c_p c) (q + 1 + c_p c)
    else if Rltb (c_t3 c) ti && Rltb ti (c_t4 c) then
      q <~ np_div (2 * c_p c * (ti - c_t3 c)) t34 ;;
      overlap_flux depth (c_p c) (q + 1 - c_p c)
    else Fin 1
  else Fin 1.

Definition eclipse (t : list R) (eclparams : list R) : result (list npfloat) :=
  midpt <- getitem eclparams 0 ;;
  width <- getitem eclparams 1 ;;
  depth <- getitem eclparams 2 ;;
  t12 <- getitem eclparams 3 ;;
  t34 <- getitem eclparams 4 ;;
  flux <- getitem eclparams 5 ;;
  if Reqb depth 0 then Ok (repeat (Fin 1) (length t))
  else
    let c := eclipse_contacts midpt width depth t12 t34 in
    Ok (map (eclipse_sample c depth t12 t34) t).

(** ** [zen] (zen_funcs.py, lines 142-187) *)

(** A NumPy operand: a scalar or a one-dimensional array. *)
Inductive npvalue : Type :=
| Scalar (v : npfloat)
| Array (l : list npfloat).

Fixpoint map2 {A B C : Type} (f : A -> B -> C) (l1 : list A) (l2 : list B)
  : list C :=
  match l1, l2 with
  | a :: r1, b :: r2 => f a b :: map2 f r1 r2
  | _, _ => []
  end.

(** An elementwise binary operation with NumPy's broadcasting: equal
    lengths pair up, a scalar or a one-element array is repeated, any
    other pair of shapes is a [ValueError]. *)
Definition broadcast2 (f : npfloat -> npfloat -> npfloat) (a b : npvalue)
  : result npvalue :=
  match a, b with
  | Scalar u, Scalar v => Ok (Scalar (f u v))
  | Scalar u, Array l => Ok (Array (map (f u) l))
  | Array l, Scalar v => Ok (Array (map (fun u => f u v) l))
  | Array l1, Array l2 =>
      if (length l1 =? length l2)%nat then Ok (Array (map2 f l1 l2))
      else
        match l1, l2 with
        | [u], _ => Ok (Array (map (f u) l2))
        | _, [v] => Ok (Array (map (fun u => f u v) l1))
        | _, _ => Raise ValueError
        end
  end.

(** [a += b]: as [a + b], but an array [a] keeps its shape. *)
Definition iadd (a b : npvalue) : result npvalue :=
  match a, b with
  | Array l1, Array l2 =>
      if (length l1 =? length l2)%nat then Ok (Array (map2 (flift2 Rplus) l1 l2))
      else
        match l2 with
        | [v] => Ok (Array (map (fun u => flift2 Rplus u v) l1))
        | _ => Raise ValueError
        end
  | _, _ => broadcast2 (flift2 Rplus) a b
  end.

Definition np_add : npvalue -> npvalue -> result npvalue := broadcast2 (flift2 Rplus).
Definition np_sub : npvalue -> npvalue -> result npvalue := broadcast2 (flift2 Rminus).
Definition np_mul : npvalue -> npvalue -> result npvalue := broadcast2 (flift2 Rmult).

Definition scalar (r : R) : npvalue := Scalar (Fin r).
Definition array (l : list R) : npvalue := Array (map Fin l).

(** A two-dimensional array of finite floats, [nrows] by [ncols]. *)
Record matrix : Type := mkMatrix {
  ncols : nat;
  rows : list (list R)
}.

Definition matrix_wf (m : matrix) : Prop :=
  Forall (fun r => length r = ncols m) (rows m).

(** [m[:, i]] *)
Definition column (m : matrix) (i : nat) : result (list R) :=
  if (i <? ncols m)%nat then Ok (map (fun r => nth i r 0) (rows m))
  else Raise IndexError.

(** Lines 179-180: [for i in range(npix): PLD += par[i]*phat[:,i]],
    from turn [i] on, [n] turns left. *)
Fixpoint pld_loop (par : list R) (phat : matrix) (i n : nat) (PLD : npvalue)
  : result npvalue :=
  match n with
  | O => Ok PLD
  | S n' =>
      w <- getitem par i ;;
      col <- column phat i ;;
      term <- np_mul (scalar w) (array col) ;;
      PLD' <- iadd PLD term ;;
      pld_loop par phat (S i) n' PLD'
  end.

Definition zen (par x : list R) (phat : matrix) (npix : nat) : result npvalue :=
  let eclparams := slice_to_neg par npix 3 in
  eclmodel <- eclipse x eclparams ;;
  PLD <- pld_loop par phat 0 npix (scalar 0) ;;
  fluxnorm <- getitem_neg eclparams 1 ;;
  e1 <- np_sub (Array eclmodel) (scalar 1) ;;
  ecl <- np_mul (scalar fluxnorm) e1 ;;
  s1 <- np_add PLD ecl ;;
  a0 <- getitem_neg par 3 ;;
  a1 <- getitem_neg par 2 ;;
  r1 <- np_mul (scalar a1) (array x) ;;
  r01 <- np_add (scalar a0) r1 ;;
  a2 <- getitem_neg par 1 ;;
  r2 <- np_mul (scalar a2) (array (map (fun v => v ^ 2) x)) ;;
  ramp <- np_add r01 r2 ;;
  np_add s1 ramp.

(** The sum that the loop of lines 179-180 has built after [i] turns,
    at one row of [phat]. *)
Fixpoint pld_partial (par row : list R) (i : nat) : R :=
  match i with
  | O => 0
  | S i' => pld_partial par row i' + nth i' par 0 * nth i' row 0
  end.

(** [PLD] after [i] turns: still the integer 0 before the first. *)
Definition pld_after (par : list R) (phat : matrix) (i : nat) : npvalue :=
  match i with
  | O => scalar 0
  | S _ => Array (map (fun row => Fin (pld_partial par row i)) (rows phat))
  end.

(** The contract of the composite model in the words of the
    specification: the value predicted at one sample, from the row of
    [phat] at that sample, the phase [xi] and the eclipse model [e]
    there. *)
Fixpoint pixel_sum (weights row : list R) : R :=
  match weights, row with
  | w :: ws, v :: vs => w * v + pixel_sum ws vs
  | _, _ => 0
  end.

Fixpoint map3 {A B C D : Type} (f : A -> B -> C -> D)
  (l1 : list A) (l2 : list B) (l3 : list C) : list D :=
  match l1, l2, l3 with
  | a :: r1, b :: r2, c :: r3 => f a b c :: map3 f r1 r2 r3
  | _, _, _ => []
  end.

Definition composite_sample (par : list R) (npix : nat)
  (row : list R) (xi : R) (e : npfloat) : npfloat :=
  f <~ e ;;
  Fin (pixel_sum (firstn npix par) row
       + nth (npix + 5) par 0 * (f - 1)
       + (nth (npix + 6) par 0 + nth (npix + 7) par 0 * xi
          + nth (npix + 8) par 0 * xi ^ 2)).

(** ** Loops and arrays written by index *)

(** [l[i] = v] for [0 <= i]. *)
Definition setitem {A : Type} (l : list A) (i : nat) (v : A) : result (list A) :=
  if (i <? length l)%nat then Ok (firstn i l ++ v :: skipn (S i) l)
  else Raise IndexError.

(** [for i in idx: st = body(i, st)]; an exception leaves the loop. *)
Fixpoint for_each {S : Type} (body : nat -> S -> result S) (idx : list nat)
  (st : S) : result S :=
  match idx with
  | [] => Ok st
  | i :: rest => st' <- body i st ;; for_each body rest st'
  end.

(** ** [bindata] (zen_funcs.py, lines 189-220) *)

(** The builtins [min] and [max] over a sequence. *)
Definition py_min (x : list R) : result R :=
  match x with
  | [] => Raise ValueError
  | a :: r => Ok (fold_left (fun m v => if Rltb v m then v else m) r a)
  end.

Definition py_max (x : list R) : result R :=
  match x with
  | [] => Raise ValueError
  | a :: r => Ok (fold_left (fun m v => if Rltb m v then v else m) r a)
  end.

(** [np.arange(start, stop, step)]: [ceil((stop - start) / step)]
    values [start + k * step]; a zero step is refused. *)
Definition np_arange (start stop step : R) : result (list R) :=
  if Reqb step 0 then Raise ZeroDivisionError
  else
    let n := Z.to_nat (Zceil ((stop - start) / step)) in
    Ok (map (fun k => start + INR k * step) (seq 0 n)).

(** [np.digitize(x, bins)] for the increasing [bins] that [np.arange]
    gives: the index [i] with [bins[i-1] <= v < bins[i]], 0 below the
    first edge and [len(bins)] from the last edge on. *)
Fixpoint searchsorted_right (bins : list R) (v : R) : nat :=
  match bins with
  | [] => O
  | e :: rest => if Rleb e v then S (searchsorted_right rest v) else O
  end.

Definition np_digitize (x bins : list R) : list nat :=
  map (searchsorted_right bins) x.

(** The entries of [v] at the places where [digitized] is [i]. *)
Definition members {A : Type} (digitized : list nat) (i : nat) (v : list A)
  : list A :=
  map snd (filter (fun dv => (fst dv =? i)%nat) (combine digitized v)).

(** [v[digitized == i]]: the mask has to be as long as [v]. *)
Definition select {A : Type} (digitized : list nat) (i : nat) (v : list A)
  : result (list A) :=
  if (length v =? length digitized)%nat then Ok (members digitized i v)
  else Raise IndexError.

(** [v[binmask]] *)
Definition compress {A : Type} (mask : list bool) (v : list A) : list A :=
  map snd (filter fst (combine mask v)).

Definition Rsum (l : list R) : R := fold_right Rplus 0 l.

(** [a.mean()]: NaN for an empty slice. *)
Definition np_mean (a : list R) : npfloat :=
  np_div (Rsum a) (INR (length a)).

(** Line 212: [np.sqrt(np.sum(e**2)) / len(e)]. *)
Definition err_of_mean (e : list R) : npfloat :=
  s <~ np_sqrt (Rsum (map (fun v => v ^ 2) e)) ;;
  np_div s (INR (length e)).

Record binstate : Type := mkBinstate {
  bin_means_x : list npfloat;
  bin_means_y : list npfloat;
  bin_means_yerr : option (list npfloat);
  binmask : list bool
}.

(** One turn of the loop of lines 203-212, for bin [i] (from 1). *)
Definition bin_body (digitized : list nat) (x y : list R)
  (yerr : option (list R)) (i : nat) (st : binstate) : result binstate :=
  ysel <- select digitized i y ;;
  my <- setitem (bin_means_y st) (i - 1) (np_mean ysel) ;;
  mask1 <- (if (length ysel =? 0)%nat then setitem (binmask st) (i - 1) false
            else Ok (binmask st)) ;;
  xsel <- select digitized i x ;;
  mx <- setitem (bin_means_x st) (i - 1) (np_mean xsel) ;;
  mask2 <- (if (length xsel =? 0)%nat then setitem mask1 (i - 1) false
            else Ok mask1) ;;
  merr <- match yerr, bin_means_yerr st with
          | Some e, Some me =>
              esel <- select digitized i e ;;
              me' <- setitem me (i - 1) (err_of_mean esel) ;;
              Ok (Some me')
          | _, other => Ok other
          end ;;
  Ok (mkBinstate mx my merr mask2).

Definition bindata (x y : list R) (width : R) (yerr : option (list R))
  : result (list npfloat * list npfloat * option (list npfloat)) :=
  lo <- py_min x ;;
  hi <- py_max x ;;
  bins <- np_arange lo hi width ;;
  let n := length bins in
  let digitized := np_digitize x bins in
  let zeros := repeat (Fin 0) n in
  let st0 := mkBinstate zeros zeros
               (match yerr with Some _ => Some zeros | None => None end)
               (repeat true n) in
  st <- for_each (bin_body digitized x y yerr) (seq 1 n) st0 ;;
  Ok (compress (binmask st) (bin_means_x st),
      compress (binmask st) (bin_means_y st),
      match bin_means_yerr st with
      | Some me => Some (compress (binmask st) me)
      | None => None
      end).

(** How the samples fall into the bins: the edges and the bin index of
    every sample, as lines 191 and 195 compute them, and the number of
    samples that [digitized == i] selects for each bin of the loop. *)
Definition bin_assignment (x : list R) (width : R) : result (list R * list nat) :=
  lo <- py_min x ;;
  hi <- py_max x ;;
  bins <- np_arange lo hi width ;;
  Ok (bins, np_digitize x bins).

Definition bin_count (digitized : list nat) (i : nat) : nat :=
  length (filter (fun d => (d =? i)%nat) digitized).

Definition bin_counts (nbins : nat) (digitized : list nat) : list nat :=
  map (bin_count digitized) (seq 1 nbins).

(** The bins that keep their place in the output, in order: those with
    at least one sample. *)
Definition occupied_bins (nbins : nat) (digitized : list nat) : list nat :=
  filter (fun i => negb (bin_count digitized i =? 0)%nat) (seq 1 nbins).

(** The mean and the propagated error of a non-empty bin. *)
Definition Rmean (a : list R) : R := Rsum a / INR (length a).

Definition Rerr (e : list R) : R :=
  sqrt (Rsum (map (fun v => v ^ 2) e)) / INR (length e).

(** What the loop of [bindata] writes for bin [i], and whether the bin
    keeps its place in the output. *)
Definition bin_x (digitized : list nat) (x : list R) (i : nat) : npfloat :=
  np_mean (members digitized i x).

Definition bin_y (digitized : list nat) (y : list R) (i : nat) : npfloat :=
  np_mean (members digitized i y).

Definition bin_err (digitized : list nat) (e : list R) (i : nat) : npfloat :=
  err_of_mean (members digitized i e).

Definition bin_kept (digitized : list nat) (i : nat) : bool :=
  negb (bin_count digitized i =? 0)%nat.

(** The arrays of [bindata] after the turns for bins 1 to [k], with [m]
    bins to go. *)
Definition bins_after (digitized : list nat) (x y : list R)
  (yerr : option (list R)) (k m : nat) : binstate :=
  mkBinstate
    (map (bin_x digitized x) (seq 1 k) ++ repeat (Fin 0) m)
    (map (bin_y digitized y) (seq 1 k) ++ repeat (Fin 0) m)
    (match yerr with
     | Some e => Some (map (bin_err digitized e) (seq 1 k) ++ repeat (Fin 0) m)
     | None => None
     end)
    (map (bin_kept digitized) (seq 1 k) ++ repeat true m).

(** ** [get_params] (zen_funcs.py, lines 283-304) *)

(** [int(r)]: towards zero. *)
Definition py_int (r : R) : Z := if Rleb 0 r then Zfloor r else Zceil r.

(** Lines 292-297, one turn; the state is [j] and [allParams]. *)
Definition first_pass_body (bestP stepsize params : list R) (i : nat)
  (st : nat * list R) : result (nat * list R) :=
  let '(j, allParams) := st in
  s <- getitem stepsize i ;;
  if Rltb 0 s then
    v <- getitem bestP j ;;
    a <- setitem allParams i v ;;
    Ok (S j, a)
  else
    v <- getitem params i ;;
    a <- setitem allParams i v ;;
    Ok (j, a).

(** Lines 300-302, one turn. *)
Definition second_pass_body (stepsize : list R) (i : nat) (allParams : list R)
  : result (list R) :=
  s <- getitem stepsize i ;;
  if Rltb s 0 then
    v <- getitem_Z allParams (py_int (- s - 1)) ;;
    setitem allParams i v
  else Ok allParams.

Definition get_params (bestP stepsize params : list R) : result (list R) :=
  let n := length stepsize in
  st <- for_each (first_pass_body bestP stepsize params) (seq 0 n)
          (O, repeat 0 n) ;;
  for_each (second_pass_body stepsize) (seq 0 n) (snd st).

(** The number of free parameters and the place of a free parameter in
    the reduced vector. *)
Definition count_free (stepsize : list R) : nat :=
  length (filter (fun s => Rltb 0 s) stepsize).

Definition free_rank (stepsize : list R) (i : nat) : nat :=
  count_free (firstn i stepsize).

(** What the first loop leaves at index [i]. *)
Definition first_value (bestP stepsize params : list R) (i : nat) : R :=
  if Rltb 0 (nth i stepsize 0)
  then nth (free_rank stepsize i) bestP 0
  else nth i params 0.

(** Every negative step size names, as [-s - 1], an index of the vector
    whose own step size is not negative: a tie to a free or fixed
    parameter, one level deep. *)
Definition ties_resolved (stepsize : list R) : Prop :=
  forall i, (i < length stepsize)%nat -> nth i stepsize 0 < 0 ->
    exists j, (j < length stepsize)%nat /\ - nth i stepsize 0 - 1 = INR j
              /\ 0 <= nth j stepsize 0.

(** ** The bin-width sweep (zen.py, lines 136-189) *)

(** [a < b] on floats: false as soon as one side is not a finite
    number. *)
Definition flt (a b : npfloat) : bool :=
  match a, b with
  | Fin u, Fin v => Rltb u v
  | _, _ => false
  end.

Record sweep_state : Type := mkSweep {
  chibest : npfloat;
  binbest : option R;
  chisqarray : list npfloat
}.

Section Sweep.

(** What one turn of the loop works with, and the three stages of a
    turn.  [bin_at] is lines 147-171: the calls of [bindata] for every
    pixel and for the photometry, the normalisation and the assembly
    of [xphat].  [curve_fit] is the call of scipy's solver at line 174,
    which raises [RuntimeError] when it finds no fit.  [redchisq_of] is
    lines 176-181: the model at the fitted parameters and its reduced
    chi-squared. *)
Variable binned : Type.
Variable bin_at : R -> result binned.
Variable curve_fit : binned -> result (list R).
Variable redchisq_of : binned -> list R -> result npfloat.

(** Lines 143-189, one turn.  The call of [curve_fit] stands in the
    body as it is: no [try] surrounds it. *)
Definition sweep_body (bintry : list R) (i : nat) (st : sweep_state)
  : result sweep_state :=
  w <- getitem bintry i ;;
  b <- bin_at w ;;
  ret <- curve_fit b ;;
  redchisq <- redchisq_of b ret ;;
  arr <- setitem (chisqarray st) i redchisq ;;
  if flt redchisq (chibest st)
  then Ok (mkSweep redchisq (Some w) arr)
  else Ok (mkSweep (chibest st) (binbest st) arr).

Definition sweep (bintry : list R) : result sweep_state :=
  let n := length bintry in
  for_each (sweep_body bintry) (seq 0 n)
    (mkSweep (Fin 1e300) None (repeat (Fin 0) n)).

(** One candidate on its own: binning, fit and chi-squared. *)
Definition candidate (w : R) : result npfloat :=
  b <- bin_at w ;;
  ret <- curve_fit b ;;
  redchisq_of b ret.

End Sweep.

Arguments sweep_body {binned}.
Arguments sweep {binned}.
Arguments candidate {binned}.

(** A solver that finds no fit for the width 8 and a fit for every
    other width, over data that is just the width. *)
Definition fit_fails_at_8 (w : R) : result (list R) :=
  if Reqb w 8 then Raise RuntimeError else Ok [].

Definition redchisq_one (w : R) (ret : list R) : result npfloat := Ok (Fin 1).

(** ** The reduced vector of [get_params] *)

(** The entries of a full vector at the free places, in order: the
    reduced vector that the sampler works on. *)
Definition free_entries (stepsize params : list R) : list R :=
  map snd (filter (fun sp => Rltb 0 (fst sp)) (combine stepsize params)).

(** The index that line 302 reads for a negative step size. *)
Definition tie_index (s : R) : Z := py_int (- s - 1).

(** Every negative step size names an index inside the vector; the
    entry there may be tied itself. *)
Definition ties_in_range (stepsize : list R) : Prop :=
  forall i, (i < length stepsize)%nat -> nth i stepsize 0 < 0 ->
    Z.lt (tie_index (nth i stepsize 0)) (Z.of_nat (length stepsize)).

(** The index that the tie at index [k] names. *)
Definition tie_target (stepsize : list R) (k : nat) : nat :=
  Z.to_nat (tie_index (nth k stepsize 0)).

(** What [zen] computes at one sample, with the entries of [par]
    counted the way the code counts them: the weights from the front,
    the flux norm and the ramp from the end. *)
Definition zen_sample (par : list R) (npix : nat)
  (row : list R) (xi : R) (e : npfloat) : npfloat :=
  f <~ e ;;
  Fin (pixel_sum (firstn npix par) row
       + nth (length par - 4) par 0 * (f - 1)
       + (nth (length par - 3) par 0 + nth (length par - 2) par 0 * xi
          + nth (length par - 1) par 0 * xi ^ 2)).

(** The model without the eclipse term. *)
Definition pld_and_ramp (par : list R) (npix : nat) (row : list R) (xi : R)
  : npfloat :=
  Fin (pixel_sum (firstn npix par) row
       + (nth (npix + 6) par 0 + nth (npix + 7) par 0 * xi
          + nth (npix + 8) par 0 * xi ^ 2)).

(** ** [zen_optimize] (zen_funcs.py, lines 307-313) and the array it
    is given (zen.py, lines 167-171) *)

(** [m[:, :-1]] *)
Definition drop_last_column (m : matrix) : matrix :=
  mkMatrix (ncols m - 1) (map (fun r => firstn (ncols m - 1) r) (rows m)).

(** [m[:, -1]] *)
Definition last_column (m : matrix) : result (list R) :=
  if (1 <=? ncols m)%nat
  then Ok (map (fun r => nth (ncols m - 1) r 0) (rows m))
  else Raise IndexError.

Definition zen_optimize (xphat : matrix) (arg : list R) : result npvalue :=
  let par := arg in
  let phat := drop_last_column xphat in
  x <- last_column xphat ;;
  let npix := ncols phat in
  zen par x phat npix.

(** Lines 167-171 of zen.py: an array of zeros one column wider than
    [binphat], filled with [binphat] and, in the last column, with
    [binphase]; a [binphase] of one entry is repeated down the column. *)
Definition make_xphat (binphat : matrix) (binphase : list R) : result matrix :=
  if (length binphase =? length (rows binphat))%nat
  then Ok (mkMatrix (ncols binphat + 1)
             (map2 (fun r v => r ++ [v]) (rows binphat) binphase))
  else
    match binphase with
    | [v] => Ok (mkMatrix (ncols binphat + 1)
                   (map (fun r => r ++ [v]) (rows binphat)))
    | _ => Raise ValueError
    end.

(** ** [zen_init] (zen_funcs.py, lines 5-70) *)

(** The stack of images: its shape and its entries, [a_at j y x c]
    being [data[j, y, x, c]] for indices inside the shape. *)
Record array4 : Type := mkArray4 {
  a_nframes : nat;
  a_ny : nat;
  a_nx : nat;
  a_nsets : nat;
  a_at : nat -> nat -> nat -> nat -> R
}.

(** An index [k] along an axis of length [n]: from [-n] to [-1] it
    counts from the end, outside [-n .. n-1] it is an [IndexError]. *)
Definition index_axis (n : nat) (k : Z) : result nat :=
  if ((0 <=? k) && (k <? Z.of_nat n))%Z then Ok (Z.to_nat k)
  else if ((- Z.of_nat n <=? k) && (k <? 0))%Z
       then Ok (Z.to_nat (Z.of_nat n + k))
       else Raise IndexError.

(** [data[j, py, px, 0]] for a frame [j] inside the stack. *)
Definition data_item (data : array4) (j : nat) (py px : Z) : result R :=
  iy <- index_axis (a_ny data) py ;;
  ix <- index_axis (a_nx data) px ;;
  ic <- index_axis (a_nsets data) 0 ;;
  Ok (a_at data j iy ix ic).

(** [p[j, i] = v] *)
Definition setitem2 (p : list (list R)) (j i : nat) (v : R)
  : result (list (list R)) :=
  row <- getitem p j ;;
  row' <- setitem row i v ;;
  setitem p j row'.

(** Line 55, one turn of the inner loop. *)
Definition read_pixel (data : array4) (pixels : list (list Z)) (i j : nat)
  (p : list (list R)) : result (list (list R)) :=
  pix <- getitem pixels i ;;
  py <- getitem pix 0 ;;
  pix' <- getitem pixels i ;;
  px <- getitem pix' 1 ;;
  v <- data_item data j py px ;;
  setitem2 p j i v.

(** Line 62, one turn. *)
Definition normalize_frame (p : list (list R)) (t : nat)
  (phat : list (list npfloat)) : result (list (list npfloat)) :=
  row <- getitem p t ;;
  setitem phat t (map (fun v => np_div v (Rsum row)) row).

(** The sum and the mean of floats that may not be finite. *)
Definition fsum (l : list npfloat) : npfloat :=
  fold_left (flift2 Rplus) l (Fin 0).

Definition fmean (l : list npfloat) : npfloat :=
  s <~ fsum l ;; np_div s (INR (length l)).

(** [np.mean(phat, axis=0)] for [npix] columns. *)
Definition column_means (npix : nat) (phat : list (list npfloat))
  : list npfloat :=
  map (fun i => fmean (map (fun row => nth i row (Fin 0)) phat)) (seq 0 npix).

Definition zen_init (data : array4) (pixels : list (list Z))
  : result (list (list npfloat) * list (list npfloat)) :=
  let nframes := a_nframes data in
  let npix := length pixels in
  p <- for_each
         (fun i p => for_each (read_pixel data pixels i) (seq 0 nframes) p)
         (seq 0 npix) (repeat (repeat 0 npix) nframes) ;;
  phat <- for_each (normalize_frame p) (seq 0 nframes)
            (repeat (repeat (Fin 0) npix) nframes) ;;
  let pbar := column_means npix phat in
  let dP := map (fun row => map2 (flift2 Rminus) row pbar) phat in
  Ok (phat, dP).

(** The flux that [zen_init] reads for pixel [pix] in frame [j], and
    the row of a frame, for pixels inside the image. *)
Definition pixel_value (data : array4) (j : nat) (pix : list Z) : R :=
  match pix with
  | py :: px :: _ =>
      match data_item data j py px with
      | Ok v => v
      | Raise _ => 0
      end
  | _ => 0
  end.

Definition frame_flux (data : array4) (pixels : list (list Z)) (j : nat)
  : list R :=
  map (pixel_value data j) pixels.

(** A pixel has two coordinates, both inside the image. *)
Definition pixel_inside (data : array4) (pix : list Z) : Prop :=
  exists py px rest iy ix,
    pix = py :: px :: rest
    /\ index_axis (a_ny data) py = Ok iy
    /\ index_axis (a_nx data) px = Ok ix.

(** The stack with frame [j] brighter by the factor [c j]. *)
Definition scale_frames (c : nat -> R) (data : array4) : array4 :=
  mkArray4 (a_nframes data) (a_ny data) (a_nx data) (a_nsets data)
    (fun j y x s => c j * a_at data j y x s).

(** Whether line 55 can read the pixel: two coordinates, both inside
    the image, in a stack that has a channel 0. *)
Definition pixel_readable (data : array4) (pix : list Z) : bool :=
  match pix with
  | py :: px :: _ =>
      match data_item data 0 py px with
      | Ok _ => true
      | Raise _ => false
      end
  | _ => false
  end.

(** [p[t] / np.sum(p[t])] *)
Definition normalized (row : list R) : list npfloat :=
  map (fun v => np_div v (Rsum row)) row.

(** What [zen_init] returns when every pixel can be read. *)
Definition zen_init_phat (data : array4) (pixels : list (list Z))
  : list (list npfloat) :=
  map (fun j => normalized (frame_flux data pixels j)) (seq 0 (a_nframes data)).

Definition zen_init_dP (data : array4) (pixels : list (list Z))
  : list (list npfloat) :=
  map (fun row =>
         map2 (flift2 Rminus) row
           (column_means (length pixels) (zen_init_phat data pixels)))
    (zen_init_phat data pixels).

(** An array of [n] rows and [m] columns given by its entries, and the
    entries after [p[j, i] = v]. *)
Definition table {A : Type} (f : nat -> nat -> A) (n m : nat) : list (list A) :=
  map (fun j => map (f j) (seq 0 m)) (seq 0 n).

Definition upd {A : Type} (f : nat -> nat -> A) (j i : nat) (v : A)
  : nat -> nat -> A :=
  fun j' i' => if (j' =? j)%nat && (i' =? i)%nat then v else f j' i'.

Definition upd1 {A : Type} (g : nat -> A) (t : nat) (v : A) : nat -> A :=
  fun t' => if (t' =? t)%nat then v else g t'.

(** ** What the sweep keeps (zen.py, lines 186-189) *)

(** The test of line 187 on the pair of [chibest] and [binbest], for a
    candidate [w] whose reduced chi-squared is [f w]. *)
Definition keep_better (f : R -> npfloat) (s : npfloat * option R) (w : R)
  : npfloat * option R :=
  if flt (f w) (fst s) then (f w, Some w) else s.

Definition select_best (f : R -> npfloat) (bintry : list R)
  : npfloat * option R :=
  fold_left (keep_better f) bintry (Fin 1e300, None).

(** [c] and [b] are the smallest finite value among the candidates
    [done] and the first candidate that has it, or [1e300] and nothing
    when no candidate is below [1e300]. *)
Definition selected (f : R -> npfloat) (done : list R) (c : R) (b : option R)
  : Prop :=
  c <= 1e300
  /\ (forall w r, In w done -> f w = Fin r -> c <= r)
  /\ match b with
     | None => c = 1e300
     | Some wb =>
         f wb = Fin c /\ c < 1e300
         /\ exists before after,
              done = before ++ wb :: after
              /\ forall w r, In w before -> f w = Fin r -> c < r
     end.

(** ** Reflection of the comparisons *)

Lemma Rleb_true (x y : R) : Rleb x y = true <-> x <= y.
Proof. unfold Rleb; destruct (Rle_dec x y); split; intros; try easy; lra. Qed.

Lemma Rleb_false (x y : R) : Rleb x y = false <-> y < x.
Proof. unfold Rleb; destruct (Rle_dec x y); split; intros; try easy; lra. Qed.

Lemma Rltb_true (x y : R) : Rltb x y = true <-> x < y.
Proof. unfold Rltb; destruct (Rlt_dec x y); split; intros; try easy; lra. Qed.

Lemma Rltb_false (x y : R) : Rltb x y = false <-> y <= x.
Proof. unfold Rltb; destruct (Rlt_dec x y); split; intros; try easy; lra. Qed.

Lemma Reqb_true (x y : R) : Reqb x y = true <-> x = y.
Proof. unfold Reqb; destruct (Req_dec_T x y); split; intros; easy. Qed.

Lemma Reqb_false (x y : R) : Reqb x y = false <-> x <> y.
Proof. unfold Reqb; destruct (Req_dec_T x y); split; intros; easy. Qed.

(** Decide one comparison from the hypotheses, by linear arithmetic. *)
Ltac rtest :=
  match goal with
  | |- context [Rleb ?a ?b] =>
      first [ replace (Rleb a b) with true by (symmetry; apply Rleb_true; lra)
            | replace (Rleb a b) with false by (symmetry; apply Rleb_false; lra) ]
  | |- context [Rltb ?a ?b] =>
      first [ replace (Rltb a b) with true by (symmetry; apply Rltb_true; lra)
            | replace (Rltb a b) with false by (symmetry; apply Rltb_false; lra) ]
  | |- context [Reqb ?a ?b] =>
      first [ replace (Reqb a b) with true by (symmetry; apply Reqb_true; lra)
            | replace (Reqb a b) with false by (symmetry; apply Reqb_false; lra) ]
  end.

Ltac rtests :=
  repeat (rtest; cbn [andb orb negb]; rewrite ?andb_false_r, ?andb_true_r).

(** ** Zero depth *)

(** C5. With the depth entry equal to 0, [eclipse] returns ones, as many
    as there are times, whatever the other five entries are; no division
    by the depth is reached. *)
Theorem eclipse_zero_depth (t : list R) (midpt width t12 t34 flux : R) :
  eclipse t [midpt; width; 0; t12; t34; flux] = Ok (repeat (Fin 1) (length t)).
Proof.
  unfold eclipse; cbn [getitem nth_error bind].
  now rtests.
Qed.

(** ** Arrays and loops *)

Lemma getitem_nth {A : Type} (l : list A) (i : nat) (d : A) :
  (i < length l)%nat -> getitem l i = Ok (nth i l d).
Proof.
  intros H. unfold getitem.
  now rewrite (nth_error_nth' l d H).
Qed.

Lemma getitem_cases {A : Type} (l : list A) (i : nat) :
  (exists a, getitem l i = Ok a) \/ getitem l i = Raise IndexError.
Proof.
  unfold getitem. destruct (nth_error l i); eauto.
Qed.

Lemma setitem_cases {A : Type} (l : list A) (i : nat) (v : A) :
  (exists l', setitem l i v = Ok l') \/ setitem l i v = Raise IndexError.
Proof.
  unfold setitem. destruct (i <? length l)%nat; eauto.
Qed.

Lemma setitem_ok {A : Type} (l : list A) (i : nat) (v : A) :
  (i < length l)%nat ->
  setitem l i v = Ok (firstn i l ++ v :: skipn (S i) l).
Proof.
  intros H. unfold setitem.
  now apply Nat.ltb_lt in H as ->.
Qed.

Lemma upd_length {A : Type} (l : list A) (i : nat) (v : A) :
  (i < length l)%nat -> length (firstn i l ++ v :: skipn (S i) l) = length l.
Proof.
  intros H. rewrite length_app, length_firstn. cbn [length].
  rewrite length_skipn. lia.
Qed.

Lemma upd_nth_same {A : Type} (l : list A) (i : nat) (v d : A) :
  (i < length l)%nat -> nth i (firstn i l ++ v :: skipn (S i) l) d = v.
Proof.
  intros H. rewrite app_nth2; rewrite length_firstn.
  - replace (i - Nat.min i (length l))%nat with O by lia. reflexivity.
  - lia.
Qed.

Lemma upd_nth_other {A : Type} (l : list A) (i k : nat) (v d : A) :
  (i < length l)%nat -> k <> i ->
  nth k (firstn i l ++ v :: skipn (S i) l) d = nth k l d.
Proof.
  intros H Hk.
  destruct (Nat.lt_ge_cases k i) as [Hlt | Hge].
  - rewrite app_nth1 by (rewrite length_firstn; lia).
    now rewrite nth_firstn, (proj2 (Nat.ltb_lt k i) Hlt).
  - rewrite app_nth2 by (rewrite length_firstn; lia).
    rewrite length_firstn.
    replace (k - Nat.min i (length l))%nat with (S (k - S i)) by lia.
    cbn [nth]. rewrite nth_skipn. f_equal. lia.
Qed.

Lemma skipn_nth_cons {A : Type} (l : list A) (i : nat) (d : A) :
  (i < length l)%nat -> skipn i l = nth i l d :: skipn (S i) l.
Proof.
  revert i; induction l as [| a l IH]; intros i H; cbn [length] in H.
  - lia.
  - destruct i as [| i]; [reflexivity |].
    cbn [skipn nth]. apply IH. lia.
Qed.

(** A loop over [start, start + n) that keeps an invariant returns, and
    the invariant holds at the end. *)
Lemma for_each_invariant {S : Type} (body : nat -> S -> result S)
  (P : nat -> S -> Prop) (n : nat) :
  forall (start : nat) (st : S),
    P start st ->
    (forall i s, (start <= i < start + n)%nat -> P i s ->
                 exists s', body i s = Ok s' /\ P (Datatypes.S i) s') ->
    exists st', for_each body (seq start n) st = Ok st' /\ P (start + n)%nat st'.
Proof.
  induction n as [| n IH]; intros start st H0 Hstep.
  - exists st. rewrite Nat.add_0_r. now split.
  - cbn [seq for_each].
    destruct (Hstep start st ltac:(lia) H0) as (s1 & E1 & P1).
    rewrite E1. cbn [bind].
    destruct (IH (Datatypes.S start) s1 P1) as (st' & E & P').
    + intros i s Hi. apply Hstep. lia.
    + exists st'. split; [exact E |].
      now replace (start + Datatypes.S n)%nat with (Datatypes.S start + n)%nat by lia.
Qed.

(** ** [get_params] *)

Lemma count_free_app (l1 l2 : list R) :
  count_free (l1 ++ l2) = (count_free l1 + count_free l2)%nat.
Proof. unfold count_free. now rewrite filter_app, length_app. Qed.

Lemma firstn_succ_nth {A : Type} (l : list A) (i : nat) (d : A) :
  (i < length l)%nat -> firstn (S i) l = firstn i l ++ [nth i l d].
Proof.
  revert i; induction l as [| a l IH]; intros i H; cbn [length] in H.
  - lia.
  - destruct i as [| i]; [reflexivity |].
    cbn [firstn nth app]. f_equal. apply IH. lia.
Qed.

Lemma free_rank_succ (stepsize : list R) (i : nat) :
  (i < length stepsize)%nat ->
  free_rank stepsize (S i) =
  Nat.add (free_rank stepsize i)
    (if Rltb 0 (nth i stepsize 0) then 1%nat else 0%nat).
Proof.
  intros H. unfold free_rank.
  rewrite (firstn_succ_nth stepsize i 0 H), count_free_app.
  f_equal. unfold count_free. cbn [filter].
  now destruct (Rltb 0 (nth i stepsize 0)).
Qed.

Lemma free_rank_all (stepsize : list R) :
  free_rank stepsize (length stepsize) = count_free stepsize.
Proof. unfold free_rank. now rewrite firstn_all. Qed.

Lemma free_rank_mono (stepsize : list R) (i k : nat) :
  (i <= k)%nat -> (free_rank stepsize i <= free_rank stepsize k)%nat.
Proof.
  intros H. unfold free_rank.
  rewrite <- (firstn_skipn i (firstn k stepsize)), count_free_app.
  rewrite firstn_firstn. replace (Nat.min i k) with i by lia. lia.
Qed.

Lemma free_rank_lt (stepsize : list R) (i : nat) :
  (i < length stepsize)%nat -> 0 < nth i stepsize 0 ->
  (free_rank stepsize i < count_free stepsize)%nat.
Proof.
  intros H Hs.
  pose proof (free_rank_succ stepsize i H) as E.
  replace (Rltb 0 (nth i stepsize 0)) with true in E
    by (symmetry; now apply Rltb_true).
  pose proof (free_rank_mono stepsize (S i) (length stepsize) ltac:(lia)) as M.
  rewrite free_rank_all in M. lia.
Qed.

Lemma first_pass_ok (bestP stepsize params : list R) :
  length bestP = count_free stepsize ->
  length params = length stepsize ->
  exists a,
    for_each (first_pass_body bestP stepsize params)
      (seq 0 (length stepsize)) (O, repeat 0 (length stepsize))
    = Ok (count_free stepsize, a)
    /\ length a = length stepsize
    /\ forall k, (k < length stepsize)%nat ->
                 nth k a 0 = first_value bestP stepsize params k.
Proof.
  intros Hb Hp.
  set (n := length stepsize).
  destruct (for_each_invariant (first_pass_body bestP stepsize params)
    (fun i st => fst st = free_rank stepsize i /\ length (snd st) = n /\
                 forall k, (k < i)%nat ->
                   nth k (snd st) 0 = first_value bestP stepsize params k)
    n O (O, repeat 0 n)) as ([j a] & E & Hj & Hlen & Hval).
  - cbn [fst snd]. rewrite repeat_length. repeat split. intros k Hk; lia.
  - intros i [j a] Hi (Hj & Hlen & Hval). cbn [fst snd] in *.
    assert (Hi' : (i < length stepsize)%nat) by (fold n; lia).
    unfold first_pass_body.
    rewrite (getitem_nth stepsize i 0 Hi'). cbn [bind].
    destruct (Rltb 0 (nth i stepsize 0)) eqn:Es.
    + assert (Hr : (j < length bestP)%nat).
      { rewrite Hb, Hj. apply free_rank_lt; [exact Hi' | now apply Rltb_true]. }
      rewrite (getitem_nth bestP j 0 Hr). cbn [bind].
      rewrite setitem_ok by lia. cbn [bind].
      eexists; split; [reflexivity |]. cbn [fst snd].
      split; [| split].
      * rewrite free_rank_succ by exact Hi'. rewrite Es. lia.
      * rewrite upd_length; lia.
      * intros k Hk. destruct (Nat.eq_dec k i) as [-> | Hne].
        -- rewrite upd_nth_same by lia. unfold first_value. now rewrite Es, Hj.
        -- rewrite upd_nth_other by lia. apply Hval. lia.
    + rewrite (getitem_nth params i 0) by lia. cbn [bind].
      rewrite setitem_ok by lia. cbn [bind].
      eexists; split; [reflexivity |]. cbn [fst snd].
      split; [| split].
      * rewrite free_rank_succ by exact Hi'. rewrite Es. lia.
      * rewrite upd_length; lia.
      * intros k Hk. destruct (Nat.eq_dec k i) as [-> | Hne].
        -- rewrite upd_nth_same by lia. unfold first_value. now rewrite Es.
        -- rewrite upd_nth_other by lia. apply Hval. lia.
  - cbn [fst snd] in *. rewrite Nat.add_0_l in *.
    exists a. subst j. unfold n in *. rewrite free_rank_all in E.
    repeat split; auto.
Qed.

Lemma py_int_INR (j : nat) : py_int (INR j) = Z.of_nat j.
Proof.
  unfold py_int.
  replace (Rleb 0 (INR j)) with true
    by (symmetry; apply Rleb_true, pos_INR).
  rewrite INR_IZR_INZ. apply ZfloorZ.
Qed.

Lemma getitem_Z_nat {A : Type} (l : list A) (j : nat) :
  getitem_Z l (Z.of_nat j) = getitem l j.
Proof.
  unfold getitem_Z.
  replace (0 <=? Z.of_nat j)%Z with true by (symmetry; apply Z.leb_le; lia).
  now rewrite Nat2Z.id.
Qed.

Lemma second_pass_ok (stepsize a1 : list R) :
  length a1 = length stepsize ->
  ties_resolved stepsize ->
  exists a,
    for_each (second_pass_body stepsize) (seq 0 (length stepsize)) a1 = Ok a
    /\ length a = length stepsize
    /\ (forall k, (k < length stepsize)%nat -> 0 <= nth k stepsize 0 ->
                  nth k a 0 = nth k a1 0)
    /\ (forall k j, (k < length stepsize)%nat -> nth k stepsize 0 < 0 ->
                    - nth k stepsize 0 - 1 = INR j -> nth k a 0 = nth j a1 0).
Proof.
  intros Hlen Hties.
  set (n := length stepsize) in *.
  destruct (for_each_invariant (second_pass_body stepsize)
    (fun i a => length a = n
       /\ (forall k, (k < n)%nat -> 0 <= nth k stepsize 0 -> nth k a 0 = nth k a1 0)
       /\ (forall k j, (k < i)%nat -> nth k stepsize 0 < 0 ->
                       - nth k stepsize 0 - 1 = INR j -> nth k a 0 = nth j a1 0)
       /\ (forall k, (i <= k < n)%nat -> nth k a 0 = nth k a1 0))
    n O a1) as (a & E & Ha & Hfix & Htie & _).
  - repeat split; auto. intros; lia.
  - intros i a Hi (Ha & Hfix & Htie & Hrest).
    unfold second_pass_body.
    rewrite (getitem_nth stepsize i 0) by (fold n; lia). cbn [bind].
    destruct (Rltb (nth i stepsize 0) 0) eqn:Es.
    + apply Rltb_true in Es.
      destruct (Hties i ltac:(fold n; lia) Es) as (j & Hj & Ej & Hsj).
      rewrite Ej, py_int_INR, getitem_Z_nat.
      rewrite (getitem_nth a j 0) by (fold n in Hj; lia). cbn [bind].
      rewrite setitem_ok by lia.
      eexists; split; [reflexivity |].
      split; [| split; [| split]].
      * rewrite upd_length; lia.
      * intros k Hk Hsk. rewrite upd_nth_other; [auto | lia |].
        intros ->. lra.
      * intros k j' Hk Hsk Ej'.
        destruct (Nat.eq_dec k i) as [-> | Hne].
        -- rewrite upd_nth_same by lia.
           assert (j' = j) as -> by (apply INR_eq; lra).
           apply Hfix; [fold n in Hj; lia | exact Hsj].
        -- rewrite upd_nth_other by lia. apply (Htie k j'); auto. lia.
      * intros k Hk. rewrite upd_nth_other by lia. apply Hrest. lia.
    + apply Rltb_false in Es.
      eexists; split; [reflexivity |].
      split; [| split; [| split]]; auto.
      * intros k j' Hk Hsk Ej'.
        destruct (Nat.eq_dec k i) as [-> | Hne]; [lra |].
        apply (Htie k j'); auto. lia.
      * intros k Hk. apply Hrest. lia.
  - exists a. split; [exact E |]. split; [exact Ha |]. split; [exact Hfix |].
    intros k j Hk. apply Htie. lia.
Qed.

(** C4. For a step-size vector with [k] positive entries, a reduced
    vector of length [k] and a prior vector as long as the step-size
    vector, [get_params] returns a vector of that length: an index with
    a positive step holds the next entry of the reduced vector, in
    order; an index with step 0 holds the prior value; an index with a
    negative step [s] holds the value at index [-s - 1], ties being to
    parameters that are not tied themselves. *)
Theorem get_params_expands (bestP stepsize params : list R) :
  length bestP = count_free stepsize ->
  length params = length stepsize ->
  ties_resolved stepsize ->
  exists allParams,
    get_params bestP stepsize params = Ok allParams
    /\ length allParams = length stepsize
    /\ forall i, (i < length stepsize)%nat ->
         (0 < nth i stepsize 0 ->
            (free_rank stepsize i < length bestP)%nat /\
            nth i allParams 0 = nth (free_rank stepsize i) bestP 0)
         /\ (nth i stepsize 0 = 0 -> nth i allParams 0 = nth i params 0)
         /\ (nth i stepsize 0 < 0 ->
               forall j, - nth i stepsize 0 - 1 = INR j ->
                         nth i allParams 0 = nth j allParams 0).
Proof.
  intros Hb Hp Hties.
  destruct (first_pass_ok bestP stepsize params Hb Hp) as (a1 & E1 & L1 & V1).
  destruct (second_pass_ok stepsize a1 L1 Hties) as (a & E2 & L2 & Hfix & Htie).
  exists a. unfold get_params. rewrite E1. cbn [bind snd].
  split; [exact E2 |]. split; [exact L2 |].
  intros i Hi. split; [| split].
  - intros Hs. split.
    + rewrite Hb. now apply free_rank_lt.
    + rewrite Hfix by (auto; lra). rewrite V1 by exact Hi.
      unfold first_value.
      now replace (Rltb 0 (nth i stepsize 0)) with true
        by (symmetry; now apply Rltb_true).
  - intros Hs. rewrite Hfix by (auto; lra). rewrite V1 by exact Hi.
    unfold first_value.
    now replace (Rltb 0 (nth i stepsize 0)) with false
      by (symmetry; apply Rltb_false; lra).
  - intros Hs j Ej.
    destruct (Hties i Hi Hs) as (j' & Hj' & Ej' & Hsj').
    assert (j = j') as -> by (apply INR_eq; lra).
    rewrite (Htie i j') by auto.
    symmetry. now apply Hfix.
Qed.

Lemma py_int_IZR (z : Z) : py_int (IZR z) = z.
Proof.
  unfold py_int. destruct (Rleb 0 (IZR z)).
  - apply ZfloorZ.
  - unfold Zceil. rewrite <- opp_IZR, ZfloorZ. lia.
Qed.

Example get_params_tied :
  get_params [5] [1; 0; -1] [7; 8; 9] = Ok [5; 8; 5].
Proof.
  unfold get_params, first_pass_body, second_pass_body.
  cbn [length seq for_each getitem nth_error bind repeat].
  rtests. cbn [getitem nth_error bind setitem length Nat.ltb Nat.leb firstn skipn app snd].
  rtests. cbn [getitem nth_error bind setitem length Nat.ltb Nat.leb firstn skipn app snd].
  rtests. cbn [getitem nth_error bind setitem length Nat.ltb Nat.leb firstn skipn app snd].
  rtests.
  replace (- -1 - 1) with (IZR 0) by lra.
  rewrite py_int_IZR. reflexivity.
Qed.

Lemma get_params_expands_witness :
  exists allParams,
    get_params [5] [1; 0; -1] [7; 8; 9] = Ok allParams
    /\ length allParams = 3%nat
    /\ nth 0 allParams 0 = 5
    /\ nth 1 allParams 0 = 8
    /\ nth 2 allParams 0 = nth 0 allParams 0.
Proof.
  destruct (get_params_expands [5] [1; 0; -1] [7; 8; 9]) as (a & E & L & H).
  - unfold count_free. cbn [filter]. rtests. reflexivity.
  - reflexivity.
  - intros i Hi Hs. cbn [length] in Hi.
    destruct i as [| [| [| i]]]; cbn [nth] in Hs; try lra; try lia.
    exists O. cbn [nth length INR]. repeat split; try lia; lra.
  - exists a. split; [exact E |]. split; [exact L |].
    cbn [length] in H.
    destruct (H 0%nat ltac:(lia)) as ((_ & H0) & _ & _); [cbn [nth]; lra |].
    destruct (H 1%nat ltac:(lia)) as (_ & H1 & _).
    destruct (H 2%nat ltac:(lia)) as (_ & _ & H2).
    split; [exact H0 |]. split; [apply H1; reflexivity |].
    apply H2; cbn [nth INR]; lra.
Defined.

(** The first loop from turn [start] on: when the free parameters still
    to come outnumber what is left of the reduced vector, the loop ends
    in an [IndexError]. *)
Lemma first_pass_short (bestP stepsize params : list R) (n : nat) :
  forall (start j : nat) (a : list R),
    (start + n <= length stepsize)%nat ->
    (j <= length bestP)%nat ->
    (length bestP < j + count_free (firstn n (skipn start stepsize)))%nat ->
    for_each (first_pass_body bestP stepsize params) (seq start n) (j, a)
    = Raise IndexError.
Proof.
  induction n as [| n IH]; intros start j a Hn Hj Hc.
  - rewrite firstn_0 in Hc. unfold count_free in Hc. cbn [filter length] in Hc. lia.
  - cbn [seq for_each]. unfold first_pass_body at 1.
    assert (Hs : (start < length stepsize)%nat) by lia.
    rewrite (getitem_nth stepsize start 0 Hs). cbn [bind].
    pose proof (skipn_nth_cons stepsize start 0 Hs) as Esk.
    rewrite Esk in Hc. cbn [firstn] in Hc.
    change (nth start stepsize 0 :: firstn n (skipn (S start) stepsize))
      with ([nth start stepsize 0] ++ firstn n (skipn (S start) stepsize)) in Hc.
    rewrite count_free_app in Hc. unfold count_free at 1 in Hc. cbn [filter] in Hc.
    destruct (Rltb 0 (nth start stepsize 0)) eqn:Es; cbn [length] in Hc.
    + destruct (getitem_cases bestP j) as [[v Ev] | Ev]; rewrite Ev; cbn [bind];
        [| reflexivity].
      destruct (setitem_cases a start v) as [[a' Ea] | Ea]; rewrite Ea; cbn [bind];
        [| reflexivity].
      assert (j < length bestP)%nat.
      { unfold getitem in Ev. destruct (nth_error bestP j) eqn:En; [| discriminate].
        apply nth_error_Some. congruence. }
      apply IH; lia.
    + destruct (getitem_cases params start) as [[v Ev] | Ev]; rewrite Ev; cbn [bind];
        [| reflexivity].
      destruct (setitem_cases a start v) as [[a' Ea] | Ea]; rewrite Ea; cbn [bind];
        [| reflexivity].
      apply IH; lia.
Qed.

(** C8. When the reduced vector has fewer elements than the step-size
    vector has positive entries, [get_params] returns no result: reading
    the reduced vector past its end raises, here and now. *)
Theorem get_params_too_few (bestP stepsize params : list R) :
  (length bestP < count_free stepsize)%nat ->
  get_params bestP stepsize params = Raise IndexError.
Proof.
  intros H. unfold get_params.
  rewrite first_pass_short; [reflexivity | lia | lia |].
  rewrite skipn_0, firstn_all. lia.
Qed.

Lemma get_params_too_few_witness :
  Nat.lt (length [5]) (count_free [1; 0; 2])
  /\ get_params [5] [1; 0; 2] [7; 8; 9] = Raise IndexError.
Proof.
  assert (H : Nat.lt (length [5]) (count_free [1; 0; 2])).
  { unfold count_free. cbn [filter]. rtests. cbn [length]. lia. }
  split; [exact H | exact (get_params_too_few [5] [1; 0; 2] [7; 8; 9] H)].
Defined.

(** ** [eclipse] *)


Lemma signed_root_neg (depth : R) :
  depth < 0 -> signed_root depth = - sqrt (- depth).
Proof.
  intros H. unfold signed_root.
  rewrite Rabs_left by lra. field. lra.
Qed.



Lemma np_div_fin (a b : R) : b <> 0 -> np_div a b = Fin (a / b).
Proof.
  intros H. unfold np_div.
  now replace (Reqb b 0) with false by (symmetry; now apply Reqb_false).
Qed.



Lemma np_sqrt_fin (a : R) : 0 <= a -> np_sqrt a = Fin (sqrt a).
Proof.
  intros H. unfold np_sqrt.
  now replace (Rleb 0 a) with true by (symmetry; now apply Rleb_true).
Qed.


(** Split on one comparison and keep what it says as a hypothesis. *)
Ltac rcase :=
  match goal with
  | |- context [Rleb ?a ?b] =>
      let E := fresh "E" in
      destruct (Rleb a b) eqn:E;
      [apply Rleb_true in E | apply Rleb_false in E]
  | |- context [Rltb ?a ?b] =>
      let E := fresh "E" in
      destruct (Rltb a b) eqn:E;
      [apply Rltb_true in E | apply Rltb_false in E]
  | |- context [Reqb ?a ?b] =>
      let E := fresh "E" in
      destruct (Reqb a b) eqn:E;
      [apply Reqb_true in E | apply Reqb_false in E]
  end; cbn [andb orb negb].

Lemma contacts_order (midpt width depth t12 t34 : R) :
  let c := eclipse_contacts midpt width depth t12 t34 in
  c_t1 c = midpt - width / 2 /\ c_t4 c = midpt + width / 2
  /\ c_t2 c <= midpt <= c_t3 c
  /\ c_t2 c <= c_t1 c + t12 /\ c_t4 c - t34 <= c_t3 c
  /\ c_p c = signed_root depth.
Proof.
  unfold eclipse_contacts; cbn [c_t1 c_t2 c_t3 c_t4 c_p].
  repeat rcase; repeat split; lra.
Qed.




(** ** Symmetry about the midpoint *)






(** ** [zen] *)

Lemma pixel_sum_snoc (par row : list R) :
  forall n, (n < length par)%nat -> (n < length row)%nat ->
    pixel_sum (firstn (S n) par) row
    = pixel_sum (firstn n par) row + nth n par 0 * nth n row 0.
Proof.
  revert row; induction par as [| w ws IH]; intros row n Hp Hr; cbn [length] in Hp.
  - lia.
  - destruct row as [| v vs]; cbn [length] in Hr; [lia |].
    destruct n as [| n].
    + cbn [firstn pixel_sum nth]. destruct vs; lra.
    + rewrite !firstn_cons. cbn [pixel_sum nth]. rewrite IH by lia. lra.
Qed.

Lemma pld_partial_pixel_sum (par row : list R) (n : nat) :
  (n <= length par)%nat -> (n <= length row)%nat ->
  pld_partial par row n = pixel_sum (firstn n par) row.
Proof.
  induction n as [| n IH]; intros Hp Hr.
  - cbn [pld_partial firstn pixel_sum]. reflexivity.
  - cbn [pld_partial]. rewrite pixel_sum_snoc by lia. rewrite IH by lia.
    reflexivity.
Qed.

Lemma map2_map_l {A B C D : Type} (f : B -> C -> D) (g : A -> B)
  (l1 : list A) (l2 : list C) :
  map2 f (map g l1) l2 = map2 (fun a c => f (g a) c) l1 l2.
Proof.
  revert l2; induction l1 as [| a l1 IH]; intros [| c l2]; cbn; auto.
  now rewrite IH.
Qed.

Lemma map2_map_r {A B C D : Type} (f : A -> C -> D) (g : B -> C)
  (l1 : list A) (l2 : list B) :
  map2 f l1 (map g l2) = map2 (fun a b => f a (g b)) l1 l2.
Proof.
  revert l2; induction l1 as [| a l1 IH]; intros [| c l2]; cbn; auto.
  now rewrite IH.
Qed.

Lemma length_map2 {A B C : Type} (f : A -> B -> C) (l1 : list A) (l2 : list B) :
  length l1 = length l2 -> length (map2 f l1 l2) = length l1.
Proof.
  revert l2; induction l1 as [| a l1 IH]; intros [| b l2] H;
    cbn [length map2] in *; try discriminate; try reflexivity.
  f_equal. apply IH. lia.
Qed.

Lemma map2_diag {A B : Type} (f : A -> A -> B) (l : list A) :
  map2 f l l = map (fun a => f a a) l.
Proof. induction l as [| a l IH]; cbn; auto. now rewrite IH. Qed.

Lemma pld_loop_ok (par : list R) (phat : matrix) (n : nat) :
  forall i, (i + n <= length par)%nat -> (i + n <= ncols phat)%nat ->
    pld_loop par phat i n (pld_after par phat i)
    = Ok (pld_after par phat (i + n)).
Proof.
  induction n as [| n IH]; intros i Hp Hc.
  - now rewrite Nat.add_0_r.
  - cbn [pld_loop].
    rewrite (getitem_nth par i 0) by lia. cbn [bind].
    unfold column. replace (i <? ncols phat)%nat with true
      by (symmetry; apply Nat.ltb_lt; lia).
    cbn [bind]. unfold np_mul, scalar, array. cbn [broadcast2 bind].
    replace (i + S n)%nat with (S i + n)%nat by lia.
    rewrite <- IH by lia.
    match goal with
    | |- bind ?m _ = _ =>
        assert (E : m = Ok (pld_after par phat (S i)))
    end.
    { destruct i as [| i]; unfold pld_after, scalar; cbn [iadd broadcast2].
      - rewrite !map_map. reflexivity.
      - rewrite !length_map, Nat.eqb_refl.
        rewrite !map_map, map2_map_l, map2_map_r, map2_diag. reflexivity. }
    rewrite E. reflexivity.
Qed.

Lemma eclipse_ok (t eclparams : list R) :
  length eclparams = 6%nat ->
  exists ecl, eclipse t eclparams = Ok ecl /\ length ecl = length t.
Proof.
  intros H.
  destruct eclparams as [| e0 [| e1 [| e2 [| e3 [| e4 [| e5 [| e6 r]]]]]]];
    try discriminate.
  unfold eclipse; cbn [getitem nth_error bind].
  destruct (Reqb e2 0); eexists; split; try reflexivity.
  - apply repeat_length.
  - apply length_map.
Qed.

Lemma map2_const_l {A B C : Type} (f : A -> B -> C) (a : A) (D : Type)
  (l1 : list D) (l2 : list B) :
  length l1 = length l2 -> map2 f (map (fun _ => a) l1) l2 = map (f a) l2.
Proof.
  revert l2; induction l1 as [| d l1 IH]; intros [| b l2] H;
    cbn [length map map2] in *; try discriminate; try reflexivity.
  f_equal. apply IH. lia.
Qed.

(** The arrays that the last line of [zen] adds up, sample by sample. *)
Lemma zen_samples (par : list R) (npix : nat) (f a0 a1 a2 : R) :
  forall (rws : list (list R)) (x : list R) (ecl : list npfloat),
    length rws = length x -> length ecl = length x ->
    map2 (flift2 Rplus)
      (map2 (flift2 Rplus)
         (map (fun row => Fin (pixel_sum (firstn npix par) row)) rws)
         (map (flift2 Rmult (Fin f))
            (map (fun u => flift2 Rminus u (Fin 1)) ecl)))
      (map2 (flift2 Rplus)
         (map (flift2 Rplus (Fin a0)) (map (flift2 Rmult (Fin a1)) (map Fin x)))
         (map (flift2 Rmult (Fin a2)) (map Fin (map (fun v => v ^ 2) x))))
    = map3 (fun row xi e =>
              v <~ e ;;
              Fin (pixel_sum (firstn npix par) row + f * (v - 1)
                   + (a0 + a1 * xi + a2 * xi ^ 2)))
        rws x ecl.
Proof.
  intros rws x; revert rws; induction x as [| xi x IH];
    intros [| row rws] [| e ecl] Hr He; cbn [length] in *;
    try discriminate; try reflexivity.
  cbn [map map2 map3]. f_equal.
  - destruct e; reflexivity.
  - apply IH; lia.
Qed.

(** C1. For a parameter vector of length [npix + 9], phases [x] and a
    matrix [phat] with one row per phase and [npix] columns, [zen]
    returns at each sample the pixel term, the sum of
    [par[i] * phat[sample, i]] over the [npix] pixels, plus the
    flux-norm entry [par[npix + 5]] times the eclipse model of
    [par[npix .. npix + 5]] less 1, plus the quadratic ramp with the
    coefficients [par[npix + 6]], [par[npix + 7]] and [par[npix + 8]]. *)
Theorem zen_composite (par x : list R) (phat : matrix) (npix : nat) :
  length par = (npix + 9)%nat ->
  ncols phat = npix -> matrix_wf phat ->
  length (rows phat) = length x ->
  exists ecl,
    eclipse x (firstn 6 (skipn npix par)) = Ok ecl
    /\ length ecl = length x
    /\ zen par x phat npix
       = Ok (Array (map3 (composite_sample par npix) (rows phat) x ecl)).
Proof.
  intros Hp Hc Hwf Hr.
  unfold zen.
  assert (Es : slice_to_neg par npix 3 = firstn 6 (skipn npix par)).
  { unfold slice_to_neg. rewrite firstn_skipn_comm. do 2 f_equal. lia. }
  rewrite Es.
  assert (L6 : length (firstn 6 (skipn npix par)) = 6%nat).
  { rewrite length_firstn, length_skipn. lia. }
  destruct (eclipse_ok x _ L6) as (ecl & Ee & Le).
  exists ecl. split; [exact Ee |]. split; [exact Le |].
  rewrite Ee. cbn [bind].
  pose proof (pld_loop_ok par phat npix 0 ltac:(lia) ltac:(lia)) as El.
  change (pld_after par phat 0) with (scalar 0) in El.
  rewrite El. cbn [bind]. rewrite Nat.add_0_l.
  unfold getitem_neg. rewrite L6, Hp.
  replace (1 <=? 6)%nat with true by reflexivity.
  replace (3 <=? npix + 9)%nat with true by (symmetry; apply Nat.leb_le; lia).
  replace (2 <=? npix + 9)%nat with true by (symmetry; apply Nat.leb_le; lia).
  replace (1 <=? npix + 9)%nat with true by (symmetry; apply Nat.leb_le; lia).
  rewrite (getitem_nth _ (6 - 1) 0) by lia.
  rewrite !(getitem_nth par _ 0) by lia.
  cbn [bind].
  unfold np_sub, np_mul, np_add, scalar, array. cbn [broadcast2 bind].
  rewrite !length_map. rewrite Nat.eqb_refl.
  replace (nth (6 - 1) (firstn 6 (skipn npix par)) 0) with (nth (npix + 5) par 0).
  2:{ rewrite nth_firstn. replace (6 - 1 <? 6)%nat with true by reflexivity.
      now rewrite nth_skipn. }
  replace (npix + 9 - 3)%nat with (npix + 6)%nat by lia.
  replace (npix + 9 - 2)%nat with (npix + 7)%nat by lia.
  replace (npix + 9 - 1)%nat with (npix + 8)%nat by lia.
  assert (Epld : forall L, length L = length x ->
    broadcast2 (flift2 Rplus) (pld_after par phat npix) (Array L)
    = Ok (Array (map2 (flift2 Rplus)
                   (map (fun row => Fin (pixel_sum (firstn npix par) row))
                      (rows phat)) L))).
  { intros L HL. destruct npix as [| n] eqn:En.
    - unfold pld_after, scalar. cbn [broadcast2 firstn pixel_sum].
      rewrite map2_const_l by lia. reflexivity.
    - unfold pld_after. cbn [broadcast2]. rewrite length_map.
      replace (length (rows phat) =? length L)%nat with true
        by (symmetry; apply Nat.eqb_eq; lia).
      do 3 f_equal. apply map_ext_in. intros row Hrow. f_equal.
      apply pld_partial_pixel_sum; [lia |].
      unfold matrix_wf in Hwf. rewrite Forall_forall in Hwf.
      rewrite (Hwf row Hrow). lia. }
  rewrite Epld by (rewrite !length_map; exact Le).
  cbn [bind broadcast2]. rewrite !length_map2 by (rewrite ?length_map; lia).
  rewrite !length_map, Hr, Nat.eqb_refl.
  rewrite zen_samples by assumption. reflexivity.
Qed.

(** ** [bindata] *)

Lemma setitem_middle {A : Type} (l1 l2 : list A) (z v : A) :
  setitem (l1 ++ z :: l2) (length l1) v = Ok (l1 ++ v :: l2).
Proof.
  unfold setitem. rewrite length_app. cbn [length].
  replace (length l1 <? length l1 + S (length l2))%nat with true
    by (symmetry; apply Nat.ltb_lt; lia).
  f_equal.
  rewrite firstn_app, Nat.sub_diag, firstn_all, firstn_0, app_nil_r.
  f_equal.
  rewrite skipn_app, skipn_all2 by lia.
  replace (S (length l1) - length l1)%nat with 1%nat by lia.
  reflexivity.
Qed.

Lemma map_seq_snoc {A : Type} (f : nat -> A) (k : nat) (v : A) (l : list A) :
  v = f (S k) ->
  map f (seq 1 k) ++ v :: l = map f (seq 1 (S k)) ++ l.
Proof.
  intros ->. rewrite seq_S, map_app, <- app_assoc. reflexivity.
Qed.

Lemma members_length {A : Type} (digitized : list nat) (v : list A) (i : nat) :
  length v = length digitized ->
  length (members digitized i v) = bin_count digitized i.
Proof.
  unfold members, bin_count. rewrite length_map.
  revert v. induction digitized as [| d ds IH]; intros [| a v] H;
    cbn [length combine filter fst] in *; try discriminate; try reflexivity.
  destruct (d =? i)%nat; cbn [length]; rewrite IH by lia; reflexivity.
Qed.

Section BinLoop.

Variables (digitized : list nat) (x y : list R) (yerr : option (list R)).

Hypothesis Hx : length x = length digitized.
Hypothesis Hy : length y = length digitized.
Hypothesis Hyerr :
  match yerr with Some e => length e = length digitized | None => True end.

Lemma bin_body_step (k m : nat) :
  bin_body digitized x y yerr (S k) (bins_after digitized x y yerr k (S m))
  = Ok (bins_after digitized x y yerr (S k) m).
Proof.
  unfold bin_body, select, bins_after.
  cbn [bin_means_x bin_means_y bin_means_yerr binmask].
  rewrite Hx, Hy, Nat.eqb_refl. cbn [bind].
  replace (S k - 1)%nat with k by lia.
  assert (Lk : forall (A : Type) (f : nat -> A), length (map f (seq 1 k)) = k)
    by (intros; now rewrite length_map, length_seq).
  cbn [repeat].
  rewrite <- (Lk _ (bin_y digitized y)) at 2. rewrite setitem_middle. cbn [bind].
  rewrite !members_length by assumption.
  assert (Em : forall b : bool,
    (if b
     then setitem (map (bin_kept digitized) (seq 1 k) ++ true :: repeat true m)
            k false
     else Ok (map (bin_kept digitized) (seq 1 k) ++ true :: repeat true m))
    = Ok (map (bin_kept digitized) (seq 1 k) ++ negb b :: repeat true m)).
  { intros [|]; [| reflexivity].
    rewrite <- (Lk _ (bin_kept digitized)) at 2. now rewrite setitem_middle. }
  rewrite Em. cbn [bind].
  rewrite <- (Lk _ (bin_x digitized x)) at 2. rewrite setitem_middle. cbn [bind].
  assert (Em2 : forall b : bool,
    (if b
     then setitem (map (bin_kept digitized) (seq 1 k) ++ negb b :: repeat true m)
            k false
     else Ok (map (bin_kept digitized) (seq 1 k) ++ negb b :: repeat true m))
    = Ok (map (bin_kept digitized) (seq 1 k) ++ negb b :: repeat true m)).
  { intros [|]; [| reflexivity].
    rewrite <- (Lk _ (bin_kept digitized)) at 2. now rewrite setitem_middle. }
  rewrite Em2. cbn [bind].
  rewrite !(map_seq_snoc _ k) by reflexivity.
  destruct yerr as [e |].
  - rewrite Hyerr, Nat.eqb_refl. cbn [bind].
    rewrite <- (Lk _ (bin_err digitized e)) at 2. rewrite setitem_middle.
    cbn [bind].
    rewrite (map_seq_snoc _ k) by reflexivity. reflexivity.
  - reflexivity.
Qed.

Lemma bin_loop (m : nat) :
  forall k,
    for_each (bin_body digitized x y yerr) (seq (S k) m)
      (bins_after digitized x y yerr k m)
    = Ok (bins_after digitized x y yerr (k + m) 0).
Proof.
  induction m as [| m IH]; intros k.
  - now rewrite Nat.add_0_r.
  - cbn [seq for_each]. rewrite bin_body_step. cbn [bind].
    rewrite IH. do 2 f_equal. lia.
Qed.

End BinLoop.

Lemma compress_map {A : Type} (g : nat -> bool) (f : nat -> A) (l : list nat) :
  compress (map g l) (map f l) = map f (filter g l).
Proof.
  unfold compress. induction l as [| i l IH]; [reflexivity |].
  cbn [map combine filter fst]. destruct (g i); cbn [map snd]; now rewrite IH.
Qed.

Lemma np_mean_fin (a : list R) : a <> [] -> np_mean a = Fin (Rmean a).
Proof.
  intros H. unfold np_mean, Rmean. apply np_div_fin.
  apply not_0_INR. destruct a; [contradiction | discriminate].
Qed.

Lemma Rsum_squares_nonneg (e : list R) : 0 <= Rsum (map (fun v => v ^ 2) e).
Proof.
  induction e as [| v e IH]; cbn [map Rsum fold_right]; [lra |].
  fold (Rsum (map (fun v => v ^ 2) e)). nra.
Qed.

Lemma err_of_mean_fin (e : list R) : e <> [] -> err_of_mean e = Fin (Rerr e).
Proof.
  intros H. unfold err_of_mean, Rerr.
  rewrite np_sqrt_fin by apply Rsum_squares_nonneg. cbn [fbind].
  apply np_div_fin, not_0_INR. destruct e; [contradiction | discriminate].
Qed.

Lemma py_min_spec (x : list R) :
  x <> [] ->
  exists lo, py_min x = Ok lo /\ In lo x /\ Forall (fun v => lo <= v) x.
Proof.
  destruct x as [| a r]; [contradiction |]. intros _.
  cbn [py_min]. eexists; split; [reflexivity |].
  assert (G : forall r a, In (fold_left (fun m v => if Rltb v m then v else m) r a) (a :: r)
              /\ fold_left (fun m v => if Rltb v m then v else m) r a <= a
              /\ Forall (fun v => fold_left (fun m v => if Rltb v m then v else m) r a <= v) r).
  { clear. induction r as [| b r IH]; intros a; cbn [fold_left].
    - split; [now left |]. split; [lra | constructor].
    - destruct (IH (if Rltb b a then b else a)) as (I1 & I2 & I3).
      destruct (Rltb b a) eqn:E;
        [apply Rltb_true in E | apply Rltb_false in E].
      + split; [destruct I1 as [<- | I1]; [right; now left | right; now right] |].
        split; [lra |]. constructor; [exact I2 | exact I3].
      + split; [destruct I1 as [<- | I1]; [now left | right; now right] |].
        split; [exact I2 |]. constructor; [lra | exact I3]. }
  destruct (G r a) as (I1 & I2 & I3).
  split; [exact I1 |]. constructor; [exact I2 | exact I3].
Qed.

Lemma py_max_spec (x : list R) :
  x <> [] ->
  exists hi, py_max x = Ok hi /\ In hi x /\ Forall (fun v => v <= hi) x.
Proof.
  destruct x as [| a r]; [contradiction |]. intros _.
  cbn [py_max]. eexists; split; [reflexivity |].
  assert (G : forall r a, In (fold_left (fun m v => if Rltb m v then v else m) r a) (a :: r)
              /\ a <= fold_left (fun m v => if Rltb m v then v else m) r a
              /\ Forall (fun v => v <= fold_left (fun m v => if Rltb m v then v else m) r a) r).
  { clear. induction r as [| b r IH]; intros a; cbn [fold_left].
    - split; [now left |]. split; [lra | constructor].
    - destruct (IH (if Rltb a b then b else a)) as (I1 & I2 & I3).
      destruct (Rltb a b) eqn:E;
        [apply Rltb_true in E | apply Rltb_false in E].
      + split; [destruct I1 as [<- | I1]; [right; now left | right; now right] |].
        split; [lra |]. constructor; [exact I2 | exact I3].
      + split; [destruct I1 as [<- | I1]; [now left | right; now right] |].
        split; [exact I2 |]. constructor; [lra | exact I3]. }
  destruct (G r a) as (I1 & I2 & I3).
  split; [exact I1 |]. constructor; [exact I2 | exact I3].
Qed.

(** What [bindata] returns, bin by bin, before anything is known about
    the bins being empty or not. *)
Lemma bindata_result (x y : list R) (yerr : option (list R)) (width : R) :
  x <> [] -> length y = length x ->
  match yerr with Some e => length e = length x | None => True end ->
  width <> 0 ->
  exists bins digitized,
    bin_assignment x width = Ok (bins, digitized)
    /\ length digitized = length x
    /\ bindata x y width yerr
       = Ok (map (bin_x digitized x) (occupied_bins (length bins) digitized),
             map (bin_y digitized y) (occupied_bins (length bins) digitized),
             match yerr with
             | Some e => Some (map (bin_err digitized e)
                                 (occupied_bins (length bins) digitized))
             | None => None
             end).
Proof.
  intros Hne Hy He Hw.
  destruct (py_min_spec x Hne) as (lo & Elo & _).
  destruct (py_max_spec x Hne) as (hi & Ehi & _).
  unfold bin_assignment, bindata. rewrite Elo, Ehi. cbn [bind].
  unfold np_arange.
  replace (Reqb width 0) with false by (symmetry; now apply Reqb_false).
  cbn [bind].
  set (bins := map (fun k => lo + INR k * width)
                 (seq 0 (Z.to_nat (Zceil ((hi - lo) / width))))).
  set (d := np_digitize x bins).
  assert (Ld : length d = length x) by (unfold d, np_digitize; apply length_map).
  exists bins, d. split; [reflexivity |]. split; [exact Ld |].
  pose proof (bin_loop d x y yerr (eq_sym Ld) ltac:(lia)
                ltac:(destruct yerr; [lia | exact I]) (length bins) 0) as L.
  unfold bins_after in L at 1. cbn [seq map app] in L.
  rewrite L. cbn [bind]. unfold bins_after.
  cbn [bin_means_x bin_means_y bin_means_yerr binmask repeat].
  unfold occupied_bins.
  destruct yerr as [e |];
    rewrite !app_nil_r, Nat.add_0_l, !compress_map; reflexivity.
Qed.

Lemma occupied_bins_spec (nbins : nat) (digitized : list nat) (i : nat) :
  In i (occupied_bins nbins digitized)
  <-> (1 <= i <= nbins)%nat /\ bin_count digitized i <> O.
Proof.
  unfold occupied_bins. rewrite filter_In, in_seq, negb_true_iff, Nat.eqb_neq.
  intuition lia.
Qed.

Lemma members_nonempty {A : Type} (digitized : list nat) (v : list A) (i : nat) :
  length v = length digitized -> bin_count digitized i <> O ->
  members digitized i v <> [].
Proof.
  intros H Hc E. apply Hc.
  rewrite <- (members_length digitized v i H), E. reflexivity.
Qed.

(** The entries that [bindata] returns are finite numbers: the means and
    the propagated errors of the bins that have samples. *)
Lemma bindata_occupied (x y : list R) (yerr : option (list R)) (width : R) :
  x <> [] -> length y = length x ->
  match yerr with Some e => length e = length x | None => True end ->
  width <> 0 ->
  exists bins digitized,
    bin_assignment x width = Ok (bins, digitized)
    /\ length digitized = length x
    /\ bindata x y width yerr
       = Ok (map (fun i => Fin (Rmean (members digitized i x)))
               (occupied_bins (length bins) digitized),
             map (fun i => Fin (Rmean (members digitized i y)))
               (occupied_bins (length bins) digitized),
             match yerr with
             | Some e => Some (map (fun i => Fin (Rerr (members digitized i e)))
                                 (occupied_bins (length bins) digitized))
             | None => None
             end).
Proof.
  intros Hne Hy He Hw.
  destruct (bindata_result x y yerr width Hne Hy He Hw)
    as (bins & d & Ea & Ld & Eb).
  exists bins, d. split; [exact Ea |]. split; [exact Ld |].
  rewrite Eb. f_equal. f_equal; [f_equal |].
  - apply map_ext_in. intros i Hi. apply occupied_bins_spec in Hi as [_ Hi].
    unfold bin_x. apply np_mean_fin, members_nonempty; [lia | exact Hi].
  - apply map_ext_in. intros i Hi. apply occupied_bins_spec in Hi as [_ Hi].
    unfold bin_y. apply np_mean_fin, members_nonempty; [lia | exact Hi].
  - destruct yerr as [e |]; [| reflexivity]. f_equal.
    apply map_ext_in. intros i Hi. apply occupied_bins_spec in Hi as [_ Hi].
    unfold bin_err. apply err_of_mean_fin, members_nonempty; [lia | exact Hi].
Qed.

(** C6. For finite samples and a positive width, [bindata] raises
    nothing and returns, for x, for y and, when uncertainties are given,
    for the errors, one entry for each bin that has a sample, in the
    order of the bins, and none for a bin without samples: the three
    arrays have the same length and every entry is a finite number, the
    mean (or the propagated error) of the samples of its bin. *)
Theorem bindata_drops_empty_bins
  (x y : list R) (yerr : option (list R)) (width : R) :
  x <> [] -> length y = length x ->
  match yerr with Some e => length e = length x | None => True end ->
  0 < width ->
  exists bins digitized,
    bin_assignment x width = Ok (bins, digitized)
    /\ (forall i, In i (occupied_bins (length bins) digitized)
                  <-> (1 <= i <= length bins)%nat /\ bin_count digitized i <> O)
    /\ bindata x y width yerr
       = Ok (map (fun i => Fin (Rmean (members digitized i x)))
               (occupied_bins (length bins) digitized),
             map (fun i => Fin (Rmean (members digitized i y)))
               (occupied_bins (length bins) digitized),
             match yerr with
             | Some e => Some (map (fun i => Fin (Rerr (members digitized i e)))
                                 (occupied_bins (length bins) digitized))
             | None => None
             end).
Proof.
  intros Hne Hy He Hw.
  destruct (bindata_occupied x y yerr width Hne Hy He ltac:(lra))
    as (bins & d & Ea & _ & Eb).
  exists bins, d. split; [exact Ea |].
  split; [apply occupied_bins_spec | exact Eb].
Qed.

(** The edges: at least one for a positive width and a range that is
    not empty, the first at the minimum, the last below the maximum. *)
Lemma arange_edges (lo hi width : R) :
  0 < width -> lo < hi ->
  exists n,
    Z.to_nat (Zceil ((hi - lo) / width)) = S n
    /\ np_arange lo hi width
       = Ok (map (fun k => lo + INR k * width) (seq 0 (S n)))
    /\ lo + INR n * width < hi.
Proof.
  intros Hw Hr.
  assert (Hq : 0 < (hi - lo) / width) by (apply Rdiv_lt_0_compat; lra).
  destruct (Zceil_bound ((hi - lo) / width)) as [B1 B2].
  assert (Hz : (1 <= Zceil ((hi - lo) / width))%Z).
  { assert (0 < IZR (Zceil ((hi - lo) / width))) by lra.
    apply lt_IZR in H. lia. }
  exists (Z.to_nat (Zceil ((hi - lo) / width) - 1)).
  assert (En : Z.to_nat (Zceil ((hi - lo) / width))
               = S (Z.to_nat (Zceil ((hi - lo) / width) - 1))) by lia.
  split; [exact En |]. split.
  - unfold np_arange.
    replace (Reqb width 0) with false by (symmetry; apply Reqb_false; lra).
    now rewrite En.
  - rewrite INR_IZR_INZ, Z2Nat.id by lia. rewrite minus_IZR.
    assert (E : (hi - lo) / width * width = hi - lo) by (field; lra).
    nra.
Qed.

Lemma searchsorted_le_length (bins : list R) (v : R) :
  (searchsorted_right bins v <= length bins)%nat.
Proof.
  induction bins as [| e r IH]; cbn [searchsorted_right length]; [lia |].
  destruct (Rleb e v); lia.
Qed.


Lemma searchsorted_from_first (e : R) (r : list R) (v : R) :
  e <= v -> (1 <= searchsorted_right (e :: r) v)%nat.
Proof.
  intros H. cbn [searchsorted_right].
  replace (Rleb e v) with true by (symmetry; now apply Rleb_true). lia.
Qed.

Lemma list_sum_cons (a : nat) (l : list nat) :
  list_sum (a :: l) = (a + list_sum l)%nat.
Proof. reflexivity. Qed.

(** Each sample counts for one bin, the one of its index. *)
Lemma count_indicator (d : nat) (n : nat) :
  forall a,
    list_sum (map (fun i => if (d =? i)%nat then 1%nat else 0%nat) (seq a n))
    = if ((a <=? d) && (d <? a + n))%nat then 1%nat else 0%nat.
Proof.
  induction n as [| n IH]; intros a; cbn [seq map].
  - destruct (a <=? d)%nat eqn:E1; cbn [andb]; [| reflexivity].
    replace (d <? a + 0)%nat with false; [reflexivity |].
    symmetry. apply Nat.ltb_ge. apply Nat.leb_le in E1. lia.
  - rewrite list_sum_cons, IH.
    destruct (d =? a)%nat eqn:E.
    + apply Nat.eqb_eq in E. subst d.
      replace (S a <=? a)%nat with false by (symmetry; apply Nat.leb_gt; lia).
      replace (a <=? a)%nat with true by (symmetry; apply Nat.leb_le; lia).
      replace (a <? a + S n)%nat with true by (symmetry; apply Nat.ltb_lt; lia).
      reflexivity.
    + apply Nat.eqb_neq in E.
      destruct (a <=? d)%nat eqn:E1, (S a <=? d)%nat eqn:E2,
               (d <? a + S n)%nat eqn:E3, (d <? S a + n)%nat eqn:E4;
        cbn [andb]; try reflexivity; exfalso;
        rewrite ?Nat.leb_le, ?Nat.leb_gt, ?Nat.ltb_lt, ?Nat.ltb_ge in *; lia.
Qed.

Lemma list_sum_map_add (f g : nat -> nat) (l : list nat) :
  list_sum (map (fun i => f i + g i)%nat l)
  = (list_sum (map f l) + list_sum (map g l))%nat.
Proof.
  induction l as [| i l IH]; cbn [map]; [reflexivity |].
  rewrite !list_sum_cons, IH. lia.
Qed.





Lemma digitize_single_bin (x : list R) (lo : R) :
  Forall (fun v => lo <= v) x ->
  np_digitize x [lo] = repeat 1%nat (length x).
Proof.
  induction 1 as [| v r Hv _ IH]; [reflexivity |].
  cbn [np_digitize map length repeat searchsorted_right].
  replace (Rleb lo v) with true by (symmetry; now apply Rleb_true).
  f_equal. exact IH.
Qed.

Lemma members_all {A : Type} (v : list A) (n : nat) :
  length v = n -> members (repeat 1%nat n) 1 v = v.
Proof.
  unfold members. revert n; induction v as [| a v IH]; intros n H;
    cbn [length] in H; subst n; [reflexivity |].
  cbn [repeat combine filter fst Nat.eqb map snd]. f_equal. now apply IH.
Qed.

Lemma bin_count_all (n : nat) : bin_count (repeat 1%nat n) 1 = n.
Proof.
  unfold bin_count. induction n as [| n IH]; [reflexivity |].
  cbn [repeat filter Nat.eqb length]. now rewrite IH.
Qed.

(** C7. For samples that are not all equal and a width of at least the
    range of x, [bindata] returns one bin: its x is the mean of all the
    x and its y the mean of all the y. *)
Theorem bindata_single_bin (x y : list R) (width lo hi : R) :
  py_min x = Ok lo -> py_max x = Ok hi -> lo < hi -> hi - lo <= width ->
  length y = length x ->
  bindata x y width None = Ok ([Fin (Rmean x)], [Fin (Rmean y)], None).
Proof.
  intros Elo Ehi Hr Hw Hy.
  assert (Hne : x <> []) by (intros ->; discriminate).
  destruct (py_min_spec x Hne) as (lo' & Elo' & _ & Hmin).
  assert (lo' = lo) as -> by congruence.
  destruct (bindata_occupied x y None width Hne Hy I ltac:(lra))
    as (bins & d & Ea & _ & Eb).
  assert (E1 : Zceil ((hi - lo) / width) = 1%Z).
  { apply Zceil_eq.
    assert (E : (hi - lo) / width * width = hi - lo) by (field; lra).
    assert (0 < (hi - lo) / width) by (apply Rdiv_lt_0_compat; lra).
    split; [lra | nra]. }
  unfold bin_assignment in Ea. rewrite Elo, Ehi in Ea. cbn [bind] in Ea.
  unfold np_arange in Ea.
  replace (Reqb width 0) with false in Ea by (symmetry; apply Reqb_false; lra).
  rewrite E1 in Ea. cbn [bind] in Ea.
  change (Z.to_nat 1) with 1%nat in Ea. cbn [seq map INR] in Ea.
  replace (lo + 0 * width) with lo in Ea by lra.
  rewrite (digitize_single_bin x lo Hmin) in Ea.
  injection Ea as <- <-.
  rewrite Eb. cbn [length]. unfold occupied_bins. cbn [seq filter].
  rewrite bin_count_all.
  replace (length x =? 0)%nat with false
    by (symmetry; apply Nat.eqb_neq; destruct x; [contradiction | discriminate]).
  cbn [negb map]. rewrite members_all by reflexivity.
  rewrite <- Hy at 1. rewrite members_all by reflexivity. reflexivity.
Qed.

(** ** The bin-width sweep *)

Lemma for_each_app {S : Type} (body : nat -> S -> result S)
  (l1 l2 : list nat) (st : S) :
  for_each body (l1 ++ l2) st
  = (st' <- for_each body l1 st ;; for_each body l2 st').
Proof.
  revert st; induction l1 as [| i l1 IH]; intros st; cbn [app for_each bind].
  - reflexivity.
  - destruct (body i st) as [s1 | e]; cbn [bind]; [apply IH | reflexivity].
Qed.

Section SweepFacts.

Variable binned : Type.
Variable bin_at : R -> result binned.
Variable curve_fit : binned -> result (list R).
Variable redchisq_of : binned -> list R -> result npfloat.

(** The turns for candidates that all go through leave the loop
    running, with [chisqarray] at its full length. *)
Lemma sweep_prefix_ok (bintry : list R) (k : nat) (st : sweep_state) :
  (k <= length bintry)%nat ->
  length (chisqarray st) = length bintry ->
  (forall i w, (i < k)%nat -> nth_error bintry i = Some w ->
               is_ok (candidate bin_at curve_fit redchisq_of w)) ->
  exists st',
    for_each (sweep_body bin_at curve_fit redchisq_of bintry) (seq 0 k) st = Ok st'
    /\ length (chisqarray st') = length bintry.
Proof.
  intros Hk Hlen Hok.
  destruct (for_each_invariant (sweep_body bin_at curve_fit redchisq_of bintry)
    (fun _ s => length (chisqarray s) = length bintry) k O st Hlen)
    as (st' & E & L).
  - intros i s Hi Hs. unfold sweep_body.
    destruct (nth_error bintry i) as [w |] eqn:Ew.
    2:{ apply nth_error_None in Ew. lia. }
    unfold getitem. rewrite Ew. cbn [bind].
    specialize (Hok i w ltac:(lia) Ew). unfold candidate in Hok.
    destruct (bin_at w) as [b |]; cbn [bind is_ok] in *; [| contradiction].
    destruct (curve_fit b) as [ret |]; cbn [bind is_ok] in *; [| contradiction].
    destruct (redchisq_of b ret) as [r |]; cbn [bind is_ok] in *;
      [| contradiction].
    rewrite setitem_ok by lia. cbn [bind].
    destruct (flt r (chibest s)); eexists; (split; [reflexivity |]);
      cbn [chisqarray]; rewrite upd_length; lia.
  - exists st'. split; [exact E | exact L].
Qed.

(** The first candidate whose turn raises ends the sweep, whatever
    comes after it. *)
Lemma sweep_raises_at_first_failure
  (before after : list R) (w : R) (e : pyexn) :
  (forall w', In w' before ->
              is_ok (candidate bin_at curve_fit redchisq_of w')) ->
  candidate bin_at curve_fit redchisq_of w = Raise e ->
  sweep bin_at curve_fit redchisq_of (before ++ w :: after) = Raise e.
Proof.
  intros Hok Hw. unfold sweep.
  set (bintry := before ++ w :: after).
  assert (Ln : length bintry = (length before + S (length after))%nat)
    by (unfold bintry; rewrite length_app; reflexivity).
  rewrite Ln, seq_app, for_each_app.
  destruct (sweep_prefix_ok bintry (length before)
              (mkSweep (Fin 1e300) None
                 (repeat (Fin 0) (length before + S (length after)))))
    as (st' & E & L).
  - lia.
  - cbn [chisqarray]. rewrite repeat_length. lia.
  - intros i w' Hi Ew. apply Hok.
    unfold bintry in Ew. rewrite nth_error_app1 in Ew by exact Hi.
    eapply nth_error_In, Ew.
  - rewrite E. cbn [bind seq for_each Nat.add].
    unfold sweep_body at 1, getitem.
    unfold bintry at 1. rewrite nth_error_app2, Nat.sub_diag by lia.
    cbn [nth_error bind]. unfold candidate in Hw.
    destruct (bin_at w) as [b |]; cbn [bind] in *; [| congruence].
    destruct (curve_fit b) as [ret |]; cbn [bind] in *; [| congruence].
    now rewrite Hw.
Qed.

(** The sweep returns when every candidate goes through ... *)
Lemma sweep_completes (bintry : list R) :
  (forall w, In w bintry -> is_ok (candidate bin_at curve_fit redchisq_of w)) ->
  is_ok (sweep bin_at curve_fit redchisq_of bintry).
Proof.
  intros Hok. unfold sweep.
  destruct (sweep_prefix_ok bintry (length bintry)
              (mkSweep (Fin 1e300) None (repeat (Fin 0) (length bintry))))
    as (st' & E & _).
  - lia.
  - cbn [chisqarray]. apply repeat_length.
  - intros i w _ Ew. apply Hok. eapply nth_error_In, Ew.
  - rewrite E. exact I.
Qed.

(** ... and only then. *)
Lemma sweep_needs_every_candidate (bintry : list R) :
  is_ok (sweep bin_at curve_fit redchisq_of bintry) ->
  forall w, In w bintry -> is_ok (candidate bin_at curve_fit redchisq_of w).
Proof.
  intros Hs.
  assert (G : forall l,
    (forall w, In w l -> is_ok (candidate bin_at curve_fit redchisq_of w))
    \/ exists before w after e,
         l = before ++ w :: after
         /\ (forall w', In w' before ->
                        is_ok (candidate bin_at curve_fit redchisq_of w'))
         /\ candidate bin_at curve_fit redchisq_of w = Raise e).
  { induction l as [| a l [IH | (bf & w & af & e & -> & Hbf & Hw)]].
    - left. intros w [].
    - destruct (candidate bin_at curve_fit redchisq_of a) as [r | e] eqn:Ea.
      + left. intros w [<- | Hin]; [now rewrite Ea | now apply IH].
      + right. exists [], a, l, e. repeat split; [intros w' [] | exact Ea].
    - destruct (candidate bin_at curve_fit redchisq_of a) as [r | e'] eqn:Ea.
      + right. exists (a :: bf), w, af, e. repeat split; [| exact Hw].
        intros w' [<- | Hin]; [now rewrite Ea | now apply Hbf].
      + right. exists [], a, (bf ++ w :: af), e'.
        repeat split; [intros w' [] | exact Ea]. }
  destruct (G bintry) as [Hall | (bf & w & af & e & -> & Hbf & Hw)];
    [exact Hall |].
  rewrite (sweep_raises_at_first_failure bf af w e Hbf Hw) in Hs.
  contradiction.
Qed.

End SweepFacts.

(** C2, as the code has it.  The exception of a fit that does not
    converge is not caught: when the candidates before [w] go through
    and the fit for [w] raises, the width is not skipped and the whole
    sweep ends with that exception, whatever candidates come after
    [w]. *)
Theorem sweep_aborts_at_failed_fit (binned : Type)
  (bin_at : R -> result binned) (curve_fit : binned -> result (list R))
  (redchisq_of : binned -> list R -> result npfloat)
  (before after : list R) (w : R) (b : binned) (e : pyexn) :
  (forall w', In w' before ->
              is_ok (candidate bin_at curve_fit redchisq_of w')) ->
  bin_at w = Ok b ->
  curve_fit b = Raise e ->
  sweep bin_at curve_fit redchisq_of (before ++ w :: after) = Raise e.
Proof.
  intros Hok Hb Hfit.
  apply sweep_raises_at_first_failure; [exact Hok |].
  unfold candidate. rewrite Hb. cbn [bind]. now rewrite Hfit.
Qed.

Lemma sweep_aborts_at_failed_fit_witness :
  sweep Ok fit_fails_at_8 redchisq_one ([] ++ 8 :: [12]) = Raise RuntimeError.
Proof.
  apply (sweep_aborts_at_failed_fit R Ok fit_fails_at_8 redchisq_one
           [] [12] 8 8 RuntimeError).
  - intros w' [].
  - reflexivity.
  - unfold fit_fails_at_8. now rtests.
Defined.

(** C2, as stated, fails: of the candidates 8 and 12 only the first
    has a fit that does not converge, the second goes through on its
    own, and yet the sweep over both returns nothing and ends in the
    solver's exception. *)
Lemma sweep_does_not_skip_failed_width :
  candidate Ok fit_fails_at_8 redchisq_one 8 = Raise RuntimeError
  /\ candidate Ok fit_fails_at_8 redchisq_one 12 = Ok (Fin 1)
  /\ sweep Ok fit_fails_at_8 redchisq_one [8; 12] = Raise RuntimeError.
Proof.
  split; [| split].
  - unfold candidate, fit_fails_at_8. cbn [bind]. now rtests.
  - unfold candidate, fit_fails_at_8. cbn [bind]. now rtests.
  - unfold sweep, sweep_body, fit_fails_at_8.
    cbn [length seq for_each getitem nth_error bind]. now rtests.
Qed.

(** ** The model at work on small inputs *)

Lemma bin_assignment_0_3 :
  bin_assignment [0; 3] 1 = Ok ([0 + 0 * 1; 0 + 1 * 1; 0 + (1 + 1) * 1], [1; 3]%nat).
Proof.
  unfold bin_assignment, py_min, py_max. cbn [fold_left]. rtests. cbn [bind].
  unfold np_arange. rtests.
  rewrite (Zceil_eq 3) by lra.
  change (Z.to_nat 3) with 3%nat. cbn [seq map INR bind].
  unfold np_digitize. cbn [map searchsorted_right]. rtests. reflexivity.
Qed.

(** Samples at 0 and 3 with width 1: edges 0, 1, 2; the bin from 1 to 2
    is empty and leaves no entry. *)
Example bindata_skips_the_empty_bin :
  bindata [0; 3] [2; 6] 1 (Some [1; 1])
  = Ok ([Fin 0; Fin 3], [Fin 2; Fin 6], Some [Fin 1; Fin 1]).
Proof.
  destruct (bindata_occupied [0; 3] [2; 6] (Some [1; 1]) 1)
    as (bins & d & Ea & _ & Eb); try reflexivity; try discriminate; try lra.
  rewrite bin_assignment_0_3 in Ea. injection Ea as <- <-.
  rewrite Eb. unfold occupied_bins, bin_count, members, Rmean, Rerr, Rsum.
  cbn [length seq filter Nat.eqb negb map combine fst snd fold_right INR].
  replace ((1 ^ 2 + 0) : R) with 1 by lra. rewrite sqrt_1.
  repeat f_equal; lra.
Qed.

Lemma bindata_drops_empty_bins_witness :
  exists bins digitized,
    bin_assignment [0; 3] 1 = Ok (bins, digitized)
    /\ (forall i, In i (occupied_bins (length bins) digitized)
                  <-> (1 <= i <= length bins)%nat /\ bin_count digitized i <> O)
    /\ bindata [0; 3] [2; 6] 1 (Some [1; 1])
       = Ok (map (fun i => Fin (Rmean (members digitized i [0; 3])))
               (occupied_bins (length bins) digitized),
             map (fun i => Fin (Rmean (members digitized i [2; 6])))
               (occupied_bins (length bins) digitized),
             Some (map (fun i => Fin (Rerr (members digitized i [1; 1])))
                     (occupied_bins (length bins) digitized))).
Proof.
  apply (bindata_drops_empty_bins [0; 3] [2; 6] (Some [1; 1]) 1).
  - discriminate.
  - reflexivity.
  - reflexivity.
  - lra.
Defined.

Lemma py_min_0_3 : py_min [0; 3] = Ok 0.
Proof. unfold py_min. cbn [fold_left]. now rtests. Qed.

Lemma py_max_0_3 : py_max [0; 3] = Ok 3.
Proof. unfold py_max. cbn [fold_left]. now rtests. Qed.

Lemma bindata_single_bin_witness :
  bindata [0; 3] [2; 6] 5 None = Ok ([Fin (Rmean [0; 3])], [Fin (Rmean [2; 6])], None).
Proof.
  apply (bindata_single_bin [0; 3] [2; 6] 5 0 3).
  - exact py_min_0_3.
  - exact py_max_0_3.
  - lra.
  - lra.
  - reflexivity.
Defined.


Lemma zen_composite_witness :
  exists ecl,
    eclipse [5] (firstn 6 (skipn 1 [2; 0; 1; 0; 1/2; 1/2; 3; 1; 0; 0])) = Ok ecl
    /\ length ecl = 1%nat
    /\ zen [2; 0; 1; 0; 1/2; 1/2; 3; 1; 0; 0] [5] (mkMatrix 1 [[1]]) 1
       = Ok (Array (map3 (composite_sample [2; 0; 1; 0; 1/2; 1/2; 3; 1; 0; 0] 1)
                      [[1]] [5] ecl)).
Proof.
  apply (zen_composite [2; 0; 1; 0; 1/2; 1/2; 3; 1; 0; 0] [5] (mkMatrix 1 [[1]]) 1).
  - reflexivity.
  - reflexivity.
  - repeat constructor.
  - reflexivity.
Defined.

(** One pixel of weight 2 with flux fraction 1, no eclipse, ramp
    constant 1: the model is 2 + 0 + 1. *)
Example zen_flat :
  zen [2; 0; 1; 0; 1/2; 1/2; 3; 1; 0; 0] [5] (mkMatrix 1 [[1]]) 1
  = Ok (Array [Fin 3]).
Proof.
  unfold zen, slice_to_neg, eclipse.
  cbn [length Nat.sub firstn skipn getitem nth_error bind]. rtests.
  cbn [pld_loop getitem nth_error bind column ncols rows Nat.ltb Nat.leb map nth].
  unfold getitem_neg, np_mul, np_add, np_sub, scalar, array.
  cbn [length Nat.leb Nat.sub getitem nth_error bind broadcast2 iadd map
       repeat flift2 Nat.eqb map2].
  repeat f_equal. ring.
Qed.

(** At a depth of -1 the radius ratio is -1 and the separation at first
    contact is 0: there the formula divides 0 by 0, while the mirror
    time, the last contact, lies outside the open egress interval and
    keeps the value 1. *)
Example eclipse_first_contact_at_depth_minus_one :
  eclipse [-1; 2 * 0 - (-1)] [0; 2; -1; 1/2; 1/2; 1] = Ok [NaN; Fin 1].
Proof.
  unfold eclipse; cbn [getitem nth_error bind].
  rtests. cbn [map].
  unfold eclipse_sample, eclipse_contacts; cbn [c_t1 c_t2 c_t3 c_t4 c_p].
  rewrite signed_root_neg by lra.
  replace (- -1) with 1 by lra. rewrite sqrt_1.
  rtests.
  rewrite np_div_fin by lra. cbn [fbind].
  unfold overlap_flux, np_div. rtests. reflexivity.
Qed.

(** The counts of the three bins for samples digitized to 1 and 3. *)
Example bin_counts_with_gap : bin_counts 3 [1; 3]%nat = [1; 0; 1]%nat.
Proof. reflexivity. Qed.

(** ** [get_params]: round trip, surplus entries, ties *)

Lemma free_entries_length (stepsize params : list R) :
  length params = length stepsize ->
  length (free_entries stepsize params) = count_free stepsize.
Proof.
  unfold free_entries, count_free. rewrite length_map.
  revert params; induction stepsize as [| s ss IH]; intros [| v ps] H;
    cbn [length combine filter fst] in *; try discriminate; try reflexivity.
  destruct (Rltb 0 s); cbn [length]; rewrite IH by lia; reflexivity.
Qed.

Lemma free_entries_nth (stepsize params : list R) :
  length params = length stepsize ->
  forall i, (i < length stepsize)%nat -> 0 < nth i stepsize 0 ->
    nth (free_rank stepsize i) (free_entries stepsize params) 0 = nth i params 0.
Proof.
  unfold free_entries, free_rank, count_free.
  revert params; induction stepsize as [| s ss IH]; intros [| v ps] H i Hi Hs;
    cbn [length] in *; try discriminate; try lia.
  destruct i as [| i].
  - cbn [nth firstn filter length combine fst] in *.
    replace (Rltb 0 s) with true by (symmetry; now apply Rltb_true).
    reflexivity.
  - cbn [nth firstn filter combine fst] in *.
    destruct (Rltb 0 s); cbn [length map snd nth]; apply IH; auto; lia.
Qed.

Lemma ties_resolved_without_ties (stepsize : list R) :
  Forall (fun s => 0 <= s) stepsize -> ties_resolved stepsize.
Proof.
  intros H i Hi Hs. rewrite Forall_forall in H.
  specialize (H (nth i stepsize 0) (nth_In stepsize 0 Hi)). lra.
Qed.

(** X1. Expanding undoes reducing: for a step-size vector without ties
    and a full vector of its length, [get_params] applied to the free
    entries of that vector, with the vector itself as prior, returns
    the vector. *)
Theorem get_params_round_trip (stepsize params : list R) :
  length params = length stepsize ->
  Forall (fun s => 0 <= s) stepsize ->
  get_params (free_entries stepsize params) stepsize params = Ok params.
Proof.
  intros Hp Hs.
  pose proof (free_entries_length stepsize params Hp) as Hb.
  destruct (first_pass_ok _ stepsize params Hb Hp) as (a1 & E1 & L1 & V1).
  destruct (second_pass_ok stepsize a1 L1 (ties_resolved_without_ties _ Hs))
    as (a & E2 & L2 & Hfix & _).
  unfold get_params. rewrite E1. cbn [bind snd]. rewrite E2. f_equal.
  apply (nth_ext _ _ 0 0); [lia |].
  intros i Hi. rewrite L2 in Hi.
  rewrite Forall_forall in Hs.
  pose proof (Hs _ (nth_In stepsize 0 Hi)) as Hsi.
  rewrite Hfix by assumption. rewrite V1 by exact Hi.
  unfold first_value.
  destruct (Rltb 0 (nth i stepsize 0)) eqn:E; [| reflexivity].
  apply free_entries_nth; [exact Hp | exact Hi | now apply Rltb_true].
Qed.

Lemma get_params_round_trip_witness :
  get_params (free_entries [1; 0; 2] [7; 8; 9]) [1; 0; 2] [7; 8; 9]
  = Ok [7; 8; 9].
Proof.
  apply (get_params_round_trip [1; 0; 2] [7; 8; 9]).
  - reflexivity.
  - repeat constructor; lra.
Defined.

(** The first loop reads the reduced vector below the number of free
    parameters only. *)
Lemma first_pass_surplus (bestP extra stepsize params : list R) (n : nat) :
  forall (start j : nat) (a : list R),
    (start + n <= length stepsize)%nat ->
    (j + count_free (firstn n (skipn start stepsize)) <= length bestP)%nat ->
    for_each (first_pass_body (bestP ++ extra) stepsize params) (seq start n) (j, a)
    = for_each (first_pass_body bestP stepsize params) (seq start n) (j, a).
Proof.
  induction n as [| n IH]; intros start j a Hn Hc; [reflexivity |].
  cbn [seq for_each]. unfold first_pass_body at 1 3.
  assert (Hs : (start < length stepsize)%nat) by lia.
  rewrite (getitem_nth stepsize start 0 Hs). cbn [bind].
  pose proof (skipn_nth_cons stepsize start 0 Hs) as Esk.
  rewrite Esk in Hc. cbn [firstn] in Hc.
  change (nth start stepsize 0 :: firstn n (skipn (S start) stepsize))
    with ([nth start stepsize 0] ++ firstn n (skipn (S start) stepsize)) in Hc.
  rewrite count_free_app in Hc. unfold count_free at 1 in Hc. cbn [filter] in Hc.
  destruct (Rltb 0 (nth start stepsize 0)) eqn:Es; cbn [length] in Hc.
  - assert (Eg : getitem (bestP ++ extra) j = getitem bestP j).
    { unfold getitem. now rewrite nth_error_app1 by lia. }
    rewrite Eg. destruct (getitem bestP j) as [v |]; cbn [bind]; [| reflexivity].
    destruct (setitem a start v) as [a' |]; cbn [bind]; [| reflexivity].
    apply IH; lia.
  - destruct (getitem params start) as [v |]; cbn [bind]; [| reflexivity].
    destruct (setitem a start v) as [a' |]; cbn [bind]; [| reflexivity].
    apply IH; lia.
Qed.

(** X2. A reduced vector with more entries than there are free
    parameters is not refused: the surplus is never read, and the
    outcome is that of the vector without it. *)
Theorem get_params_ignores_surplus (bestP extra stepsize params : list R) :
  length bestP = count_free stepsize ->
  get_params (bestP ++ extra) stepsize params
  = get_params bestP stepsize params.
Proof.
  intros Hb. unfold get_params.
  rewrite first_pass_surplus; [reflexivity | lia |].
  rewrite skipn_0, firstn_all. lia.
Qed.

Lemma get_params_ignores_surplus_witness :
  get_params ([5] ++ [6; 7]) [1; 0; -1] [7; 8; 9]
  = get_params [5] [1; 0; -1] [7; 8; 9].
Proof.
  apply (get_params_ignores_surplus [5] [6; 7] [1; 0; -1] [7; 8; 9]).
  unfold count_free. cbn [filter]. rtests. reflexivity.
Defined.

Lemma tie_index_nonneg (s : R) : s < 0 -> (0 <= tie_index s)%Z.
Proof.
  intros H. unfold tie_index, py_int.
  destruct (Rleb 0 (- s - 1)) eqn:E.
  - apply Rleb_true in E. apply (Zfloor_lub 0). exact E.
  - apply Rleb_false in E.
    destruct (Zceil_bound (- s - 1)) as [B1 B2].
    assert (H1 : -1 < IZR (Zceil (- s - 1))) by lra.
    apply lt_IZR in H1. lia.
Qed.

(** The second loop from turn [start] on: a tie that points past the
    end of the vector ends it in an [IndexError]. *)
Lemma second_pass_out_of_range (stepsize : list R) (n : nat) :
  forall (start : nat) (a : list R) (i : nat),
    (start + n <= length stepsize)%nat ->
    length a = length stepsize ->
    (start <= i < start + n)%nat ->
    nth i stepsize 0 < 0 ->
    Z.le (Z.of_nat (length stepsize)) (tie_index (nth i stepsize 0)) ->
    for_each (second_pass_body stepsize) (seq start n) a = Raise IndexError.
Proof.
  induction n as [| n IH]; intros start a i Hn La Hi Hs Hk; [lia |].
  cbn [seq for_each]. unfold second_pass_body at 1.
  rewrite (getitem_nth stepsize start 0) by lia. cbn [bind].
  destruct (Nat.eq_dec i start) as [-> | Hne].
  - replace (Rltb (nth start stepsize 0) 0) with true
      by (symmetry; now apply Rltb_true).
    fold (tie_index (nth start stepsize 0)).
    unfold getitem_Z.
    pose proof (tie_index_nonneg _ Hs) as H0.
    apply Z.leb_le in H0. rewrite H0.
    unfold getitem.
    assert (E : nth_error a (Z.to_nat (tie_index (nth start stepsize 0))) = None)
      by (apply nth_error_None; lia).
    rewrite E. reflexivity.
  - destruct (Rltb (nth start stepsize 0) 0); cbn [bind].
    + destruct (getitem_Z a (py_int (- nth start stepsize 0 - 1))) as [v |] eqn:Eg.
      * cbn [bind]. rewrite setitem_ok by lia. cbn [bind].
        apply (IH (S start) _ i); try assumption; try lia.
        rewrite upd_length; lia.
      * cbn [bind]. unfold getitem_Z, getitem_neg, getitem in Eg.
        repeat match type of Eg with
               | context [if ?c then _ else _] => destruct c
               | context [match ?c with _ => _ end] => destruct c
               end; congruence.
    + apply (IH (S start) _ i); try assumption; lia.
Qed.

(** X3. A tie that names an index past the end of the vector makes
    [get_params] raise [IndexError]: nothing is returned, whatever the
    other entries are. *)
Theorem get_params_tie_out_of_range (bestP stepsize params : list R) (i : nat) :
  length bestP = count_free stepsize ->
  length params = length stepsize ->
  (i < length stepsize)%nat ->
  nth i stepsize 0 < 0 ->
  Z.le (Z.of_nat (length stepsize)) (tie_index (nth i stepsize 0)) ->
  get_params bestP stepsize params = Raise IndexError.
Proof.
  intros Hb Hp Hi Hs Hk.
  destruct (first_pass_ok bestP stepsize params Hb Hp) as (a1 & E1 & L1 & _).
  unfold get_params. rewrite E1. cbn [bind snd].
  apply (second_pass_out_of_range stepsize _ 0 a1 i); auto; lia.
Qed.

Lemma tie_index_IZR (z : Z) : tie_index (- IZR z - 1) = z.
Proof.
  unfold tie_index. replace (- (- IZR z - 1) - 1) with (IZR z) by lra.
  apply py_int_IZR.
Qed.

Lemma get_params_tie_out_of_range_witness :
  get_params [5] [1; 0; -4] [7; 8; 9] = Raise IndexError.
Proof.
  apply (get_params_tie_out_of_range [5] [1; 0; -4] [7; 8; 9] 2).
  - unfold count_free. cbn [filter]. rtests. reflexivity.
  - reflexivity.
  - cbn [length]. lia.
  - cbn [nth]. lra.
  - cbn [nth length].
    replace (-4) with (- IZR 3 - 1) by lra. rewrite tie_index_IZR. lia.
Defined.

(** The second loop with ties that may point at tied entries: the
    entries are resolved in the order of the indices, each from what the
    array holds at that moment. *)
Lemma second_pass_in_order (stepsize a1 : list R) :
  length a1 = length stepsize ->
  ties_in_range stepsize ->
  exists a,
    for_each (second_pass_body stepsize) (seq 0 (length stepsize)) a1 = Ok a
    /\ length a = length stepsize
    /\ (forall k, (k < length stepsize)%nat -> 0 <= nth k stepsize 0 ->
                  nth k a 0 = nth k a1 0)
    /\ (forall k, (k < length stepsize)%nat -> nth k stepsize 0 < 0 ->
          (tie_target stepsize k < k)%nat ->
          nth k a 0 = nth (tie_target stepsize k) a 0)
    /\ (forall k, (k < length stepsize)%nat -> nth k stepsize 0 < 0 ->
          (k <= tie_target stepsize k)%nat ->
          nth k a 0 = nth (tie_target stepsize k) a1 0).
Proof.
  intros Hlen Hties.
  set (n := length stepsize) in *.
  set (tgt := tie_target stepsize).
  destruct (for_each_invariant (second_pass_body stepsize)
    (fun i a => length a = n
       /\ (forall k, (i <= k < n)%nat -> nth k a 0 = nth k a1 0)
       /\ (forall k, (k < n)%nat -> 0 <= nth k stepsize 0 -> nth k a 0 = nth k a1 0)
       /\ (forall k, (k < i)%nat -> nth k stepsize 0 < 0 -> (tgt k < k)%nat ->
                     nth k a 0 = nth (tgt k) a 0)
       /\ (forall k, (k < i)%nat -> nth k stepsize 0 < 0 -> (k <= tgt k)%nat ->
                     nth k a 0 = nth (tgt k) a1 0))
    n O a1) as (a & E & Ha & _ & Hfix & Hback & Hfwd).
  - repeat split; auto; intros; lia.
  - intros i a Hi (Ha & Hrest & Hfix & Hback & Hfwd).
    unfold second_pass_body.
    rewrite (getitem_nth stepsize i 0) by (fold n; lia). cbn [bind].
    destruct (Rltb (nth i stepsize 0) 0) eqn:Es.
    + apply Rltb_true in Es.
      pose proof (Hties i ltac:(fold n; lia) Es) as Hr. fold n in Hr.
      pose proof (tie_index_nonneg _ Es) as H0.
      fold (tie_index (nth i stepsize 0)).
      rewrite <- (Z2Nat.id (tie_index (nth i stepsize 0))) by exact H0.
      rewrite getitem_Z_nat. fold (tie_target stepsize i). fold (tgt i).
      assert (Ht : (tgt i < n)%nat) by (unfold tgt, tie_target; lia).
      rewrite (getitem_nth a (tgt i) 0) by lia. cbn [bind].
      rewrite setitem_ok by lia.
      eexists; split; [reflexivity |].
      split; [| split; [| split; [| split]]].
      * rewrite upd_length; lia.
      * intros k Hk. rewrite upd_nth_other by lia. apply Hrest. lia.
      * intros k Hk Hsk. rewrite upd_nth_other; [auto | lia |].
        intros ->. lra.
      * intros k Hk Hsk Hlt.
        destruct (Nat.eq_dec k i) as [-> | Hne].
        -- rewrite upd_nth_same by lia. now rewrite upd_nth_other by lia.
        -- rewrite !upd_nth_other by lia. apply Hback; auto. lia.
      * intros k Hk Hsk Hge.
        destruct (Nat.eq_dec k i) as [-> | Hne].
        -- rewrite upd_nth_same by lia. apply Hrest. lia.
        -- rewrite upd_nth_other by lia. apply Hfwd; auto. lia.
    + apply Rltb_false in Es.
      eexists; split; [reflexivity |].
      split; [exact Ha |]. split; [| split; [exact Hfix | split]].
      * intros k Hk. apply Hrest. lia.
      * intros k Hk Hsk Hlt.
        destruct (Nat.eq_dec k i) as [-> | Hne]; [lra |].
        apply Hback; auto. lia.
      * intros k Hk Hsk Hge.
        destruct (Nat.eq_dec k i) as [-> | Hne]; [lra |].
        apply Hfwd; auto. lia.
  - exists a. split; [exact E |]. split; [exact Ha |]. split; [exact Hfix |].
    split.
    + intros k Hk. apply Hback. lia.
    + intros k Hk. apply Hfwd. lia.
Qed.

(** X4. With every tie inside the vector, chained or not, [get_params]
    returns. A tie to an earlier index holds the final value of that
    index. A tie to itself or to a later index that is fixed or tied
    holds the prior value of that index: the chain is not followed. *)
Theorem get_params_chained_ties (bestP stepsize params : list R) :
  length bestP = count_free stepsize ->
  length params = length stepsize ->
  ties_in_range stepsize ->
  exists allParams,
    get_params bestP stepsize params = Ok allParams
    /\ forall i, (i < length stepsize)%nat -> nth i stepsize 0 < 0 ->
         ((tie_target stepsize i < i)%nat ->
            nth i allParams 0
            = nth (tie_target stepsize i) allParams 0)
         /\ ((i <= tie_target stepsize i)%nat ->
             nth (tie_target stepsize i) stepsize 0 <= 0 ->
             nth i allParams 0
             = nth (tie_target stepsize i) params 0).
Proof.
  intros Hb Hp Hties.
  destruct (first_pass_ok bestP stepsize params Hb Hp) as (a1 & E1 & L1 & V1).
  destruct (second_pass_in_order stepsize a1 L1 Hties)
    as (a & E2 & L2 & _ & Hback & Hfwd).
  exists a. unfold get_params. rewrite E1. cbn [bind snd].
  split; [exact E2 |].
  intros i Hi Hs. split.
  - intros Hlt. now apply Hback.
  - intros Hge Hsj. rewrite Hfwd by assumption.
    pose proof (Hties i Hi Hs) as Hr.
    pose proof (tie_index_nonneg _ Hs) as H0.
    rewrite V1 by (unfold tie_target; lia). unfold first_value.
    now replace (Rltb 0 (nth (tie_target stepsize i) stepsize 0))
      with false by (symmetry; apply Rltb_false; lra).
Qed.

(** Index 0 is tied to index 1, which is tied to index 2: index 0 gets
    the prior value of index 1, not the value of index 2. *)
Example get_params_chain :
  get_params [] [-2; -3; 0] [7; 8; 9] = Ok [8; 9; 9].
Proof.
  unfold get_params, first_pass_body, second_pass_body.
  cbn [length seq for_each getitem nth_error bind repeat].
  rtests. cbn [getitem nth_error bind setitem length Nat.ltb Nat.leb firstn skipn app snd].
  rtests. cbn [getitem nth_error bind setitem length Nat.ltb Nat.leb firstn skipn app snd].
  rtests. cbn [getitem nth_error bind setitem length Nat.ltb Nat.leb firstn skipn app snd].
  rtests.
  replace (- -2 - 1) with (IZR 1) by lra. rewrite py_int_IZR.
  cbn [getitem_Z Z.leb Z.compare Z.to_nat Pos.to_nat Pos.iter_op Nat.add
       getitem nth_error bind setitem length Nat.ltb Nat.leb firstn skipn app].
  rtests.
  replace (- -3 - 1) with (IZR 2) by lra. rewrite py_int_IZR.
  cbn [getitem_Z Z.leb Z.compare Z.to_nat Pos.to_nat Pos.iter_op Nat.add
       getitem nth_error bind setitem length Nat.ltb Nat.leb firstn skipn app].
  rtests. reflexivity.
Qed.

Lemma ties_in_range_chain : ties_in_range [-2; -3; 0].
Proof.
  intros i Hi Hs. cbn [length] in *.
  destruct i as [| [| [| i]]]; cbn [nth] in *; try lra; try lia.
  - replace (-2) with (- IZR 1 - 1) by lra. rewrite tie_index_IZR. lia.
  - replace (-3) with (- IZR 2 - 1) by lra. rewrite tie_index_IZR. lia.
Qed.

Lemma get_params_chained_ties_witness :
  exists allParams,
    get_params [] [-2; -3; 0] [7; 8; 9] = Ok allParams
    /\ nth 0 allParams 0 = 8.
Proof.
  destruct (get_params_chained_ties [] [-2; -3; 0] [7; 8; 9])
    as (a & E & H).
  - unfold count_free. cbn [filter]. rtests. reflexivity.
  - reflexivity.
  - exact ties_in_range_chain.
  - exists a. split; [exact E |].
    destruct (H 0%nat) as [_ H0]; [cbn [length]; lia | cbn [nth]; lra |].
    unfold tie_target in H0. cbn [nth] in H0.
    replace (-2) with (- IZR 1 - 1) in H0 by lra.
    rewrite tie_index_IZR in H0. change (Z.to_nat 1) with 1%nat in H0.
    cbn [nth] in H0. apply H0; [apply Nat.le_0_l | lra].
Defined.

(** ** [bindata]: degenerate input, size and conservation *)

(** An empty [x] makes [bindata] raise [ValueError], at [min(x)],
    whatever the other arguments are. *)
Lemma bindata_empty_input (y : list R) (width : R) (yerr : option (list R)) :
  bindata [] y width yerr = Raise ValueError.
Proof. reflexivity. Qed.

Lemma py_min_le_max (x : list R) (lo hi : R) :
  py_min x = Ok lo -> py_max x = Ok hi -> lo <= hi.
Proof.
  intros Elo Ehi.
  assert (Hne : x <> []) by (intros ->; discriminate).
  destruct (py_min_spec x Hne) as (lo' & Elo' & Hin & _).
  destruct (py_max_spec x Hne) as (hi' & Ehi' & _ & Hmax).
  assert (lo' = lo) as -> by congruence.
  assert (hi' = hi) as -> by congruence.
  rewrite Forall_forall in Hmax. now apply Hmax.
Qed.

(** X5. When all the samples have the same x, or the width is
    negative, [np.arange] gives no edge and [bindata] returns empty
    arrays: every sample is dropped and nothing is raised, whatever the
    lengths of [y] and [yerr].  ([np.digitize] is that of the NumPy
    releases that accept an array of no edges.) *)
Theorem bindata_no_bins
  (x y : list R) (width lo hi : R) (yerr : option (list R)) :
  py_min x = Ok lo -> py_max x = Ok hi ->
  (lo = hi /\ width <> 0) \/ width < 0 ->
  bindata x y width yerr
  = Ok ([], [], match yerr with Some _ => Some [] | None => None end).
Proof.
  intros Elo Ehi Hdeg.
  pose proof (py_min_le_max x lo hi Elo Ehi) as Hle.
  assert (Hw : width <> 0) by (destruct Hdeg as [[_ H] | H]; lra).
  unfold bindata. rewrite Elo, Ehi. cbn [bind]. unfold np_arange.
  replace (Reqb width 0) with false by (symmetry; now apply Reqb_false).
  assert (Hz : (Zceil ((hi - lo) / width) <= 0)%Z).
  { destruct (Zceil_bound ((hi - lo) / width)) as [B1 _].
    assert (Hq : (hi - lo) / width <= 0).
    { destruct Hdeg as [[-> _] | Hneg].
      - unfold Rdiv. rewrite Rminus_diag, Rmult_0_l. lra.
      - assert (E : (hi - lo) / width * width = hi - lo) by (field; lra).
        nra. }
    assert (H1 : IZR (Zceil ((hi - lo) / width)) < 1) by lra.
    apply lt_IZR in H1. lia. }
  replace (Z.to_nat (Zceil ((hi - lo) / width))) with O by lia.
  cbn [bind seq map length for_each repeat].
  cbn [bin_means_x bin_means_y bin_means_yerr binmask].
  destruct yerr; reflexivity.
Qed.

Lemma bindata_no_bins_witness :
  bindata [2; 2; 2] [1; 5] 1 None = Ok ([], [], None).
Proof.
  apply (bindata_no_bins [2; 2; 2] [1; 5] 1 2 2 None).
  - unfold py_min. cbn [fold_left]. now rtests.
  - unfold py_max. cbn [fold_left]. now rtests.
  - left. split; [reflexivity | lra].
Defined.

Lemma bin_counts_at_most (nbins : nat) (digitized : list nat) :
  (list_sum (bin_counts nbins digitized) <= length digitized)%nat.
Proof.
  unfold bin_counts.
  induction digitized as [| d ds IH]; cbn [length].
  - unfold bin_count. cbn [filter length].
    induction (seq 1 nbins) as [| i l IHl]; cbn [map]; [reflexivity |].
    rewrite list_sum_cons. cbn [Nat.add]. exact IHl.
  - rewrite (map_ext (bin_count (d :: ds))
               (fun i => (if (d =? i)%nat then 1 else 0) + bin_count ds i)%nat).
    + rewrite list_sum_map_add, count_indicator.
      destruct ((1 <=? d) && (d <? 1 + nbins))%nat; lia.
    + intros i. unfold bin_count. cbn [filter].
      destruct (d =? i)%nat; reflexivity.
Qed.

Lemma occupied_at_most_counts (digitized : list nat) (l : list nat) :
  (length (filter (fun i => negb (bin_count digitized i =? 0)%nat) l)
   <= list_sum (map (bin_count digitized) l))%nat.
Proof.
  induction l as [| i l IH]; cbn [filter map]; [reflexivity |].
  rewrite list_sum_cons.
  destruct (bin_count digitized i =? 0)%nat eqn:E; cbn [negb length].
  - lia.
  - apply Nat.eqb_neq in E. lia.
Qed.

(** X6. [bindata] fabricates nothing: the arrays it returns are of one
    length, which is at most the number of samples and at most the
    number of edges. *)
Theorem bindata_output_size
  (x y : list R) (yerr : option (list R)) (width : R) :
  x <> [] -> length y = length x ->
  match yerr with Some e => length e = length x | None => True end ->
  0 < width ->
  exists bins digitized bx by_ be,
    bin_assignment x width = Ok (bins, digitized)
    /\ bindata x y width yerr = Ok (bx, by_, be)
    /\ length by_ = length bx
    /\ match be with Some e => length e = length bx | None => yerr = None end
    /\ (length bx <= length x)%nat
    /\ (length bx <= length bins)%nat.
Proof.
  intros Hne Hy He Hw.
  destruct (bindata_occupied x y yerr width Hne Hy He ltac:(lra))
    as (bins & d & Ea & Ld & Eb).
  exists bins, d. do 3 eexists. split; [exact Ea |]. split; [exact Eb |].
  rewrite !length_map.
  split; [reflexivity |]. split; [destruct yerr; [apply length_map | reflexivity] |].
  split.
  - rewrite <- Ld. unfold occupied_bins.
    etransitivity; [apply occupied_at_most_counts |]. apply bin_counts_at_most.
  - unfold occupied_bins.
    etransitivity; [apply filter_length_le |]. now rewrite length_seq.
Qed.

Lemma bindata_output_size_witness :
  exists bins digitized bx by_ be,
    bin_assignment [0; 3] 1 = Ok (bins, digitized)
    /\ bindata [0; 3] [2; 6] 1 None = Ok (bx, by_, be)
    /\ length by_ = length bx
    /\ match be with Some e => length e = length bx | None => @None (list R) = None end
    /\ (length bx <= 2)%nat
    /\ (length bx <= length bins)%nat.
Proof.
  apply (bindata_output_size [0; 3] [2; 6] None 1).
  - discriminate.
  - reflexivity.
  - exact I.
  - lra.
Defined.

(** The edges and bin indices are those of [np.arange] and
    [np.digitize]. *)
Lemma bin_assignment_shape (x : list R) (width : R) (bins : list R)
  (digitized : list nat) (lo : R) :
  py_min x = Ok lo -> width <> 0 ->
  bin_assignment x width = Ok (bins, digitized) ->
  bins = map (fun k => lo + INR k * width) (seq 0 (length bins))
  /\ digitized = np_digitize x bins.
Proof.
  intros Elo Hw Ea. unfold bin_assignment in Ea. rewrite Elo in Ea.
  cbn [bind] in Ea. destruct (py_max x) as [hi |]; [| discriminate].
  cbn [bind] in Ea. unfold np_arange in Ea.
  replace (Reqb width 0) with false in Ea by (symmetry; now apply Reqb_false).
  cbn [bind] in Ea. injection Ea as <- <-.
  split; [| reflexivity].
  now rewrite length_map, length_seq.
Qed.

(** X8. The x values that [bindata] returns depend on [x] and the
    width only: binning another series over the same [x] gives the same
    binned x. *)
Theorem bindata_phase_reused
  (x y y' : list R) (yerr yerr' : option (list R)) (width : R) :
  x <> [] -> length y = length x -> length y' = length x ->
  match yerr with Some e => length e = length x | None => True end ->
  match yerr' with Some e => length e = length x | None => True end ->
  0 < width ->
  exists bx by_ be by' be',
    bindata x y width yerr = Ok (bx, by_, be)
    /\ bindata x y' width yerr' = Ok (bx, by', be').
Proof.
  intros Hne Hy Hy' He He' Hw.
  destruct (bindata_occupied x y yerr width Hne Hy He ltac:(lra))
    as (bins & d & Ea & _ & Eb).
  destruct (bindata_occupied x y' yerr' width Hne Hy' He' ltac:(lra))
    as (bins' & d' & Ea' & _ & Eb').
  rewrite Ea in Ea'. injection Ea' as <- <-.
  do 5 eexists. split; [exact Eb | exact Eb'].
Qed.

Lemma bindata_phase_reused_witness :
  exists bx by_ be by' be',
    bindata [0; 3] [2; 6] 1 None = Ok (bx, by_, be)
    /\ bindata [0; 3] [4; 4] 1 (Some [1; 1]) = Ok (bx, by', be').
Proof.
  apply (bindata_phase_reused [0; 3] [2; 6] [4; 4] None (Some [1; 1]) 1);
    try reflexivity; try exact I; try discriminate; lra.
Defined.

Lemma Rsum_cons (v : R) (l : list R) : Rsum (v :: l) = v + Rsum l.
Proof. reflexivity. Qed.

Lemma Rsum_map_add (f g : nat -> R) (l : list nat) :
  Rsum (map (fun i => f i + g i) l) = Rsum (map f l) + Rsum (map g l).
Proof.
  induction l as [| i l IH]; cbn [map]; rewrite ?Rsum_cons.
  - unfold Rsum. cbn [fold_right]. lra.
  - rewrite IH. lra.
Qed.

Lemma Rsum_indicator (d : nat) (v : R) (n : nat) :
  forall a,
    Rsum (map (fun i => if (d =? i)%nat then v else 0) (seq a n))
    = if ((a <=? d) && (d <? a + n))%nat then v else 0.
Proof.
  induction n as [| n IH]; intros a; cbn [seq map].
  - destruct (a <=? d)%nat eqn:E1; cbn [andb]; [| reflexivity].
    replace (d <? a + 0)%nat with false; [reflexivity |].
    symmetry. apply Nat.ltb_ge. apply Nat.leb_le in E1. lia.
  - rewrite Rsum_cons, IH.
    destruct (d =? a)%nat eqn:E.
    + apply Nat.eqb_eq in E. subst d.
      replace (S a <=? a)%nat with false by (symmetry; apply Nat.leb_gt; lia).
      replace (a <=? a)%nat with true by (symmetry; apply Nat.leb_le; lia).
      replace (a <? a + S n)%nat with true by (symmetry; apply Nat.ltb_lt; lia).
      cbn [andb]. lra.
    + apply Nat.eqb_neq in E.
      destruct (a <=? d)%nat eqn:E1, (S a <=? d)%nat eqn:E2,
               (d <? a + S n)%nat eqn:E3, (d <? S a + n)%nat eqn:E4;
        cbn [andb]; try lra; exfalso;
        rewrite ?Nat.leb_le, ?Nat.leb_gt, ?Nat.ltb_lt, ?Nat.ltb_ge in *; lia.
Qed.

(** The sums over the bins add up to the sum over the samples. *)
Lemma members_partition (nbins : nat) (digitized : list nat) :
  Forall (fun d => (1 <= d <= nbins)%nat) digitized ->
  forall y, length y = length digitized ->
    Rsum (map (fun i => Rsum (members digitized i y)) (seq 1 nbins)) = Rsum y.
Proof.
  induction 1 as [| d ds Hd _ IH]; intros [| v vs] Hy; cbn [length] in Hy;
    try discriminate.
  - unfold members. cbn [combine filter map].
    induction (seq 1 nbins) as [| i l IHl]; cbn [map]; [reflexivity |].
    rewrite Rsum_cons, IHl. unfold Rsum. cbn [fold_right]. lra.
  - rewrite (map_ext (fun i => Rsum (members (d :: ds) i (v :: vs)))
               (fun i => (if (d =? i)%nat then v else 0) + Rsum (members ds i vs))).
    + rewrite Rsum_map_add, Rsum_indicator, IH by lia.
      replace ((1 <=? d) && (d <? 1 + nbins))%nat with true; [now rewrite Rsum_cons |].
      symmetry. apply andb_true_iff. split;
        [apply Nat.leb_le | apply Nat.ltb_lt]; lia.
    + intros i. unfold members. cbn [combine filter fst].
      destruct (d =? i)%nat; cbn [map snd]; rewrite ?Rsum_cons; lra.
Qed.

Lemma weighted_means (digitized : list nat) (y : list R) (l : list nat) :
  length y = length digitized ->
  Rsum (map (fun i => INR (bin_count digitized i) * Rmean (members digitized i y))
          (filter (fun i => negb (bin_count digitized i =? 0)%nat) l))
  = Rsum (map (fun i => Rsum (members digitized i y)) l).
Proof.
  intros Hy. induction l as [| i l IH]; cbn [filter map]; [reflexivity |].
  rewrite Rsum_cons, <- IH.
  pose proof (members_length digitized y i Hy) as Hc.
  destruct (bin_count digitized i =? 0)%nat eqn:E; cbn [negb map].
  - apply Nat.eqb_eq in E. rewrite E in Hc.
    destruct (members digitized i y); [| discriminate].
    unfold Rsum at 2. cbn [fold_right]. lra.
  - apply Nat.eqb_neq in E. rewrite Rsum_cons. f_equal.
    unfold Rmean. rewrite Hc. field. now apply not_0_INR.
Qed.

(** X9. [bindata] conserves the total: for samples that are not all
    equal and a positive width, the binned y values weighted by the
    sample counts of their bins add up to the sum of all the y. *)
Theorem bindata_conserves_sum
  (x y : list R) (yerr : option (list R)) (width lo hi : R) :
  py_min x = Ok lo -> py_max x = Ok hi -> lo < hi -> 0 < width ->
  length y = length x ->
  match yerr with Some e => length e = length x | None => True end ->
  exists bins digitized bx ys be,
    bin_assignment x width = Ok (bins, digitized)
    /\ bindata x y width yerr = Ok (bx, map Fin ys, be)
    /\ Rsum (map2 (fun i m => INR (bin_count digitized i) * m)
               (occupied_bins (length bins) digitized) ys)
       = Rsum y.
Proof.
  intros Elo Ehi Hr Hw Hy He.
  assert (Hne : x <> []) by (intros ->; discriminate).
  destruct (bindata_occupied x y yerr width Hne Hy He ltac:(lra))
    as (bins & d & Ea & Ld & Eb).
  destruct (bin_assignment_shape x width bins d lo Elo ltac:(lra) Ea)
    as (Ebins & Ed).
  destruct (py_min_spec x Hne) as (lo' & Elo' & _ & Hmin).
  assert (lo' = lo) as -> by congruence.
  destruct (arange_edges lo hi width Hw Hr) as (n & En & Earange & _).
  assert (Hb : exists r, bins = lo :: r).
  { unfold bin_assignment in Ea. rewrite Elo, Ehi in Ea. cbn [bind] in Ea.
    rewrite Earange in Ea. cbn [bind] in Ea. injection Ea as <- _.
    cbn [seq map INR]. eexists. f_equal. lra. }
  assert (Hrange : Forall (fun k => (1 <= k <= length bins)%nat) d).
  { rewrite Ed. unfold np_digitize. apply Forall_map.
    rewrite Forall_forall in Hmin |- *. intros v Hv. split.
    - destruct Hb as (r & ->). apply searchsorted_from_first. now apply Hmin.
    - apply searchsorted_le_length. }
  exists bins, d. eexists.
  exists (map (fun i => Rmean (members d i y)) (occupied_bins (length bins) d)).
  eexists. split; [exact Ea |]. split.
  { rewrite Eb, map_map. reflexivity. }
  rewrite map2_map_r, map2_diag. unfold occupied_bins.
  rewrite weighted_means by lia.
  apply members_partition; [exact Hrange | lia].
Qed.

Lemma bindata_conserves_sum_witness :
  exists bins digitized bx ys be,
    bin_assignment [0; 3] 1 = Ok (bins, digitized)
    /\ bindata [0; 3] [2; 6] 1 None = Ok (bx, map Fin ys, be)
    /\ Rsum (map2 (fun i m => INR (bin_count digitized i) * m)
               (occupied_bins (length bins) digitized) ys)
       = Rsum [2; 6].
Proof.
  apply (bindata_conserves_sum [0; 3] [2; 6] None 1 0 3).
  - exact py_min_0_3.
  - exact py_max_0_3.
  - lra.
  - lra.
  - reflexivity.
  - exact I.
Defined.

(** ** [eclipse]: short parameter lists, the midpoint, outside the
    eclipse *)

(** X10. With fewer than six parameters [eclipse] raises [IndexError],
    for every list of times, the empty one included. *)
Theorem eclipse_too_few_parameters (t eclparams : list R) :
  (length eclparams < 6)%nat -> eclipse t eclparams = Raise IndexError.
Proof.
  intros H.
  destruct eclparams as [| e0 [| e1 [| e2 [| e3 [| e4 [| e5 r]]]]]];
    cbn [length] in H; try lia; reflexivity.
Qed.

Lemma eclipse_too_few_parameters_witness :
  eclipse [1; 2] [0; 2; 1/4; 1/2; 1/2] = Raise IndexError.
Proof.
  apply (eclipse_too_few_parameters [1; 2] [0; 2; 1/4; 1/2; 1/2]).
  cbn [length]. lia.
Defined.

Lemma eclipse_samples (t : list R) (midpt width depth t12 t34 flux : R) :
  exists y,
    eclipse t [midpt; width; depth; t12; t34; flux] = Ok y
    /\ forall k tk, nth_error t k = Some tk ->
         nth_error y k
         = Some (if Reqb depth 0 then Fin 1
                 else eclipse_sample
                        (eclipse_contacts midpt width depth t12 t34)
                        depth t12 t34 tk).
Proof.
  unfold eclipse; cbn [getitem nth_error bind].
  destruct (Reqb depth 0); eexists; (split; [reflexivity |]); intros k tk Hk.
  - apply nth_error_repeat. apply nth_error_Some. congruence.
  - rewrite nth_error_map, Hk. reflexivity.
Qed.

(** X11. At the midpoint the model is [1 - depth], whatever the width
    and the ingress and egress durations are, a width of zero or below
    included. *)
Theorem eclipse_at_midpoint (t : list R) (midpt width depth t12 t34 flux : R) :
  exists y,
    eclipse t [midpt; width; depth; t12; t34; flux] = Ok y
    /\ forall k, nth_error t k = Some midpt ->
                 nth_error y k = Some (Fin (1 - depth)).
Proof.
  destruct (eclipse_samples t midpt width depth t12 t34 flux) as (y & E & H).
  exists y. split; [exact E |]. intros k Hk. rewrite (H k midpt Hk).
  destruct (Reqb depth 0) eqn:E0.
  - apply Reqb_true in E0. subst depth. do 2 f_equal. lra.
  - destruct (contacts_order midpt width depth t12 t34) as (_ & _ & Hm & _).
    unfold eclipse_sample. now rtests.
Qed.

(** X12. With a width and ingress and egress durations that are not
    negative, the model is exactly 1 at every time before
    [midpoint - width/2] and after [midpoint + width/2]. *)
Theorem eclipse_outside (t : list R) (midpt width depth t12 t34 flux : R) :
  0 <= width -> 0 <= t12 -> 0 <= t34 ->
  exists y,
    eclipse t [midpt; width; depth; t12; t34; flux] = Ok y
    /\ forall k tk, nth_error t k = Some tk ->
         tk < midpt - width / 2 \/ midpt + width / 2 < tk ->
         nth_error y k = Some (Fin 1).
Proof.
  intros Hw H12 H34.
  destruct (eclipse_samples t midpt width depth t12 t34 flux) as (y & E & H).
  exists y. split; [exact E |]. intros k tk Hk Hout. rewrite (H k tk Hk).
  destruct (Reqb depth 0); [reflexivity |]. f_equal.
  unfold eclipse_contacts. do 2 rcase;
    unfold eclipse_sample; cbn [c_t1 c_t2 c_t3 c_t4 c_p];
    destruct Hout as [Hb | Ha]; repeat rcase; try reflexivity; lra.
Qed.

Lemma eclipse_outside_witness :
  exists y,
    eclipse [-3; 0; 3] [0; 2; 1/4; 1/2; 1/2; 1] = Ok y
    /\ forall k tk, nth_error [-3; 0; 3] k = Some tk ->
         tk < 0 - 2 / 2 \/ 0 + 2 / 2 < tk ->
         nth_error y k = Some (Fin 1).
Proof.
  apply (eclipse_outside [-3; 0; 3] 0 2 (1/4) (1/2) (1/2) 1); lra.
Defined.

(** ** [zen]: longer and shorter vectors, no eclipse, shapes *)

Lemma eclipse_first_six (t eclparams : list R) :
  (6 <= length eclparams)%nat ->
  eclipse t eclparams = eclipse t (firstn 6 eclparams).
Proof.
  intros H.
  destruct eclparams as [| e0 [| e1 [| e2 [| e3 [| e4 [| e5 r]]]]]];
    cbn [length] in H; try lia; reflexivity.
Qed.

(** [zen] for a vector of [npix + 9] entries or more and a [phat] of
    [npix] columns or more. *)
Lemma zen_general (par x : list R) (phat : matrix) (npix : nat) :
  (npix + 9 <= length par)%nat ->
  (npix <= ncols phat)%nat -> matrix_wf phat ->
  length (rows phat) = length x ->
  exists ecl,
    eclipse x (firstn 6 (skipn npix par)) = Ok ecl
    /\ length ecl = length x
    /\ zen par x phat npix
       = Ok (Array (map3 (zen_sample par npix) (rows phat) x ecl)).
Proof.
  intros Hp Hc Hwf Hr.
  unfold zen.
  set (ep := slice_to_neg par npix 3).
  assert (Lep : length ep = (length par - 3 - npix)%nat).
  { unfold ep, slice_to_neg. rewrite length_skipn, length_firstn. lia. }
  assert (E6 : firstn 6 ep = firstn 6 (skipn npix par)).
  { unfold ep, slice_to_neg. rewrite skipn_firstn_comm, firstn_firstn.
    f_equal. lia. }
  rewrite (eclipse_first_six x ep) by lia. rewrite E6.
  assert (L6 : length (firstn 6 (skipn npix par)) = 6%nat).
  { rewrite length_firstn, length_skipn. lia. }
  destruct (eclipse_ok x _ L6) as (ecl & Ee & Le).
  exists ecl. split; [exact Ee |]. split; [exact Le |].
  rewrite Ee. cbn [bind].
  pose proof (pld_loop_ok par phat npix 0 ltac:(lia) ltac:(lia)) as El.
  change (pld_after par phat 0) with (scalar 0) in El.
  rewrite El. cbn [bind]. rewrite Nat.add_0_l.
  unfold getitem_neg. rewrite Lep.
  replace (1 <=? length par - 3 - npix)%nat with true
    by (symmetry; apply Nat.leb_le; lia).
  replace (3 <=? length par)%nat with true by (symmetry; apply Nat.leb_le; lia).
  replace (2 <=? length par)%nat with true by (symmetry; apply Nat.leb_le; lia).
  replace (1 <=? length par)%nat with true by (symmetry; apply Nat.leb_le; lia).
  rewrite (getitem_nth ep _ 0) by lia.
  rewrite !(getitem_nth par _ 0) by lia.
  cbn [bind].
  unfold np_sub, np_mul, np_add, scalar, array. cbn [broadcast2 bind].
  rewrite !length_map. rewrite Nat.eqb_refl.
  replace (nth (length par - 3 - npix - 1) ep 0) with (nth (length par - 4) par 0).
  2:{ unfold ep, slice_to_neg. rewrite nth_skipn, nth_firstn.
      replace (npix + (length par - 3 - npix - 1) <? length par - 3)%nat
        with true by (symmetry; apply Nat.ltb_lt; lia).
      f_equal. lia. }
  assert (Epld : forall L, length L = length x ->
    broadcast2 (flift2 Rplus) (pld_after par phat npix) (Array L)
    = Ok (Array (map2 (flift2 Rplus)
                   (map (fun row => Fin (pixel_sum (firstn npix par) row))
                      (rows phat)) L))).
  { intros L HL. destruct npix as [| n] eqn:En.
    - unfold pld_after, scalar. cbn [broadcast2 firstn pixel_sum].
      rewrite map2_const_l by lia. reflexivity.
    - unfold pld_after. cbn [broadcast2]. rewrite length_map.
      replace (length (rows phat) =? length L)%nat with true
        by (symmetry; apply Nat.eqb_eq; lia).
      do 3 f_equal. apply map_ext_in. intros row Hrow. f_equal.
      apply pld_partial_pixel_sum; [lia |].
      unfold matrix_wf in Hwf. rewrite Forall_forall in Hwf.
      rewrite (Hwf row Hrow). lia. }
  rewrite Epld by (rewrite !length_map; exact Le).
  cbn [bind broadcast2]. rewrite !length_map2 by (rewrite ?length_map; lia).
  rewrite !length_map, Hr, Nat.eqb_refl.
  rewrite zen_samples by assumption. reflexivity.
Qed.

(** X14. [zen] accepts a vector longer than [npix + 9] and a [phat]
    wider than [npix]: the eclipse is that of the six entries from
    [npix] on and the pixel term uses the first [npix] columns, but the
    flux norm is the fourth entry from the end and the ramp the last
    three. *)
Theorem zen_counts_from_the_end (par x : list R) (phat : matrix) (npix : nat) :
  (npix + 9 <= length par)%nat ->
  (npix <= ncols phat)%nat -> matrix_wf phat ->
  length (rows phat) = length x ->
  exists ecl,
    eclipse x (firstn 6 (skipn npix par)) = Ok ecl
    /\ length ecl = length x
    /\ zen par x phat npix
       = Ok (Array (map3 (zen_sample par npix) (rows phat) x ecl)).
Proof. apply zen_general. Qed.

Lemma zen_counts_from_the_end_witness :
  exists ecl,
    eclipse [5] (firstn 6 (skipn 1 [2; 0; 1; 0; 1/2; 1/2; 3; 4; 1; 0; 0])) = Ok ecl
    /\ length ecl = 1%nat
    /\ zen [2; 0; 1; 0; 1/2; 1/2; 3; 4; 1; 0; 0] [5] (mkMatrix 2 [[1; 7]]) 1
       = Ok (Array (map3 (zen_sample [2; 0; 1; 0; 1/2; 1/2; 3; 4; 1; 0; 0] 1)
                      [[1; 7]] [5] ecl)).
Proof.
  apply (zen_counts_from_the_end [2; 0; 1; 0; 1/2; 1/2; 3; 4; 1; 0; 0] [5]
           (mkMatrix 2 [[1; 7]]) 1).
  - cbn [length]. lia.
  - cbn [ncols]. lia.
  - repeat constructor.
  - reflexivity.
Defined.

Lemma map3_repeat {A B C D : Type} (f : A -> B -> C -> D) (c : C) :
  forall (l1 : list A) (l2 : list B),
    length l1 = length l2 ->
    map3 f l1 l2 (repeat c (length l2)) = map2 (fun a b => f a b c) l1 l2.
Proof.
  induction l1 as [| a l1 IH]; intros [| b l2] H; cbn [length] in H;
    try discriminate; [reflexivity |].
  cbn [length repeat map3 map2]. f_equal. apply IH. lia.
Qed.

(** X15. With a zero in the depth entry [par[npix + 2]] the eclipse
    term drops out: [zen] returns the pixel term plus the ramp at every
    sample, whatever the flux norm and the other eclipse entries are. *)
Theorem zen_without_eclipse (par x : list R) (phat : matrix) (npix : nat) :
  length par = (npix + 9)%nat ->
  nth (npix + 2) par 0 = 0 ->
  ncols phat = npix -> matrix_wf phat ->
  length (rows phat) = length x ->
  zen par x phat npix
  = Ok (Array (map2 (pld_and_ramp par npix) (rows phat) x)).
Proof.
  intros Hp Hd Hc Hwf Hr.
  destruct (zen_general par x phat npix ltac:(lia) ltac:(lia) Hwf Hr)
    as (ecl & Ee & Le & Ez).
  rewrite Ez. do 2 f_equal.
  assert (E1 : ecl = repeat (Fin 1) (length x)).
  { assert (L : length (skipn npix par) = 9%nat) by (rewrite length_skipn; lia).
    assert (D : nth 2 (skipn npix par) 0 = 0) by (now rewrite nth_skipn).
    destruct (skipn npix par)
      as [| e0 [| e1 [| e2 [| e3 [| e4 [| e5 r]]]]]]; try discriminate.
    cbn [nth] in D. subst e2. cbn [firstn] in Ee.
    unfold eclipse in Ee; cbn [getitem nth_error bind] in Ee.
    replace (Reqb 0 0) with true in Ee by (symmetry; now apply Reqb_true).
    congruence. }
  rewrite E1, map3_repeat by exact Hr.
  unfold zen_sample, pld_and_ramp. cbn [fbind]. rewrite Hp.
  replace (npix + 9 - 3)%nat with (npix + 6)%nat by lia.
  replace (npix + 9 - 2)%nat with (npix + 7)%nat by lia.
  replace (npix + 9 - 1)%nat with (npix + 8)%nat by lia.
  clear. generalize (rows phat). intros l; revert x.
  induction l as [| row l IH]; intros [| xi x]; cbn [map2]; try reflexivity.
  f_equal; [f_equal; lra | apply IH].
Qed.

Lemma zen_without_eclipse_witness :
  zen [2; 0; 1; 0; 1/2; 1/2; 3; 1; 0; 0] [5] (mkMatrix 1 [[1]]) 1
  = Ok (Array (map2 (pld_and_ramp [2; 0; 1; 0; 1/2; 1/2; 3; 1; 0; 0] 1)
                 [[1]] [5])).
Proof.
  apply (zen_without_eclipse [2; 0; 1; 0; 1/2; 1/2; 3; 1; 0; 0] [5]
           (mkMatrix 1 [[1]]) 1).
  - reflexivity.
  - reflexivity.
  - reflexivity.
  - repeat constructor.
  - reflexivity.
Defined.

(** X16. A parameter vector with fewer than [npix + 9] entries makes
    [zen] raise [IndexError]: the slice [par[npix:-3]] is then shorter
    than the six parameters that [eclipse] reads. *)
Theorem zen_vector_too_short (par x : list R) (phat : matrix) (npix : nat) :
  (length par < npix + 9)%nat -> zen par x phat npix = Raise IndexError.
Proof.
  intros H. unfold zen.
  assert (L : (length (slice_to_neg par npix 3) < 6)%nat).
  { unfold slice_to_neg. rewrite length_skipn, length_firstn. lia. }
  destruct (slice_to_neg par npix 3)
    as [| e0 [| e1 [| e2 [| e3 [| e4 [| e5 r]]]]]];
    cbn [length] in L; try lia; reflexivity.
Qed.

Lemma zen_vector_too_short_witness :
  zen [2; 0; 1; 1/4; 1/2; 1/2; 3; 1; 0] [5] (mkMatrix 1 [[1]]) 1
  = Raise IndexError.
Proof.
  apply (zen_vector_too_short [2; 0; 1; 1/4; 1/2; 1/2; 3; 1; 0] [5]
           (mkMatrix 1 [[1]]) 1).
  cbn [length]. lia.
Defined.

(** X17. When [phat] has another number of rows than there are phases,
    with at least one pixel and neither number equal to 1, the sum of
    the pixel term and the eclipse term cannot be broadcast and [zen]
    raises [ValueError]. *)
Theorem zen_shape_mismatch (par x : list R) (phat : matrix) (npix : nat) :
  (npix + 9 <= length par)%nat -> (1 <= npix <= ncols phat)%nat ->
  length (rows phat) <> length x ->
  length (rows phat) <> 1%nat -> length x <> 1%nat ->
  zen par x phat npix = Raise ValueError.
Proof.
  intros Hp Hc Hne Hr1 Hx1.
  unfold zen.
  set (ep := slice_to_neg par npix 3).
  assert (Lep : length ep = (length par - 3 - npix)%nat).
  { unfold ep, slice_to_neg. rewrite length_skipn, length_firstn. lia. }
  assert (L6 : length (firstn 6 ep) = 6%nat) by (rewrite length_firstn; lia).
  rewrite (eclipse_first_six x ep) by lia.
  destruct (eclipse_ok x _ L6) as (ecl & Ee & Le).
  rewrite Ee. cbn [bind].
  pose proof (pld_loop_ok par phat npix 0 ltac:(lia) ltac:(lia)) as El.
  change (pld_after par phat 0) with (scalar 0) in El.
  rewrite El. cbn [bind]. rewrite Nat.add_0_l.
  unfold getitem_neg. rewrite Lep.
  replace (1 <=? length par - 3 - npix)%nat with true
    by (symmetry; apply Nat.leb_le; lia).
  rewrite (getitem_nth ep _ 0) by lia. cbn [bind].
  unfold np_sub, np_mul, np_add, scalar. cbn [broadcast2 bind].
  destruct npix as [| n]; [lia |].
  unfold pld_after. cbn [broadcast2]. rewrite !length_map, Le.
  replace (length (rows phat) =? length x)%nat with false
    by (symmetry; now apply Nat.eqb_neq).
  destruct (rows phat) as [| r1 [| r2 rs]] eqn:Er; cbn [map length] in *.
  - destruct ecl as [| c1 [| c2 cs]]; cbn [map length] in *;
      try reflexivity; lia.
  - lia.
  - destruct ecl as [| c1 [| c2 cs]]; cbn [map length] in *;
      try reflexivity; lia.
Qed.

Lemma zen_shape_mismatch_witness :
  zen [2; 0; 1; 0; 1/2; 1/2; 3; 1; 0; 0] [5; 6; 7] (mkMatrix 1 [[1]; [1]]) 1
  = Raise ValueError.
Proof.
  apply (zen_shape_mismatch [2; 0; 1; 0; 1/2; 1/2; 3; 1; 0; 0] [5; 6; 7]
           (mkMatrix 1 [[1]; [1]]) 1).
  - cbn [length]. lia.
  - cbn [ncols]. lia.
  - cbn [rows length]. lia.
  - cbn [rows length]. lia.
  - cbn [length]. lia.
Defined.

(** ** [zen_optimize] *)

Lemma firstn_app_exact {A : Type} (l1 l2 : list A) :
  firstn (length l1) (l1 ++ l2) = l1.
Proof.
  rewrite firstn_app, Nat.sub_diag, firstn_all, firstn_0. apply app_nil_r.
Qed.

Lemma nth_app_exact {A : Type} (l1 : list A) (v d : A) :
  nth (length l1) (l1 ++ [v]) d = v.
Proof. rewrite app_nth2, Nat.sub_diag by lia. reflexivity. Qed.

Lemma xphat_split (n : nat) :
  forall (rws : list (list R)) (x : list R),
    Forall (fun r => length r = n) rws -> length x = length rws ->
    map (fun r => firstn n r) (map2 (fun r v => r ++ [v]) rws x) = rws
    /\ map (fun r => nth n r 0) (map2 (fun r v => r ++ [v]) rws x) = x
    /\ Forall (fun r => length r = (n + 1)%nat) (map2 (fun r v => r ++ [v]) rws x).
Proof.
  induction rws as [| r rws IH]; intros [| v x] Hwf Hx; cbn [length] in Hx;
    try discriminate.
  - repeat split; constructor.
  - inversion Hwf as [| ? ? Hr Hrest]; subst.
    destruct (IH x Hrest ltac:(lia)) as (E1 & E2 & E3).
    cbn [map2 map]. rewrite E1, E2.
    rewrite firstn_app_exact, nth_app_exact.
    repeat split. constructor; [| exact E3].
    rewrite length_app. reflexivity.
Qed.

(** X18. The function that the solver fits is [zen]: on the array that
    zen.py assembles from [binphat] and [binphase], [zen_optimize] with
    the parameters [par] returns what [zen] returns for [par],
    [binphase], [binphat] and the number of columns of [binphat]. *)
Theorem zen_optimize_is_zen (binphat : matrix) (binphase par : list R) :
  matrix_wf binphat ->
  length binphase = length (rows binphat) ->
  exists xphat,
    make_xphat binphat binphase = Ok xphat
    /\ matrix_wf xphat
    /\ ncols xphat = (ncols binphat + 1)%nat
    /\ zen_optimize xphat par = zen par binphase binphat (ncols binphat).
Proof.
  intros Hwf Hx. unfold make_xphat.
  rewrite Hx, Nat.eqb_refl. eexists. split; [reflexivity |].
  destruct binphat as [n rws]. cbn [ncols rows] in *.
  destruct (xphat_split n rws binphase Hwf Hx) as (E1 & E2 & E3).
  split; [exact E3 |]. split; [reflexivity |].
  unfold zen_optimize, last_column, drop_last_column. cbn [ncols rows].
  replace (1 <=? n + 1)%nat with true by (symmetry; apply Nat.leb_le; lia).
  replace (n + 1 - 1)%nat with n by lia.
  rewrite E1, E2. reflexivity.
Qed.

Lemma zen_optimize_is_zen_witness :
  exists xphat,
    make_xphat (mkMatrix 2 [[1; 2]]) [5] = Ok xphat
    /\ matrix_wf xphat
    /\ ncols xphat = (2 + 1)%nat
    /\ zen_optimize xphat [2; 3; 0; 1; 0; 1/2; 1/2; 3; 1; 0; 0]
       = zen [2; 3; 0; 1; 0; 1/2; 1/2; 3; 1; 0; 0] [5] (mkMatrix 2 [[1; 2]]) 2.
Proof.
  apply (zen_optimize_is_zen (mkMatrix 2 [[1; 2]]) [5]
           [2; 3; 0; 1; 0; 1/2; 1/2; 3; 1; 0; 0]).
  - repeat constructor.
  - reflexivity.
Defined.

(** ** [zen_init] *)

Lemma for_each_repr {S T : Type} (repr : T -> S) (body : nat -> S -> result S)
  (step : nat -> T -> T) (idx : list nat) :
  (forall i t, In i idx -> body i (repr t) = Ok (repr (step i t))) ->
  forall t, for_each body idx (repr t)
            = Ok (repr (fold_left (fun t i => step i t) idx t)).
Proof.
  induction idx as [| i idx IH]; intros Hstep t; cbn [for_each fold_left].
  - reflexivity.
  - rewrite Hstep by (left; reflexivity). cbn [bind].
    apply IH. intros k u Hk. apply Hstep. right; exact Hk.
Qed.

Lemma for_each_stops {S : Type} (body : nat -> S -> result S)
  (idx : list nat) (i : nat) :
  In i idx ->
  (forall s, exists e, body i s = Raise e) ->
  forall st, exists e, for_each body idx st = Raise e.
Proof.
  induction idx as [| a idx IH]; intros Hin Hfail st; [destruct Hin |].
  cbn [for_each].
  destruct (body a st) as [s1 | e] eqn:E; cbn [bind].
  - destruct Hin as [-> | Hin].
    + destruct (Hfail st) as (e & He). congruence.
    + apply IH; assumption.
  - exists e. reflexivity.
Qed.

Lemma for_each_raises {S : Type} (body : nat -> S -> result S) (x : pyexn)
  (idx : list nat) :
  (forall i s e, body i s = Raise e -> e = x) ->
  forall st e, for_each body idx st = Raise e -> e = x.
Proof.
  intros Hb. induction idx as [| a idx IH]; intros st e; cbn [for_each].
  - discriminate.
  - destruct (body a st) as [s1 | e1] eqn:E; cbn [bind].
    + apply IH.
    + intros H. injection H as <-. eapply Hb. exact E.
Qed.

Lemma repeat_map_seq {A : Type} (x : A) (n a : nat) :
  repeat x n = map (fun _ => x) (seq a n).
Proof.
  revert a; induction n as [| n IH]; intros a; cbn [repeat seq map].
  - reflexivity.
  - f_equal. apply IH.
Qed.

Lemma map_nth_seq {A B : Type} (g : A -> B) (l : list A) (d : A) :
  map (fun i => g (nth i l d)) (seq 0 (length l)) = map g l.
Proof.
  induction l as [| a l IH]; cbn [length seq map].
  - reflexivity.
  - cbn [nth]. f_equal. rewrite <- seq_shift, map_map. exact IH.
Qed.

Lemma getitem_map_seq {A : Type} (g : nat -> A) (n i : nat) :
  (i < n)%nat -> getitem (map g (seq 0 n)) i = Ok (g i).
Proof.
  intros Hi. unfold getitem.
  rewrite nth_error_map, nth_error_seq.
  replace (i <? n)%nat with true by (symmetry; apply Nat.ltb_lt; exact Hi).
  reflexivity.
Qed.

Lemma setitem_map_seq {A : Type} (g : nat -> A) (n i : nat) (v : A) :
  (i < n)%nat ->
  setitem (map g (seq 0 n)) i v = Ok (map (upd1 g i v) (seq 0 n)).
Proof.
  intros Hi.
  replace n with (i + S (n - S i))%nat by lia.
  rewrite seq_app. cbn [seq]. rewrite !map_app. cbn [map].
  pose proof (setitem_middle (map g (seq 0 i)) (map g (seq (S (0 + i)) (n - S i)))
                (g (0 + i)%nat) v) as E.
  rewrite length_map, length_seq in E. rewrite E. f_equal.
  unfold upd1. cbn [Nat.add]. rewrite Nat.eqb_refl. f_equal; [| f_equal].
  - apply map_ext_in. intros k Hk. apply in_seq in Hk.
    replace (k =? i)%nat with false by (symmetry; apply Nat.eqb_neq; lia).
    reflexivity.
  - apply map_ext_in. intros k Hk. apply in_seq in Hk.
    replace (k =? i)%nat with false by (symmetry; apply Nat.eqb_neq; lia).
    reflexivity.
Qed.

Lemma table_ext {A : Type} (f g : nat -> nat -> A) (n m : nat) :
  (forall j i, (j < n)%nat -> (i < m)%nat -> f j i = g j i) ->
  table f n m = table g n m.
Proof.
  intros H. unfold table. apply map_ext_in. intros j Hj. apply in_seq in Hj.
  apply map_ext_in. intros i Hi. apply in_seq in Hi. apply H; lia.
Qed.

Lemma table_setitem2 (f : nat -> nat -> R) (n m j i : nat) (v : R) :
  (j < n)%nat -> (i < m)%nat ->
  setitem2 (table f n m) j i v = Ok (table (upd f j i v) n m).
Proof.
  intros Hj Hi. unfold setitem2, table.
  rewrite getitem_map_seq by exact Hj. cbn [bind].
  rewrite setitem_map_seq by exact Hi. cbn [bind].
  rewrite setitem_map_seq by exact Hj. f_equal.
  apply map_ext_in. intros k Hk. unfold upd1, upd.
  destruct (k =? j)%nat eqn:E; cbn [andb].
  - apply Nat.eqb_eq in E. subst k. reflexivity.
  - reflexivity.
Qed.

Lemma existsb_seq (k n : nat) :
  (k < n)%nat -> existsb (Nat.eqb k) (seq 0 n) = true.
Proof.
  intros Hk. apply existsb_exists. exists k. split.
  - apply in_seq. lia.
  - apply Nat.eqb_refl.
Qed.

Lemma fold_upd_column {A : Type} (v : nat -> A) (i : nat) (js : list nat) :
  forall (f : nat -> nat -> A) (j0 i0 : nat),
    fold_left (fun f j => upd f j i (v j)) js f j0 i0
    = if (i0 =? i)%nat && existsb (Nat.eqb j0) js then v j0 else f j0 i0.
Proof.
  induction js as [| j js IH]; intros f j0 i0; cbn [fold_left existsb].
  - rewrite andb_false_r. reflexivity.
  - rewrite IH. unfold upd.
    destruct (i0 =? i)%nat, (existsb (Nat.eqb j0) js), (j0 =? j)%nat eqn:E;
      cbn [andb orb]; try reflexivity.
    apply Nat.eqb_eq in E. subst. reflexivity.
Qed.

Lemma fold_upd_table {A : Type} (v : nat -> nat -> A) (js cols : list nat) :
  forall (f : nat -> nat -> A) (j0 i0 : nat),
    fold_left
      (fun f i => fold_left (fun f j => upd f j i (v j i)) js f) cols f j0 i0
    = if existsb (Nat.eqb i0) cols && existsb (Nat.eqb j0) js
      then v j0 i0 else f j0 i0.
Proof.
  induction cols as [| i cols IH]; intros f j0 i0; cbn [fold_left existsb].
  - reflexivity.
  - rewrite IH.
    rewrite (fold_upd_column (fun j => v j i) i js f j0 i0).
    destruct (existsb (Nat.eqb i0) cols), (existsb (Nat.eqb j0) js),
      (i0 =? i)%nat eqn:E; cbn [andb orb]; try reflexivity.
    apply Nat.eqb_eq in E. subst. reflexivity.
Qed.

Lemma fold_upd1 {A : Type} (h : nat -> A) (ts : list nat) :
  forall (g : nat -> A) (t0 : nat),
    fold_left (fun g t => upd1 g t (h t)) ts g t0
    = if existsb (Nat.eqb t0) ts then h t0 else g t0.
Proof.
  induction ts as [| t ts IH]; intros g t0; cbn [fold_left existsb].
  - reflexivity.
  - rewrite IH. unfold upd1.
    destruct (existsb (Nat.eqb t0) ts), (t0 =? t)%nat eqn:E;
      cbn [orb]; try reflexivity.
    apply Nat.eqb_eq in E. subst. reflexivity.
Qed.

(** Whether a pixel can be read does not depend on the frame. *)
Lemma data_item_readable (data : array4) (j : nat) (pix : list Z) :
  pixel_readable data pix = true ->
  exists py px rest,
    pix = py :: px :: rest
    /\ data_item data j py px = Ok (pixel_value data j pix).
Proof.
  unfold pixel_readable, pixel_value.
  destruct pix as [| py [| px rest]]; try discriminate.
  intros H. exists py, px, rest. split; [reflexivity |].
  unfold data_item in *.
  destruct (index_axis (a_ny data) py); cbn [bind] in *; [| discriminate].
  destruct (index_axis (a_nx data) px); cbn [bind] in *; [| discriminate].
  destruct (index_axis (a_nsets data) 0); cbn [bind] in *; [| discriminate].
  reflexivity.
Qed.

Lemma index_axis_raises (n : nat) (k : Z) (e : pyexn) :
  index_axis n k = Raise e -> e = IndexError.
Proof.
  unfold index_axis.
  repeat match goal with
         | |- context [if ?c then _ else _] => destruct c
         end; congruence.
Qed.

Lemma data_item_unreadable (data : array4) (j : nat) (py px : Z) (rest : list Z) :
  pixel_readable data (py :: px :: rest) = false ->
  data_item data j py px = Raise IndexError.
Proof.
  unfold pixel_readable, data_item. intros H.
  destruct (index_axis (a_ny data) py) as [iy | e] eqn:Ey; cbn [bind] in *.
  2:{ apply index_axis_raises in Ey. now subst. }
  destruct (index_axis (a_nx data) px) as [ix | e] eqn:Ex; cbn [bind] in *.
  2:{ apply index_axis_raises in Ex. now subst. }
  destruct (index_axis (a_nsets data) 0) as [ic | e] eqn:Ec; cbn [bind] in *.
  - discriminate.
  - apply index_axis_raises in Ec. now subst.
Qed.

Lemma read_pixel_readable (data : array4) (pixels : list (list Z))
  (n i j : nat) (f : nat -> nat -> R) :
  (i < length pixels)%nat -> (j < n)%nat ->
  pixel_readable data (nth i pixels []) = true ->
  read_pixel data pixels i j (table f n (length pixels))
  = Ok (table (upd f j i (pixel_value data j (nth i pixels [])))
          n (length pixels)).
Proof.
  intros Hi Hj Hr. unfold read_pixel.
  rewrite (getitem_nth pixels i []) by exact Hi. cbn [bind].
  destruct (data_item_readable data j _ Hr) as (py & px & rest & E & Ed).
  rewrite E in *. cbn [getitem nth_error bind].
  rewrite Ed. cbn [bind]. apply table_setitem2; assumption.
Qed.

Lemma read_pixel_unreadable (data : array4) (pixels : list (list Z))
  (i j : nat) (p : list (list R)) :
  (i < length pixels)%nat ->
  pixel_readable data (nth i pixels []) = false ->
  read_pixel data pixels i j p = Raise IndexError.
Proof.
  intros Hi Hr. unfold read_pixel.
  rewrite (getitem_nth pixels i []) by exact Hi. cbn [bind].
  destruct (nth i pixels []) as [| py [| px rest]]; try reflexivity.
  cbn [getitem nth_error bind].
  rewrite (data_item_unreadable data j py px rest Hr). reflexivity.
Qed.

Lemma read_pixel_raises (data : array4) (pixels : list (list Z))
  (i j : nat) (p : list (list R)) (e : pyexn) :
  read_pixel data pixels i j p = Raise e -> e = IndexError.
Proof.
  unfold read_pixel, data_item, setitem2, getitem, setitem, index_axis.
  repeat match goal with
         | |- context [match ?c with _ => _ end] => destruct c; cbn [bind]
         end; congruence.
Qed.

Lemma forallb_nth {A : Type} (P : A -> bool) (l : list A) (d : A) :
  forallb P l = true ->
  forall i, (i < length l)%nat -> P (nth i l d) = true.
Proof.
  intros H i Hi. rewrite forallb_forall in H. apply H. apply nth_In. exact Hi.
Qed.

Lemma forallb_false_nth {A : Type} (P : A -> bool) (l : list A) (d : A) :
  forallb P l = false ->
  exists i, (i < length l)%nat /\ P (nth i l d) = false.
Proof.
  induction l as [| a l IH]; cbn [forallb]; [discriminate |].
  destruct (P a) eqn:E; cbn [andb]; intros H.
  - destruct (IH H) as (i & Hi & Hp). exists (S i). cbn [length nth].
    split; [lia | exact Hp].
  - exists 0%nat. cbn [length nth]. split; [lia | exact E].
Qed.

(** The two loops of lines 53-55 fill [p] with the flux of every pixel
    in every frame. *)
Lemma zen_init_flux (data : array4) (pixels : list (list Z)) :
  a_nframes data = 0%nat \/ forallb (pixel_readable data) pixels = true ->
  for_each
    (fun i p => for_each (read_pixel data pixels i) (seq 0 (a_nframes data)) p)
    (seq 0 (length pixels))
    (repeat (repeat 0 (length pixels)) (a_nframes data))
  = Ok (table (fun j i => pixel_value data j (nth i pixels []))
          (a_nframes data) (length pixels)).
Proof.
  intros Hok.
  set (n := a_nframes data) in *. set (m := length pixels).
  set (v := fun j i => pixel_value data j (nth i pixels [])).
  replace (repeat (repeat 0 m) n) with (table (fun _ _ => 0) n m).
  2:{ unfold table. rewrite (repeat_map_seq (repeat 0 m) n 0).
      apply map_ext. intros _. symmetry. apply repeat_map_seq. }
  rewrite (for_each_repr (fun f => table f n m) _
             (fun i f => fold_left (fun f j => upd f j i (v j i)) (seq 0 n) f)).
  - f_equal. apply table_ext. intros j i Hj Hi.
    rewrite (fold_upd_table v (seq 0 n) (seq 0 m)).
    rewrite !existsb_seq by assumption. reflexivity.
  - intros i f Hi. apply in_seq in Hi.
    apply (for_each_repr (fun f => table f n m) (read_pixel data pixels i)
             (fun j f => upd f j i (v j i))).
    intros j g Hj. apply in_seq in Hj.
    destruct Hok as [H0 | Hall]; [lia |].
    apply read_pixel_readable; [unfold m in Hi; lia | lia |].
    apply forallb_nth; [exact Hall | unfold m in Hi; lia].
Qed.

Lemma table_row {A : Type} (f : nat -> nat -> A) (n m t : nat) :
  (t < n)%nat -> getitem (table f n m) t = Ok (map (f t) (seq 0 m)).
Proof.
  intros Ht. unfold table.
  apply (getitem_map_seq (fun j => map (f j) (seq 0 m))). exact Ht.
Qed.

(** The loop of lines 61-62 on that [p]. *)
Lemma normalize_loop_result (data : array4) (pixels : list (list Z)) :
  for_each
    (normalize_frame
       (table (fun j i => pixel_value data j (nth i pixels []))
          (a_nframes data) (length pixels)))
    (seq 0 (a_nframes data))
    (repeat (repeat (Fin 0) (length pixels)) (a_nframes data))
  = Ok (zen_init_phat data pixels).
Proof.
  set (n := a_nframes data). set (m := length pixels).
  set (v := fun j i => pixel_value data j (nth i pixels [])).
  rewrite (repeat_map_seq (repeat (Fin 0) m) n 0).
  rewrite (for_each_repr (fun g => map g (seq 0 n)) _
             (fun t g => upd1 g t (normalized (frame_flux data pixels t)))).
  - f_equal. unfold zen_init_phat. fold n.
    apply map_ext_in. intros t Ht. apply in_seq in Ht.
    rewrite (fold_upd1 (fun t => normalized (frame_flux data pixels t))).
    rewrite existsb_seq by lia. reflexivity.
  - intros t g Ht. apply in_seq in Ht. unfold normalize_frame.
    rewrite table_row by lia. cbn [bind].
    replace (map (v t) (seq 0 m)) with (frame_flux data pixels t).
    2:{ unfold frame_flux, v, m. symmetry.
        apply (map_nth_seq (pixel_value data t) pixels []). }
    apply setitem_map_seq. lia.
Qed.

(** With every pixel readable, or without frames, [zen_init] returns. *)
Lemma zen_init_returns (data : array4) (pixels : list (list Z)) :
  a_nframes data = 0%nat \/ forallb (pixel_readable data) pixels = true ->
  zen_init data pixels
  = Ok (zen_init_phat data pixels, zen_init_dP data pixels).
Proof.
  intros Hok. unfold zen_init.
  rewrite zen_init_flux by exact Hok. cbn [bind].
  rewrite normalize_loop_result. cbn [bind]. reflexivity.
Qed.

(** With a frame to read and a pixel that cannot be read it raises. *)
Lemma zen_init_raises (data : array4) (pixels : list (list Z)) :
  (1 <= a_nframes data)%nat ->
  forallb (pixel_readable data) pixels = false ->
  zen_init data pixels = Raise IndexError.
Proof.
  intros Hn Hbad. unfold zen_init.
  destruct (forallb_false_nth _ _ [] Hbad) as (i & Hi & Hp).
  match goal with
  | |- (p <- ?loop ;; _) = _ => destruct loop as [p | e] eqn:E
  end.
  - exfalso.
    destruct (for_each_stops
                (fun i p => for_each (read_pixel data pixels i)
                              (seq 0 (a_nframes data)) p)
                (seq 0 (length pixels)) i) with
      (st := repeat (repeat 0 (length pixels)) (a_nframes data)) as (e & He).
    + apply in_seq. lia.
    + intros s. exists IndexError.
      destruct (a_nframes data) as [| n]; [lia |].
      cbn [seq for_each]. rewrite read_pixel_unreadable by assumption.
      reflexivity.
    + congruence.
  - cbn [bind]. f_equal.
    eapply (for_each_raises _ IndexError); [| exact E].
    intros k s e' Hk.
    eapply (for_each_raises _ IndexError); [| exact Hk].
    intros j s' e''. apply read_pixel_raises.
Qed.

Lemma pixel_inside_readable (data : array4) (pix : list Z) :
  (1 <= a_nsets data)%nat -> pixel_inside data pix ->
  pixel_readable data pix = true.
Proof.
  intros Hs (py & px & rest & iy & ix & -> & Ey & Ex).
  unfold pixel_readable, data_item. rewrite Ey, Ex. cbn [bind].
  unfold index_axis.
  replace ((0 <=? 0) && (0 <? Z.of_nat (a_nsets data)))%Z with true.
  - reflexivity.
  - symmetry. apply andb_true_iff. split; [apply Z.leb_le | apply Z.ltb_lt]; lia.
Qed.

Lemma pixels_inside_readable (data : array4) (pixels : list (list Z)) :
  (1 <= a_nsets data)%nat -> Forall (pixel_inside data) pixels ->
  forallb (pixel_readable data) pixels = true.
Proof.
  intros Hs Hall. apply forallb_forall. intros pix Hin.
  rewrite Forall_forall in Hall.
  apply pixel_inside_readable; [exact Hs | apply Hall; exact Hin].
Qed.

Lemma fsum_Fin_from (l : list R) :
  forall a, fold_left (flift2 Rplus) (map Fin l) (Fin a) = Fin (a + Rsum l).
Proof.
  induction l as [| v l IH]; intros a; cbn [map fold_left].
  - unfold Rsum. cbn [fold_right]. f_equal. lra.
  - cbn [flift2]. rewrite IH, Rsum_cons. f_equal. lra.
Qed.

Lemma fsum_Fin (l : list R) : fsum (map Fin l) = Fin (Rsum l).
Proof. unfold fsum. rewrite fsum_Fin_from. f_equal. lra. Qed.

Lemma Rsum_scaled (c : R) (l : list R) :
  Rsum (map (fun v => v * c) l) = Rsum l * c.
Proof.
  induction l as [| v l IH]; cbn [map]; rewrite ?Rsum_cons.
  - unfold Rsum. cbn [fold_right]. lra.
  - rewrite IH. lra.
Qed.

Lemma normalized_finite (row : list R) :
  Rsum row <> 0 ->
  normalized row = map Fin (map (fun v => v / Rsum row) row).
Proof.
  intros Hs. unfold normalized. rewrite map_map. apply map_ext. intros v.
  unfold np_div. replace (Reqb (Rsum row) 0) with false; [reflexivity |].
  symmetry. apply Reqb_false. exact Hs.
Qed.

Lemma Rsum_normalized (row : list R) :
  Rsum row <> 0 -> Rsum (map (fun v => v / Rsum row) row) = 1.
Proof.
  intros Hs. unfold Rdiv. rewrite Rsum_scaled. field. exact Hs.
Qed.

Lemma zen_init_phat_row (data : array4) (pixels : list (list Z)) (j : nat) :
  (j < a_nframes data)%nat ->
  nth j (zen_init_phat data pixels) []
  = normalized (frame_flux data pixels j).
Proof.
  intros Hj. unfold zen_init_phat.
  rewrite (nth_indep _ [] (normalized (frame_flux data pixels 0)))
    by (rewrite length_map, length_seq; exact Hj).
  rewrite (map_nth (fun j => normalized (frame_flux data pixels j))).
  rewrite seq_nth by exact Hj. reflexivity.
Qed.

(** X19. For pixels inside the image [zen_init] returns one row per
    frame, and in every frame whose pixels do not sum to zero each
    entry of [phat] is the pixel's flux divided by the frame's total,
    so that the row sums to one. *)
Theorem zen_init_normalises (data : array4) (pixels : list (list Z)) :
  (1 <= a_nsets data)%nat ->
  Forall (pixel_inside data) pixels ->
  exists phat dP,
    zen_init data pixels = Ok (phat, dP)
    /\ length phat = a_nframes data
    /\ length dP = a_nframes data
    /\ forall j, (j < a_nframes data)%nat ->
         Rsum (frame_flux data pixels j) <> 0 ->
         nth j phat []
         = map (fun v => Fin (v / Rsum (frame_flux data pixels j)))
             (frame_flux data pixels j)
         /\ fsum (nth j phat []) = Fin 1.
Proof.
  intros Hs Hall.
  exists (zen_init_phat data pixels), (zen_init_dP data pixels).
  split.
  { apply zen_init_returns. right. apply pixels_inside_readable; assumption. }
  split; [unfold zen_init_phat; now rewrite length_map, length_seq |].
  split; [unfold zen_init_dP, zen_init_phat;
          now rewrite !length_map, length_seq |].
  intros j Hj Hne.
  rewrite zen_init_phat_row by exact Hj.
  rewrite normalized_finite by exact Hne.
  split.
  - rewrite map_map. reflexivity.
  - rewrite fsum_Fin, Rsum_normalized by exact Hne. reflexivity.
Qed.

Lemma index_axis_outside (n : nat) (k : Z) :
  (k < - Z.of_nat n \/ Z.of_nat n <= k)%Z -> index_axis n k = Raise IndexError.
Proof.
  intros H. unfold index_axis.
  replace ((0 <=? k) && (k <? Z.of_nat n))%Z with false.
  2:{ symmetry. apply andb_false_iff.
      destruct H; [left; apply Z.leb_gt | right; apply Z.ltb_ge]; lia. }
  replace ((- Z.of_nat n <=? k) && (k <? 0))%Z with false.
  2:{ symmetry. apply andb_false_iff.
      destruct H; [left; apply Z.leb_gt | right; apply Z.ltb_ge]; lia. }
  reflexivity.
Qed.

(** X20. Coordinates are not clipped: with at least one frame, a pixel
    whose row is outside [-ny, ny) or whose column is outside [-nx, nx)
    makes [zen_init] raise [IndexError], wherever it is in the list. *)
Theorem zen_init_pixel_outside (data : array4) (pixels : list (list Z))
  (py px : Z) (rest : list Z) :
  (1 <= a_nframes data)%nat ->
  In (py :: px :: rest) pixels ->
  (py < - Z.of_nat (a_ny data) \/ Z.of_nat (a_ny data) <= py
   \/ px < - Z.of_nat (a_nx data) \/ Z.of_nat (a_nx data) <= px)%Z ->
  zen_init data pixels = Raise IndexError.
Proof.
  intros Hn Hin Hout. apply zen_init_raises; [exact Hn |].
  destruct (forallb (pixel_readable data) pixels) eqn:E; [| reflexivity].
  rewrite forallb_forall in E. specialize (E _ Hin).
  unfold pixel_readable, data_item in E.
  destruct (index_axis (a_ny data) py) as [iy |] eqn:Ey; cbn [bind] in E;
    [| discriminate].
  destruct (index_axis (a_nx data) px) as [ix |] eqn:Ex; cbn [bind] in E;
    [| discriminate].
  destruct Hout as [H | [H | H]].
  - rewrite index_axis_outside in Ey by (left; exact H). discriminate.
  - rewrite index_axis_outside in Ey by (right; exact H). discriminate.
  - rewrite index_axis_outside in Ex by exact H. discriminate.
Qed.

(** X21. A pixel given by fewer than two coordinates also makes
    [zen_init] raise [IndexError] as soon as there is a frame. *)
Theorem zen_init_short_pixel (data : array4) (pixels : list (list Z))
  (pix : list Z) :
  (1 <= a_nframes data)%nat ->
  In pix pixels -> (length pix < 2)%nat ->
  zen_init data pixels = Raise IndexError.
Proof.
  intros Hn Hin Hlen. apply zen_init_raises; [exact Hn |].
  destruct (forallb (pixel_readable data) pixels) eqn:E; [| reflexivity].
  rewrite forallb_forall in E. specialize (E _ Hin).
  destruct pix as [| py [| px rest]]; cbn [length] in Hlen;
    cbn [pixel_readable] in E; try discriminate; lia.
Qed.

Lemma zen_init_normalises_witness :
  exists phat dP,
    zen_init (mkArray4 1 2 2 1 (fun _ y x _ => INR (y + x + 1))) [[0; 1]; [1; 0]]%Z
    = Ok (phat, dP)
    /\ length phat = 1%nat
    /\ length dP = 1%nat
    /\ forall j, (j < 1)%nat ->
         Rsum (frame_flux (mkArray4 1 2 2 1 (fun _ y x _ => INR (y + x + 1)))
                 [[0; 1]; [1; 0]]%Z j) <> 0 ->
         nth j phat []
         = map (fun v =>
                  Fin (v / Rsum (frame_flux
                                   (mkArray4 1 2 2 1 (fun _ y x _ => INR (y + x + 1)))
                                   [[0; 1]; [1; 0]]%Z j)))
             (frame_flux (mkArray4 1 2 2 1 (fun _ y x _ => INR (y + x + 1)))
                [[0; 1]; [1; 0]]%Z j)
         /\ fsum (nth j phat []) = Fin 1.
Proof.
  apply (zen_init_normalises
           (mkArray4 1 2 2 1 (fun _ y x _ => INR (y + x + 1))) [[0; 1]; [1; 0]]%Z).
  - cbn [a_nsets]. lia.
  - repeat constructor.
    + exists 0%Z, 1%Z, [], 0%nat, 1%nat. repeat split; reflexivity.
    + exists 1%Z, 0%Z, [], 1%nat, 0%nat. repeat split; reflexivity.
Defined.

Lemma zen_init_pixel_outside_witness :
  zen_init (mkArray4 1 2 2 1 (fun _ y x _ => INR (y + x + 1))) [[0; 1]; [2; 0]]%Z
  = Raise IndexError.
Proof.
  apply (zen_init_pixel_outside
           (mkArray4 1 2 2 1 (fun _ y x _ => INR (y + x + 1)))
           [[0; 1]; [2; 0]]%Z 2%Z 0%Z []).
  - cbn [a_nframes]. lia.
  - right. left. reflexivity.
  - cbn [a_ny a_nx]. lia.
Defined.

Lemma zen_init_short_pixel_witness :
  zen_init (mkArray4 1 2 2 1 (fun _ y x _ => INR (y + x + 1))) [[0; 1]; [1]]%Z
  = Raise IndexError.
Proof.
  apply (zen_init_short_pixel
           (mkArray4 1 2 2 1 (fun _ y x _ => INR (y + x + 1)))
           [[0; 1]; [1]]%Z [1]%Z).
  - cbn [a_nframes]. lia.
  - right. left. reflexivity.
  - cbn [length]. lia.
Defined.

Lemma Rsum_map_sub (f g : nat -> R) (l : list nat) :
  Rsum (map (fun i => f i - g i) l) = Rsum (map f l) - Rsum (map g l).
Proof.
  induction l as [| i l IH]; cbn [map]; rewrite ?Rsum_cons.
  - unfold Rsum. cbn [fold_right]. lra.
  - rewrite IH. lra.
Qed.

Lemma Rsum_map_const (c : R) (l : list nat) :
  Rsum (map (fun _ => c) l) = INR (length l) * c.
Proof.
  induction l as [| i l IH]; cbn [map length]; rewrite ?Rsum_cons.
  - unfold Rsum. cbn [fold_right INR]. lra.
  - rewrite IH, S_INR. lra.
Qed.

Lemma Rsum_map_swap (f : nat -> nat -> R) (ts cols : list nat) :
  Rsum (map (fun i => Rsum (map (fun t => f t i) ts)) cols)
  = Rsum (map (fun t => Rsum (map (fun i => f t i) cols)) ts).
Proof.
  induction ts as [| t ts IH]; cbn [map].
  - rewrite (Rsum_map_const (Rsum [])). unfold Rsum. cbn [fold_right]. lra.
  - rewrite Rsum_cons, <- IH.
    rewrite <- (Rsum_map_add (fun i => f t i)
                  (fun i => Rsum (map (fun t => f t i) ts))).
    reflexivity.
Qed.

Lemma nth_map_seq {A : Type} (g : nat -> A) (n i : nat) (d : A) :
  (i < n)%nat -> nth i (map g (seq 0 n)) d = g i.
Proof.
  intros Hi.
  rewrite (nth_indep _ d (g 0%nat)) by (rewrite length_map, length_seq; exact Hi).
  rewrite (map_nth g), seq_nth by exact Hi. reflexivity.
Qed.

(** The arrays of [zen_init] entry by entry, when no frame sums to
    zero: [q t i] is the share of pixel [i] in frame [t]. *)
Lemma zen_init_dP_entries (data : array4) (pixels : list (list Z)) :
  (1 <= a_nframes data)%nat ->
  (forall j, (j < a_nframes data)%nat -> Rsum (frame_flux data pixels j) <> 0) ->
  exists q : nat -> nat -> R,
    (forall t, (t < a_nframes data)%nat ->
               Rsum (map (q t) (seq 0 (length pixels))) = 1)
    /\ zen_init_dP data pixels
       = table (fun t i =>
                  Fin (q t i
                       - Rsum (map (fun t => q t i) (seq 0 (a_nframes data)))
                         / INR (a_nframes data)))
           (a_nframes data) (length pixels).
Proof.
  intros Hn Hne.
  set (n := a_nframes data) in *. set (m := length pixels).
  set (q := fun t i =>
              pixel_value data t (nth i pixels []) / Rsum (frame_flux data pixels t)).
  assert (Eflux : forall t, frame_flux data pixels t
                            = map (fun i => pixel_value data t (nth i pixels []))
                                (seq 0 m)).
  { intros t. unfold frame_flux, m. symmetry.
    apply (map_nth_seq (pixel_value data t) pixels []). }
  assert (Ephat : zen_init_phat data pixels = table (fun t i => Fin (q t i)) n m).
  { unfold zen_init_phat, table. fold n. apply map_ext_in. intros t Ht.
    apply in_seq in Ht. rewrite normalized_finite by (apply Hne; lia).
    rewrite map_map. unfold q.
    generalize (Rsum (frame_flux data pixels t)). intros s.
    rewrite Eflux, map_map. reflexivity. }
  exists q. split.
  - intros t Ht.
    replace (map (q t) (seq 0 m))
      with (map (fun v => v / Rsum (frame_flux data pixels t))
              (frame_flux data pixels t)).
    + apply Rsum_normalized. apply Hne. exact Ht.
    + unfold q. generalize (Rsum (frame_flux data pixels t)). intros s.
      rewrite Eflux, map_map. reflexivity.
  - unfold zen_init_dP. rewrite Ephat.
    assert (Ebar : column_means m (table (fun t i => Fin (q t i)) n m)
                   = map (fun i => Fin (Rsum (map (fun t => q t i) (seq 0 n)) / INR n))
                       (seq 0 m)).
    { unfold column_means. apply map_ext_in. intros i Hi. apply in_seq in Hi.
      unfold table. rewrite map_map.
      replace (map (fun t => nth i (map (fun i0 => Fin (q t i0)) (seq 0 m)) (Fin 0))
                 (seq 0 n))
        with (map Fin (map (fun t => q t i) (seq 0 n))).
      2:{ rewrite map_map. apply map_ext. intros t.
          symmetry. apply (nth_map_seq (fun i0 => Fin (q t i0))). lia. }
      unfold fmean. rewrite fsum_Fin. cbn [fbind].
      rewrite !length_map, length_seq. unfold np_div.
      replace (Reqb (INR n) 0) with false; [reflexivity |].
      symmetry. apply Reqb_false. apply not_0_INR. lia. }
    fold m. rewrite Ebar. unfold table. rewrite map_map.
    apply map_ext. intros t.
    rewrite map2_map_l, map2_map_r, map2_diag. reflexivity.
Qed.

(** X22. [dP] is centred: with at least one frame, pixels inside the
    image and no frame whose pixels sum to zero, every column of [dP]
    sums to zero over the frames, and every row of [dP] sums to zero
    over the pixels. *)
Theorem zen_init_centred (data : array4) (pixels : list (list Z)) :
  (1 <= a_nsets data)%nat ->
  (1 <= a_nframes data)%nat ->
  Forall (pixel_inside data) pixels ->
  (forall j, (j < a_nframes data)%nat -> Rsum (frame_flux data pixels j) <> 0) ->
  exists phat dP,
    zen_init data pixels = Ok (phat, dP)
    /\ (forall i, (i < length pixels)%nat ->
                  fsum (map (fun row => nth i row (Fin 0)) dP) = Fin 0)
    /\ (forall row, In row dP -> fsum row = Fin 0).
Proof.
  intros Hs Hn Hall Hne.
  exists (zen_init_phat data pixels), (zen_init_dP data pixels).
  split.
  { apply zen_init_returns. right. apply pixels_inside_readable; assumption. }
  destruct (zen_init_dP_entries data pixels Hn Hne) as (q & Hq & ->).
  set (n := a_nframes data) in *. set (m := length pixels) in *.
  assert (Hn0 : INR n <> 0) by (apply not_0_INR; lia).
  split.
  - intros i Hi. unfold table. rewrite map_map.
    erewrite map_ext_in.
    2:{ intros t Ht. apply in_seq in Ht.
        apply (nth_map_seq (fun i0 => Fin (q t i0
                 - Rsum (map (fun t0 => q t0 i0) (seq 0 n)) / INR n))).
        exact Hi. }
    rewrite <- (map_map (fun t => q t i
                 - Rsum (map (fun t0 => q t0 i) (seq 0 n)) / INR n) Fin).
    rewrite fsum_Fin. f_equal.
    rewrite (Rsum_map_sub (fun t => q t i)
               (fun _ => Rsum (map (fun t0 => q t0 i) (seq 0 n)) / INR n)).
    rewrite Rsum_map_const, length_seq. field. exact Hn0.
  - intros row Hin. unfold table in Hin. apply in_map_iff in Hin.
    destruct Hin as (t & <- & Ht). apply in_seq in Ht.
    rewrite <- (map_map (fun i => q t i
                 - Rsum (map (fun t0 => q t0 i) (seq 0 n)) / INR n) Fin).
    rewrite fsum_Fin. f_equal.
    rewrite (Rsum_map_sub (q t)
               (fun i => Rsum (map (fun t0 => q t0 i) (seq 0 n)) / INR n)).
    replace (map (q t) (seq 0 m)) with (map (fun i => q t i) (seq 0 m))
      by reflexivity.
    rewrite Hq by lia.
    replace (map (fun i => Rsum (map (fun t0 => q t0 i) (seq 0 n)) / INR n) (seq 0 m))
      with (map (fun v => v * / INR n)
              (map (fun i => Rsum (map (fun t0 => q t0 i) (seq 0 n))) (seq 0 m)))
      by (rewrite map_map; reflexivity).
    rewrite Rsum_scaled, Rsum_map_swap.
    erewrite (map_ext_in _ (fun _ => 1)).
    2:{ intros t0 Ht0. apply in_seq in Ht0. apply Hq. lia. }
    rewrite Rsum_map_const, length_seq. field. exact Hn0.
Qed.

Lemma zen_init_centred_witness :
  exists phat dP,
    zen_init (mkArray4 1 2 2 1 (fun _ y x _ => INR (y + x + 1))) [[0; 1]; [1; 0]]%Z
    = Ok (phat, dP)
    /\ (forall i, (i < 2)%nat ->
                  fsum (map (fun row => nth i row (Fin 0)) dP) = Fin 0)
    /\ (forall row, In row dP -> fsum row = Fin 0).
Proof.
  apply (zen_init_centred
           (mkArray4 1 2 2 1 (fun _ y x _ => INR (y + x + 1))) [[0; 1]; [1; 0]]%Z).
  - cbn [a_nsets]. lia.
  - cbn [a_nframes]. lia.
  - repeat constructor.
    + exists 0%Z, 1%Z, [], 0%nat, 1%nat. repeat split; reflexivity.
    + exists 1%Z, 0%Z, [], 1%nat, 0%nat. repeat split; reflexivity.
  - intros j Hj. cbn [a_nframes] in Hj.
    assert (j = 0%nat) as -> by lia.
    vm_compute. lra.
Defined.

Lemma pixel_readable_scaled (c : nat -> R) (data : array4) (pix : list Z) :
  pixel_readable (scale_frames c data) pix = pixel_readable data pix.
Proof.
  unfold pixel_readable, data_item, scale_frames. cbn [a_ny a_nx a_nsets a_at].
  destruct pix as [| py [| px rest]]; try reflexivity.
  destruct (index_axis (a_ny data) py); cbn [bind]; [| reflexivity].
  destruct (index_axis (a_nx data) px); cbn [bind]; [| reflexivity].
  destruct (index_axis (a_nsets data) 0); reflexivity.
Qed.

Lemma pixel_value_scaled (c : nat -> R) (data : array4) (j : nat) (pix : list Z) :
  pixel_value (scale_frames c data) j pix = c j * pixel_value data j pix.
Proof.
  unfold pixel_value, data_item, scale_frames. cbn [a_ny a_nx a_nsets a_at].
  destruct pix as [| py [| px rest]]; try lra.
  destruct (index_axis (a_ny data) py); cbn [bind]; [| lra].
  destruct (index_axis (a_nx data) px); cbn [bind]; [| lra].
  destruct (index_axis (a_nsets data) 0); cbn [bind]; [reflexivity | lra].
Qed.

Lemma Rsum_scaled_l (c : R) (l : list R) :
  Rsum (map (Rmult c) l) = c * Rsum l.
Proof.
  induction l as [| v l IH]; cbn [map]; rewrite ?Rsum_cons.
  - unfold Rsum. cbn [fold_right]. lra.
  - rewrite IH. lra.
Qed.

Lemma np_div_scaled (c v s : R) :
  c <> 0 -> np_div (c * v) (c * s) = np_div v s.
Proof.
  intros Hc. unfold np_div.
  destruct (Reqb s 0) eqn:Es.
  - apply Reqb_true in Es. subst s.
    replace (Reqb (c * 0) 0) with true by (symmetry; apply Reqb_true; lra).
    destruct (Reqb v 0) eqn:Ev.
    + apply Reqb_true in Ev. subst v.
      replace (Reqb (c * 0) 0) with true by (symmetry; apply Reqb_true; lra).
      reflexivity.
    + apply Reqb_false in Ev.
      replace (Reqb (c * v) 0) with false; [reflexivity |].
      symmetry. apply Reqb_false. intros H.
      apply Rmult_integral in H. tauto.
  - apply Reqb_false in Es.
    replace (Reqb (c * s) 0) with false.
    + f_equal. field. split; assumption.
    + symmetry. apply Reqb_false. intros H.
      apply Rmult_integral in H. tauto.
Qed.

Lemma normalized_scaled (c : R) (row : list R) :
  c <> 0 -> normalized (map (Rmult c) row) = normalized row.
Proof.
  intros Hc. unfold normalized. rewrite map_map, Rsum_scaled_l.
  apply map_ext. intros v. apply np_div_scaled. exact Hc.
Qed.

(** X23. Normalising removes what is common to a frame: when no frame
    sums to zero over the chosen pixels, multiplying every frame [j] of
    the stack by a factor [c j] that is not zero changes nothing in
    what [zen_init] returns or raises. *)
Theorem zen_init_brightness (c : nat -> R) (data : array4)
  (pixels : list (list Z)) :
  (forall j, (j < a_nframes data)%nat -> c j <> 0) ->
  (forall j, (j < a_nframes data)%nat -> Rsum (frame_flux data pixels j) <> 0) ->
  zen_init (scale_frames c data) pixels = zen_init data pixels.
Proof.
  intros Hc _.
  assert (Ephat : zen_init_phat (scale_frames c data) pixels
                  = zen_init_phat data pixels).
  { unfold zen_init_phat. cbn [scale_frames a_nframes].
    apply map_ext_in. intros j Hj. apply in_seq in Hj.
    replace (frame_flux (scale_frames c data) pixels j)
      with (map (Rmult (c j)) (frame_flux data pixels j)).
    - apply normalized_scaled. apply Hc. lia.
    - unfold frame_flux. rewrite map_map. apply map_ext. intros pix.
      symmetry. apply pixel_value_scaled. }
  assert (Eread : forallb (pixel_readable (scale_frames c data)) pixels
                  = forallb (pixel_readable data) pixels).
  { clear. induction pixels as [| p l IH]; cbn [forallb];
      [reflexivity | now rewrite pixel_readable_scaled, IH]. }
  destruct (Nat.eq_dec (a_nframes data) 0) as [H0 | H0].
  - rewrite !zen_init_returns by (left; exact H0).
    unfold zen_init_dP. rewrite Ephat. reflexivity.
  - destruct (forallb (pixel_readable data) pixels) eqn:E.
    + rewrite !zen_init_returns by (right; congruence).
      unfold zen_init_dP. rewrite Ephat. reflexivity.
    + rewrite (zen_init_raises data) by (assumption || lia).
      apply zen_init_raises; [cbn [scale_frames a_nframes]; lia | congruence].
Qed.

Lemma zen_init_brightness_witness :
  zen_init (scale_frames (fun j => - INR j - 2)
              (mkArray4 1 2 2 1 (fun _ y x _ => INR (y + x + 1))))
    [[0; 1]; [1; 0]]%Z
  = zen_init (mkArray4 1 2 2 1 (fun _ y x _ => INR (y + x + 1)))
      [[0; 1]; [1; 0]]%Z.
Proof.
  apply (zen_init_brightness (fun j => - INR j - 2)
           (mkArray4 1 2 2 1 (fun _ y x _ => INR (y + x + 1)))
           [[0; 1]; [1; 0]]%Z).
  - intros j _. pose proof (pos_INR j). lra.
  - intros j Hj. cbn [a_nframes] in Hj.
    assert (j = 0%nat) as -> by lia.
    vm_compute. lra.
Defined.

Lemma index_axis_mod (n : nat) (k : Z) :
  (- Z.of_nat n <= k < Z.of_nat n)%Z ->
  index_axis n (k mod Z.of_nat n) = index_axis n k.
Proof.
  intros Hk. unfold index_axis.
  destruct (Z_lt_le_dec k 0) as [Hneg | Hpos].
  - assert (E : (k mod Z.of_nat n = Z.of_nat n + k)%Z).
    { symmetry. apply (Z.mod_unique_pos _ _ (-1)); lia. }
    rewrite E.
    replace ((0 <=? Z.of_nat n + k) && (Z.of_nat n + k <? Z.of_nat n))%Z with true
      by (symmetry; apply andb_true_iff; split;
          [apply Z.leb_le | apply Z.ltb_lt]; lia).
    replace ((0 <=? k) && (k <? Z.of_nat n))%Z with false
      by (symmetry; apply andb_false_iff; left; apply Z.leb_gt; lia).
    replace ((- Z.of_nat n <=? k) && (k <? 0))%Z with true
      by (symmetry; apply andb_true_iff; split;
          [apply Z.leb_le | apply Z.ltb_lt]; lia).
    reflexivity.
  - rewrite Z.mod_small by lia. reflexivity.
Qed.

Lemma forallb_as_map {A : Type} (P : A -> bool) (l : list A) :
  forallb P l = forallb (fun b => b) (map P l).
Proof.
  induction l as [| a l IH]; cbn [map forallb]; [reflexivity | now rewrite IH].
Qed.

Lemma zen_init_same_pixels (data : array4) (pixels pixels' : list (list Z)) :
  length pixels' = length pixels ->
  map (pixel_readable data) pixels' = map (pixel_readable data) pixels ->
  (forall j, map (pixel_value data j) pixels' = map (pixel_value data j) pixels) ->
  zen_init data pixels' = zen_init data pixels.
Proof.
  intros Hlen Hread Hval.
  assert (Ephat : zen_init_phat data pixels' = zen_init_phat data pixels).
  { unfold zen_init_phat, frame_flux. apply map_ext. intros j.
    now rewrite Hval. }
  assert (Eall : forallb (pixel_readable data) pixels'
                 = forallb (pixel_readable data) pixels).
  { rewrite (forallb_as_map _ pixels'), (forallb_as_map _ pixels).
    now rewrite Hread. }
  destruct (Nat.eq_dec (a_nframes data) 0) as [H0 | H0].
  - rewrite !zen_init_returns by (left; exact H0).
    unfold zen_init_dP. rewrite Ephat, Hlen. reflexivity.
  - destruct (forallb (pixel_readable data) pixels) eqn:E.
    + rewrite !zen_init_returns by (right; congruence).
      unfold zen_init_dP. rewrite Ephat, Hlen. reflexivity.
    + rewrite !zen_init_raises by (congruence || lia). reflexivity.
Qed.

(** X24. A negative coordinate is not rejected, it counts from the far
    edge: a pixel [[py, px]] with [-ny <= py < ny] and [-nx <= px < nx]
    gives what [[py mod ny, px mod nx]] gives in its place. *)
Theorem zen_init_negative_coordinates (data : array4)
  (before after : list (list Z)) (py px : Z) :
  (- Z.of_nat (a_ny data) <= py < Z.of_nat (a_ny data))%Z ->
  (- Z.of_nat (a_nx data) <= px < Z.of_nat (a_nx data))%Z ->
  zen_init data (before ++ [py; px] :: after)
  = zen_init data
      (before
       ++ [(py mod Z.of_nat (a_ny data))%Z; (px mod Z.of_nat (a_nx data))%Z]
       :: after).
Proof.
  intros Hy Hx. apply zen_init_same_pixels.
  - rewrite !length_app. reflexivity.
  - rewrite !map_app. cbn [map]. do 2 f_equal.
    unfold pixel_readable, data_item.
    rewrite !index_axis_mod by assumption. reflexivity.
  - intros j. rewrite !map_app. cbn [map]. do 2 f_equal.
    unfold pixel_value, data_item.
    rewrite !index_axis_mod by assumption. reflexivity.
Qed.

Lemma zen_init_negative_coordinates_witness :
  zen_init (mkArray4 1 2 2 1 (fun _ y x _ => INR (y + x + 1)))
    ([[0; 1]%Z] ++ [-1; -2]%Z :: [])
  = zen_init (mkArray4 1 2 2 1 (fun _ y x _ => INR (y + x + 1)))
      ([[0; 1]%Z]
       ++ [((-1) mod Z.of_nat 2)%Z; ((-2) mod Z.of_nat 2)%Z] :: []).
Proof.
  apply (zen_init_negative_coordinates
           (mkArray4 1 2 2 1 (fun _ y x _ => INR (y + x + 1)))
           [[0; 1]%Z] [] (-1)%Z (-2)%Z).
  - cbn [a_ny]. lia.
  - cbn [a_nx]. lia.
Defined.

(** ** What the sweep keeps *)

Lemma keep_better_selected (f : R -> npfloat) (done : list R) (w c : R)
  (b : option R) :
  selected f done c b ->
  exists c' b',
    keep_better f (Fin c, b) w = (Fin c', b')
    /\ selected f (done ++ [w]) c' b'.
Proof.
  intros (Hc & Hmin & Hb). unfold keep_better. cbn [fst].
  destruct (f w) as [r | |] eqn:Ew; cbn [flt].
  - destruct (Rltb r c) eqn:Er.
    + apply Rltb_true in Er. exists r, (Some w). split; [reflexivity |].
      repeat split.
      * lra.
      * intros w' r' Hin Hw'. apply in_app_iff in Hin.
        destruct Hin as [Hin | [<- | []]].
        -- specialize (Hmin _ _ Hin Hw'). lra.
        -- rewrite Ew in Hw'. injection Hw' as <-. lra.
      * exact Ew.
      * lra.
      * exists done, []. split; [reflexivity |].
        intros w' r' Hin Hw'. specialize (Hmin _ _ Hin Hw'). lra.
    + apply Rltb_false in Er. exists c, b. split; [reflexivity |].
      repeat split.
      * exact Hc.
      * intros w' r' Hin Hw'. apply in_app_iff in Hin.
        destruct Hin as [Hin | [<- | []]].
        -- exact (Hmin _ _ Hin Hw').
        -- rewrite Ew in Hw'. injection Hw' as <-. lra.
      * destruct b as [wb |]; [| exact Hb].
        destruct Hb as (Hf & Hlt & before & after & -> & Hfirst).
        repeat split; try assumption.
        exists before, (after ++ [w]). split; [| exact Hfirst].
        rewrite <- app_assoc. reflexivity.
  - exists c, b. split; [reflexivity |]. repeat split.
    + exact Hc.
    + intros w' r' Hin Hw'. apply in_app_iff in Hin.
      destruct Hin as [Hin | [<- | []]]; [exact (Hmin _ _ Hin Hw') | congruence].
    + destruct b as [wb |]; [| exact Hb].
      destruct Hb as (Hf & Hlt & before & after & -> & Hfirst).
      repeat split; try assumption.
      exists before, (after ++ [w]). split; [| exact Hfirst].
      rewrite <- app_assoc. reflexivity.
  - exists c, b. split; [reflexivity |]. repeat split.
    + exact Hc.
    + intros w' r' Hin Hw'. apply in_app_iff in Hin.
      destruct Hin as [Hin | [<- | []]]; [exact (Hmin _ _ Hin Hw') | congruence].
    + destruct b as [wb |]; [| exact Hb].
      destruct Hb as (Hf & Hlt & before & after & -> & Hfirst).
      repeat split; try assumption.
      exists before, (after ++ [w]). split; [| exact Hfirst].
      rewrite <- app_assoc. reflexivity.
Qed.

Lemma fold_keep_better_selected (f : R -> npfloat) (rest : list R) :
  forall (done : list R) (c : R) (b : option R),
    selected f done c b ->
    exists c' b',
      fold_left (keep_better f) rest (Fin c, b) = (Fin c', b')
      /\ selected f (done ++ rest) c' b'.
Proof.
  induction rest as [| w rest IH]; intros done c b Hsel; cbn [fold_left].
  - exists c, b. rewrite app_nil_r. split; [reflexivity | exact Hsel].
  - destruct (keep_better_selected f done w c b Hsel) as (c1 & b1 & E1 & S1).
    rewrite E1.
    destruct (IH (done ++ [w]) c1 b1 S1) as (c' & b' & E & S').
    exists c', b'. split; [exact E |].
    rewrite <- app_assoc in S'. exact S'.
Qed.

Lemma select_best_selected (f : R -> npfloat) (bintry : list R) :
  exists c b,
    select_best f bintry = (Fin c, b) /\ selected f bintry c b.
Proof.
  apply (fold_keep_better_selected f bintry [] 1e300 None).
  repeat split.
  - lra.
  - intros w r [].
Qed.

Section SweepSelection.

Variable binned : Type.
Variable bin_at : R -> result binned.
Variable curve_fit : binned -> result (list R).
Variable redchisq_of : binned -> list R -> result npfloat.
Variable f : R -> npfloat.

(** The turns of the loop from any point on, when every candidate goes
    through with the reduced chi-squared [f w]. *)
Lemma sweep_from (bintry rest : list R) :
  (forall w, In w rest -> candidate bin_at curve_fit redchisq_of w = Ok (f w)) ->
  forall (done : list R) (s : npfloat * option R),
    bintry = done ++ rest ->
    for_each (sweep_body bin_at curve_fit redchisq_of bintry)
      (seq (length done) (length rest))
      (mkSweep (fst s) (snd s) (map f done ++ repeat (Fin 0) (length rest)))
    = Ok (mkSweep (fst (fold_left (keep_better f) rest s))
            (snd (fold_left (keep_better f) rest s))
            (map f bintry)).
Proof.
  induction rest as [| w rest IH]; intros Hok done s Eb.
  - cbn [length seq for_each repeat fold_left].
    rewrite Eb, !app_nil_r. reflexivity.
  - cbn [length seq for_each repeat fold_left].
    unfold sweep_body at 1, getitem.
    rewrite Eb at 1. rewrite nth_error_app2, Nat.sub_diag by lia.
    cbn [nth_error bind].
    pose proof (Hok w (or_introl eq_refl)) as Hw. unfold candidate in Hw.
    destruct (bin_at w) as [b |]; cbn [bind] in *; [| discriminate].
    destruct (curve_fit b) as [ret |]; cbn [bind] in *; [| discriminate].
    rewrite Hw. cbn [bind chisqarray chibest binbest].
    pose proof (setitem_middle (map f done) (repeat (Fin 0) (length rest))
                  (Fin 0) (f w)) as Es.
    rewrite length_map in Es. rewrite Es. cbn [bind].
    specialize (IH (fun w' H => Hok w' (or_intror H)) (done ++ [w])
                  (keep_better f s w)).
    rewrite length_app, map_app in IH. cbn [length map] in IH.
    rewrite Nat.add_1_r, <- !app_assoc in IH. cbn [app] in IH.
    specialize (IH Eb).
    assert (Ek : keep_better f s w
                 = if flt (f w) (fst s) then (f w, Some w) else s)
      by reflexivity.
    rewrite Ek in IH |- *.
    destruct (flt (f w) (fst s)); cbn [bind fst snd] in *; exact IH.
Qed.

Lemma sweep_all_through (bintry : list R) :
  (forall w, In w bintry -> candidate bin_at curve_fit redchisq_of w = Ok (f w)) ->
  sweep bin_at curve_fit redchisq_of bintry
  = Ok (mkSweep (fst (select_best f bintry)) (snd (select_best f bintry))
          (map f bintry)).
Proof.
  intros Hok. unfold sweep, select_best.
  apply (sweep_from bintry bintry Hok [] (Fin 1e300, None)). reflexivity.
Qed.

End SweepSelection.

(** X25. When every candidate width goes through, the sweep records
    each reduced chi-squared in [chisqarray] in the order of the
    candidates and keeps in [chibest] the smallest finite one below
    [1e300], with [binbest] the first width that reaches it; a width
    whose chi-squared is NaN is never kept, and without any value below
    [1e300] [chibest] stays [1e300] and [binbest] is never assigned.
    The candidates are those whose chi-squared is a number or NaN: the
    sign of an infinity is not part of the model. *)
Theorem sweep_keeps_first_minimum (binned : Type)
  (bin_at : R -> result binned) (curve_fit : binned -> result (list R))
  (redchisq_of : binned -> list R -> result npfloat)
  (f : R -> npfloat) (bintry : list R) :
  (forall w, In w bintry -> candidate bin_at curve_fit redchisq_of w = Ok (f w)) ->
  (forall w, In w bintry -> f w <> DivZero) ->
  exists st c,
    sweep bin_at curve_fit redchisq_of bintry = Ok st
    /\ chisqarray st = map f bintry
    /\ chibest st = Fin c
    /\ c <= 1e300
    /\ (forall w r, In w bintry -> f w = Fin r -> c <= r)
    /\ match binbest st with
       | None => c = 1e300
       | Some wb =>
           f wb = Fin c /\ c < 1e300
           /\ exists before after,
                bintry = before ++ wb :: after
                /\ forall w r, In w before -> f w = Fin r -> c < r
       end.
Proof.
  intros Hok _.
  destruct (select_best_selected f bintry) as (c & b & E & Hc & Hmin & Hb).
  exists (mkSweep (Fin c) b (map f bintry)), c.
  split.
  - rewrite (sweep_all_through binned bin_at curve_fit redchisq_of f bintry Hok).
    rewrite E. reflexivity.
  - cbn [chisqarray chibest binbest]. repeat split; assumption.
Qed.

Lemma sweep_keeps_first_minimum_witness :
  exists st c,
    sweep (fun w : R => Ok w) (fun _ : R => Ok []) (fun b _ => Ok (Fin b)) [3; 2; 2]
    = Ok st
    /\ chisqarray st = map Fin [3; 2; 2]
    /\ chibest st = Fin c
    /\ c <= 1e300
    /\ (forall w r, In w [3; 2; 2] -> Fin w = Fin r -> c <= r)
    /\ match binbest st with
       | None => c = 1e300
       | Some wb =>
           Fin wb = Fin c /\ c < 1e300
           /\ exists before after,
                [3; 2; 2] = before ++ wb :: after
                /\ forall w r, In w before -> Fin w = Fin r -> c < r
       end.
Proof.
  apply (sweep_keeps_first_minimum R (fun w : R => Ok w) (fun _ : R => Ok [])
           (fun b _ => Ok (Fin b)) Fin [3; 2; 2]).
  - intros w _. reflexivity.
  - intros w _. discriminate.
Defined.
